(* ===== verification/_CoqProject ===== *)
-Q . S2P
Prelude.v
CpuConf.v
Irq.v
Sync.v
Llwu.v
Uart.v
System.v
Preempt.v
Wakeup.v
Arbiter.v
Main.v
