(* ===== verification/Prelude.v ===== *)
(** * A verification development of the Mulle/K60 sleep arbitration and UART driver

    This library models, in Rocq, the part of the Eistec Contiki port for the
    Freescale Kinetis K60 (Mulle board) that coordinates low-power sleep
    between interrupt handlers and the foreground idle loop, its main client,
    the interrupt-driven UART driver, and the board start-up code that
    configures them.

    ** The program and how its parts interact

    - [src/cpu/arm/k60/include/irq.h]: the interrupt mask primitives
      ([irq_disable], [irq_enable], [irq_restore], [irq_is_in] and the
      [K60_ENTER/LEAVE_CRITICAL_REGION] macros) over PRIMASK and IPSR.
    - The inhibit counters [llwu_inhibit_{stop,vlps,lls}_sema] of
      [src/cpu/arm/k60/include/llwu.h], changed by the macros
      [LLWU_INHIBIT_*] / [LLWU_UNINHIBIT_*] through [exclusive_increment] /
      [exclusive_decrement], a load-exclusive / store-exclusive retry loop
      (synchronization.c is not in [src/]: modelled from the spec, 4.1).
    - The wake-up controller interface of [llwu.h]: the wake-up module, pin
      and edge enumerations and register layout, the controller record
      [llwu_control_t] and [LLWU_CONTROL], and the operations of llwu.c (not
      in [src/]: modelled from the spec, 4.2 and 4.3) [llwu_register],
      [llwu_set_allow], [llwu_sleep] and the wake-up source registry.
    - The UART driver [src/cpu/arm/k60/drivers/uart.c]: [uart_module_enable],
      [uart_init], [uart_putchar], [uart_putstring], [uart_enable_rx_interrupt],
      [uart_disable_rx_interrupt], [uart_set_rx_callback] and the receive
      handler [rx_irq_handler] behind [isr_uartN_status].  The handler raises
      the STOP inhibit when an RX edge wakes the line and releases it when
      the receiver goes idle; enabling reception raises the LLS inhibit.
    - [src/platform/mulle/contiki-main.c]: [main] sets the interrupt
      priorities, configures the LLWU (LPTMR wake-up, its own controller
      [deep_sleep]), provisions the file system ([init_cfs]) and the FRAM
      ([mulle_nvram_init], [increase_boot_count]), and runs the idle loop
      [while (1) { while (process_run() > 0); llwu_sleep(); }].
    - [src/cpu/arm/k60/include/cpu_conf.h]: the revision table, the
      Cortex-M configuration ([CPU_IRQ_NUMOF], the size of the NVIC table
      [main] writes), the DMA sources, the clock gates, the LPTMR0 clock
      and the bit-band macros through which uart.c writes single register
      bits ([BITBAND_REG32] on the [SIM] clock gates, [BITBAND_REG8] on
      [S1] and [PFIFO]).

    The UART driver talks to the sleep arbiter only through the inhibit
    counters; [llwu_sleep] reads them and the controllers' votes with
    interrupts masked and chooses the deepest permitted power mode.

    ** Files, and how they correspond to the code

    - [Prelude] (this file): the [k60_scope] notations ([r |= m], [r &=~ m]),
      machine-width wrap-around ([wrap], [u8], [u16], [u32]), register bit
      idioms ([reg_set], [reg_clear], [reg_write_bit], [field_get],
      [field_set]), the [k60] hint databases, the tactics and the shared
      lemmas on integers, bit fields and lists.
    - [CpuConf] (Module [CpuConf]): the bit-band macros over a byte memory
      with the core's alias decoding ([BITBAND_ADDR], [BITBAND_VAR_write],
      [BITBAND_VAR_read]), the clock gates, [dma_source_t] with its
      [Finite] instance, the LPTMR0 clock selection, [K60_EXPECTED_CPUID]
      and [CPU_IRQ_NUMOF].
    - [Irq] (Module [Irq]): the record [cpu] (PRIMASK, IPSR) and one
      definition per primitive of irq.h; [critical_region] is the macro pair.
    - [Sync] (Module [Sync]): the counter word with the exclusive monitor
      ([xmem], [ldrex], [strex]), the retry loop as a step function
      ([ex_step]) interleaved with complete interrupt handlers ([run] over a
      schedule), and the atomic counter it refines ([astep]).
    - [Llwu] (Module [Llwu]): the class [InhibitCounters] and its laws (what
      the inhibit macros promise a driver) with the instance [llwu_state];
      the controller heap ([controls], a gmap from addresses to
      [llwu_control]) with [llwu_register], [llwu_set_allow] and the
      invariant [chain]; [llwu_choose] / [llwu_sleep] and the policy
      [permitted].
    - [Uart] (Module [Uart], Section [Driver] over any [InhibitCounters]):
      the driver state [drv] (register files, [rx_callback], [receiving], a
      trace of the driver's visible actions), one definition per function of
      uart.c ([rx_drain], [rx_idle_check], [rx_edge_check] are the three
      branches of [rx_irq_handler]), and the transition system [drv_step]
      of interrupts, line changes and the driver's entry points.
    - [System] (Module [System]): the driver over the arbiter's counters,
      other subsystems' inhibits and releases (STOP in pairs, with a ghost
      count [sys_others] of the STOP inhibits they hold) and votes, and the
      idle loop's [llwu_sleep], as one step relation [sys_step] with its
      invariant [sys_inv] (the pairing invariant with [sys_others] as its
      base, and a well-formed controller list).
    - [Preempt] (Module [Preempt]): another subsystem's
      [LLWU_INHIBIT_STOP()] / [LLWU_UNINHIBIT_STOP()] as [Sync]'s retry
      loop on the arbiter's [stop_sema], interleaved instruction by
      instruction with UART receive interrupts ([p_step], [p_run]).
    - [Wakeup] (Module [Wakeup]): the enumerations of llwu.h and the
      wake-up registers [ME], [PE1..PE4] and callback table of llwu.c.
    - [Arbiter] (Module [Arbiter]): one cycle of [llwu_sleep] with its
      wake-up, [llwu_sleep_cycle]: the decision of [Llwu], the flags the
      LLWU sets in LLS for pins that saw an edge their setting selects
      ([llwu_pin_flags]), and the dispatch of [Wakeup].
    - [Main] (Module [Main]): the FRAM ([nvram], with fault injection),
      [mulle_nvram_init], [increase_boot_count] and their composition
      [main_nvram] (Section [Nvram] over the board constants), [init_cfs]
      over an abstract Coffee store, the priority loop, [main_llwu_setup],
      and [idle_loop].

    ** What the theorems show

    - End to end (System): the core never enters STOP or a deeper mode
      while a UART is receiving ([no_deep_sleep_while_receiving]), in every
      state reachable by interrupts, driver calls, other subsystems and
      idle-loop sleeps; the STOP counter is accounted for there (the other
      subsystems' holds plus the driver's inhibits minus its releases,
      never negative, never wrapping: [sys_stop_accounting]); and it is
      never stuck: the other subsystems releasing, the lines going idle and
      one interrupt per UART bring it back to 0
      ([sys_release_reachable]).
    - The receive state machine (Uart): the pairing invariant [rx_inv] holds
      in every reachable state ([rx_inv_reachable]: each latch is 0 or 1 and
      the STOP counter exceeds its base by the number of latched UARTs); the
      handler's effect on every branch ([rx_irq_handler_spec]); repeated
      edges while receiving change nothing ([rx_edge_idempotent]); the
      Idle/Receiving round trip; the code's behaviour
      on an edge seen on an already idle line; and the lines going idle
      and one interrupt per UART release every STOP inhibit of the driver
      ([rx_release_reachable]).
    - The counters (Sync, Preempt): no update is lost under any
      interleaving with interrupt handlers (a forward simulation of the
      atomic counter), the loop terminates once it runs three
      steps uninterrupted; and inside the composed system a foreground STOP
      update preempted by UART receive interrupts is simulated by atomic
      [System] steps ([preempted_stop_update_refines]), which justifies the
      atomic counter steps of [System].
    - The policy (Llwu, Main): [llwu_sleep] refines "the deepest mode no
      counter and no controller forbids" on a well-formed controller chain,
      over which its pointer walk computes the conjunction of the flags
      ([chain_allow]); a dissenting controller
      forces WAIT; one arbiter cycle enters the policy's mode and runs
      exactly the callbacks of the pins that woke the core from LLS
      ([llwu_sleep_cycle_spec]); registration keeps the chain well formed, and a double
      registration makes the walk cycle; after [main]'s set-up the idle loop
      sleeps only after [process_run()] returned 0, in the mode the policy
      gives.
    - Initialisation and transmit (Uart): clock gating of exactly one UART
      and the trap on an invalid one,
      the programmed baud divisor ([UART_SBR] = round(clk / (16 baud)) of
      spec 6 and its fine adjust [UART_BRFA]) and its 3% accuracy for SBR
      from 17 to [2^13 - 1], the silent loss of the high SBR bits above,
      the UART5 trap, blocking transmit of a C string,
      and the LLS inhibit left held by a second [uart_enable_rx_interrupt]
      ([uart_double_enable_lls_leak]).
    - Start-up (Main): first boot formats the FRAM and sets the counter to
      1; later boots increment it (mod 2^32) and change nothing else;
      its error paths; [init_cfs]; the priority loop.
    - Bit banding and configuration (CpuConf): [BITBAND_ADDR] round trip,
      [BITBAND_REG32] / [BITBAND_REG8] stores are [reg_write_bit] and loads
      read the bit, the
      clock gates are independent bits, the LPTMR prescales.
    - Wake-up sources (Wakeup) and interrupt masking (Irq): bit and 2-bit
      field updates read back and touch nothing else; critical regions
      restore the mask they found.

    ** Bounds and fuel

    - Counters are [uint32_t]: every update is [u32] (wrap-around written
      out); an unpaired decrement wraps to [2^32 - 1]
      ([uart_disable_rx_underflow]).  Registers are 8-bit ([u8]); the SBR
      field is 13 bits; the baud theorems hold for every clock and rate.
    - The walk of the controller list in [llwu_sleep] has one step per
      allocated control block; on a well-formed chain this is enough
      ([chain_length]), and a cyclic list runs out of any fuel.
    - The zeroing loop of [mulle_nvram_init] has [capacity / 8 + 2] steps,
      enough for every device behaviour ([mulle_nvram_init_total]).
    - Busy-waits ([wait_bit]) read a finite stream of status values; [None]
      means still spinning.  Transmit under an always-ready transmitter
      uses two reads per character.
    - Interleavings are finite schedules; [ex_terminates] shows three
      uninterrupted foreground steps end the loop.

    ** Not modelled

    The register writes that enter a power mode (SMC registers, WFI) and
    that clear the LLWU flags, and [llwu_init] (it configures the LLWU
    interrupt only): llwu.c is not in [src/] and the spec does not describe
    them; the arbiter cycle models their effect (a mode entered, flags
    seen once).
    [KINETIS_UART] of cpu_conf.h, which only names a vendor-header type
    (the register file [Uart.uart_hw] models it), and the rate of
    OSCERCLK, which the header does not give; the effect of the bring-up
    calls of [main] outside the LLWU, NVRAM, file system and priorities
    (LEDs, power control, clocks, RTC, SPI, network, the Contiki
    scheduler), and the order of those calls, which changes no modelled
    state; the DMA source enumeration is transcribed as data only (the
    spec calls it a static table); the SPI FRAM driver and
    Coffee internals, which are abstracted as above.

    ** Further work

    The preemption of the VLPS/LLS updates (the same loop on another word)
    and nested interrupts inside a handler's own update; an LLS
    accounting for the receive enable/disable calls; the arbiter cycle
    inside [System]'s idle-loop step; [Uart] stated over [CpuConf]'s
    bit-band memory instead of register files.
*)

From stdpp Require Import base list.
From Stdlib Require Import ZArith Lia.

Declare Scope k60_scope.
Delimit Scope k60_scope with k60.
Open Scope Z_scope.

(** ** Machine-width integers *)

(** [wrap w z] is the value a [w]-bit unsigned C variable holds after
    the assignment of [z]. *)
Definition wrap (w z : Z) : Z := z mod 2 ^ w.
Definition u8 (z : Z) : Z := wrap 8 z.
Definition u16 (z : Z) : Z := wrap 16 z.
Definition u32 (z : Z) : Z := wrap 32 z.

(** A value that fits in [w] bits. *)
Definition fits (w z : Z) : Prop := 0 <= z < 2 ^ w.

(** The two C register idioms [r |= m] and [r &= ~m]. *)
Definition reg_set (r m : Z) : Z := Z.lor r m.
Definition reg_clear (r m : Z) : Z := Z.land r (Z.lnot m).
(** [BITBAND_REG(r, k) = b]: an atomic write of one bit of a register. *)
Definition reg_write_bit (r k : Z) (b : bool) : Z :=
  if b then Z.setbit r k else Z.clearbit r k.

Notation "r '|=' m" := (reg_set r m) (at level 50, left associativity) : k60_scope.
Notation "r '&=~' m" := (reg_clear r m) (at level 50, left associativity) : k60_scope.

(** [DEBUGGER_BREAK(BREAK_INVALID_PARAM)]: the debug trap the drivers hit
    on an invalid configuration; an operation that hits it returns
    [inl] of the reason. *)
Inductive break_reason := BREAK_INVALID_PARAM.

(** The sum of a list of counters. *)
Definition sumZ (l : list Z) : Z := foldr Z.add 0 l.

Create HintDb k60 discriminated.
Create Rewrite HintDb k60_rw.

(** ** Tactics *)

(** Prove an equation between bit-level expressions bit by bit. *)
Ltac zbits :=
  apply Z.bits_inj'; intros ?i ?Hi;
  repeat first
    [ rewrite Z.lor_spec | rewrite Z.land_spec | rewrite Z.lnot_spec by lia
    | rewrite Z.shiftl_spec by lia | rewrite Z.shiftr_spec by lia
    | rewrite Z.setbit_eqb by lia | rewrite Z.clearbit_eqb by lia ].

(** Close a goal of booleans by case analysis on the bits it mentions. *)
Ltac bool_cases :=
  repeat match goal with
         | |- context [Z.testbit ?a ?b] => destruct (Z.testbit a b)
         end; reflexivity.

(** Unfold the machine-width wrappers and decide the goal with [lia]. *)
Ltac wrap_lia := unfold u8, u16, u32, wrap, fits in *; lia.

(** ** Lemmas on machine-width integers *)

Lemma wrap_fits (w z : Z) : 0 <= w -> fits w (wrap w z).
Proof. intros Hw. unfold fits, wrap. apply Z.mod_pos_bound, Z.pow_pos_nonneg; lia. Qed.

Lemma wrap_id (w z : Z) : fits w z -> wrap w z = z.
Proof. unfold fits, wrap. intros. apply Z.mod_small; lia. Qed.

Lemma u32_fits (z : Z) : fits 32 (u32 z).
Proof. apply wrap_fits; lia. Qed.

Lemma u8_fits (z : Z) : fits 8 (u8 z).
Proof. apply wrap_fits; lia. Qed.

Lemma u16_fits (z : Z) : fits 16 (u16 z).
Proof. apply wrap_fits; lia. Qed.

#[export] Hint Resolve u32_fits u8_fits u16_fits : k60.

Lemma u32_id (z : Z) : fits 32 z -> u32 z = z.
Proof. apply wrap_id. Qed.

Lemma u8_id (z : Z) : fits 8 z -> u8 z = z.
Proof. apply wrap_id. Qed.

Lemma u16_id (z : Z) : fits 16 z -> u16 z = z.
Proof. apply wrap_id. Qed.

(** Incrementing a 32-bit counter below its maximum does not wrap. *)
Lemma u32_succ (z : Z) : 0 <= z < 2 ^ 32 - 1 -> u32 (z + 1) = z + 1.
Proof. intros. apply u32_id. unfold fits. lia. Qed.

(** Decrementing a positive 32-bit counter does not wrap. *)
Lemma u32_pred (z : Z) : 0 < z < 2 ^ 32 -> u32 (z - 1) = z - 1.
Proof. intros. apply u32_id. unfold fits. lia. Qed.

(** Wrap-around is compatible with addition: the order of wrapped
    increments and decrements does not matter. *)
Lemma u32_add_u32 (a b : Z) : u32 (u32 a + b) = u32 (a + b).
Proof. unfold u32, wrap. rewrite Zplus_mod_idemp_l. reflexivity. Qed.

#[export] Hint Rewrite u32_add_u32 : k60_rw.

(** Absorb inner wrap-arounds: [u32 (u32 a + b + c)] becomes
    [u32 (a + (b + c))]. *)
Ltac u32_absorb := rewrite ?Z.add_0_r; repeat rewrite <- Z.add_assoc; autorewrite with k60_rw.

(** A value fits in [w] bits iff no bit at or above [w] is set. *)
Lemma fits_bits (w z : Z) :
  0 <= w -> 0 <= z -> fits w z <-> (forall i, w <= i -> Z.testbit z i = false).
Proof. intros. unfold fits. rewrite Z.bounded_iff_bits_nonneg'; [done | lia | lia]. Qed.

Lemma fits_nonneg (w z : Z) : fits w z -> 0 <= z.
Proof. unfold fits. lia. Qed.

Lemma reg_set_fits (w r m : Z) : 0 <= w -> fits w r -> fits w m -> fits w (reg_set r m).
Proof.
  intros Hw Hr Hm. pose proof (fits_nonneg _ _ Hr). pose proof (fits_nonneg _ _ Hm).
  unfold reg_set. apply fits_bits; [lia | apply Z.lor_nonneg; lia |].
  intros i Hi. rewrite Z.lor_spec.
  rewrite (proj1 (fits_bits w r Hw ltac:(lia)) Hr i Hi).
  rewrite (proj1 (fits_bits w m Hw ltac:(lia)) Hm i Hi). reflexivity.
Qed.

Lemma reg_clear_fits (w r m : Z) : 0 <= w -> fits w r -> 0 <= m -> fits w (reg_clear r m).
Proof.
  intros Hw Hr Hm. pose proof (fits_nonneg _ _ Hr).
  unfold reg_clear. apply fits_bits; [lia | apply Z.land_nonneg; lia |].
  intros i Hi. rewrite Z.land_spec.
  rewrite (proj1 (fits_bits w r Hw ltac:(lia)) Hr i Hi). reflexivity.
Qed.

#[export] Hint Resolve reg_set_fits reg_clear_fits : k60.

Lemma testbit_reg_set (r m i : Z) : Z.testbit (reg_set r m) i = Z.testbit r i || Z.testbit m i.
Proof. apply Z.lor_spec. Qed.

Lemma testbit_reg_clear (r m i : Z) :
  0 <= i -> Z.testbit (reg_clear r m) i = Z.testbit r i && negb (Z.testbit m i).
Proof. intros. unfold reg_clear. rewrite Z.land_spec, Z.lnot_spec by lia. reflexivity. Qed.

Lemma testbit_pow2 (k i : Z) : 0 <= k -> Z.testbit (2 ^ k) i = bool_decide (i = k).
Proof.
  intros Hk. destruct (decide (i = k)) as [->|Hne].
  - rewrite bool_decide_true by done. apply Z.pow2_bits_true. lia.
  - rewrite bool_decide_false by done.
    destruct (decide (0 <= i)).
    + apply Z.pow2_bits_false. done.
    + apply Z.testbit_neg_r. lia.
Qed.

(** ** Lemmas on lists of counters *)

Lemma sumZ_insert (l : list Z) (i : nat) (x y : Z) :
  l !! i = Some x -> sumZ (<[i:=y]> l) = sumZ l - x + y.
Proof.
  revert i. induction l as [|a l IH]; intros [|i] Hl; simpl in *; try discriminate.
  - injection Hl as ->. lia.
  - rewrite (IH i Hl). lia.
Qed.

Lemma sumZ_replicate (n : nat) : sumZ (replicate n 0) = 0.
Proof. induction n as [|n IH]; simpl; [done | rewrite IH; lia]. Qed.

Lemma sumZ_zeros (l : list Z) : Forall (fun z => z = 0) l -> sumZ l = 0.
Proof. induction 1 as [|x l -> _ IH]; [done|]. unfold sumZ in *. simpl. lia. Qed.

Lemma sumZ_bounds (l : list Z) (lo hi : Z) :
  Forall (fun z => lo <= z <= hi) l ->
  Z.of_nat (length l) * lo <= sumZ l <= Z.of_nat (length l) * hi.
Proof. induction 1; simpl; lia. Qed.

Lemma sumZ_nonneg (l : list Z) : Forall (fun z => 0 <= z) l -> 0 <= sumZ l.
Proof. induction 1; simpl; lia. Qed.

Lemma sumZ_lookup_le (l : list Z) (i : nat) (x : Z) :
  Forall (fun z => 0 <= z) l -> l !! i = Some x -> x <= sumZ l.
Proof.
  intros Hl. revert i. induction Hl as [|a l Ha Hl IH]; intros [|i] Hi; simpl in *; try discriminate.
  - injection Hi as ->. pose proof (sumZ_nonneg l Hl). lia.
  - specialize (IH i Hi). lia.
Qed.

(** ** Register fields *)

Lemma u8_land (z : Z) : u8 z = Z.land z (Z.ones 8).
Proof. unfold u8, wrap. rewrite Z.land_ones by lia. done. Qed.

Lemma testbit_fits_high (w z i : Z) : 0 <= w -> fits w z -> w <= i -> Z.testbit z i = false.
Proof. intros Hw Hz Hi. apply (proj1 (fits_bits w z Hw (fits_nonneg _ _ Hz)) Hz i Hi). Qed.

(** A single-bit write, bit by bit. *)
Lemma testbit_reg_write_bit (r k i : Z) (b : bool) :
  0 <= k -> Z.testbit (reg_write_bit r k b) i = if Z.eqb i k then b else Z.testbit r i.
Proof.
  intros Hk. unfold reg_write_bit. destruct b.
  - rewrite Z.setbit_eqb by done. destruct (Z.eqb_spec i k), (Z.eqb_spec k i); subst; done || lia.
  - rewrite Z.clearbit_eqb. destruct (Z.eqb_spec i k), (Z.eqb_spec k i); subst;
      rewrite ?andb_false_r, ?andb_true_r; done || lia.
Qed.

Lemma reg_write_bit_fits (w r k : Z) (b : bool) :
  0 <= k < w -> fits w r -> fits w (reg_write_bit r k b).
Proof.
  intros Hk Hr. apply fits_bits; [lia | |].
  - pose proof (fits_nonneg _ _ Hr). unfold reg_write_bit. destruct b.
    + rewrite Z.setbit_spec'. apply Z.lor_nonneg. split; [lia | apply Z.pow_nonneg; lia].
    + rewrite Z.clearbit_spec'. apply Z.ldiff_nonneg. lia.
  - intros i Hi. rewrite testbit_reg_write_bit by lia.
    destruct (Z.eqb_spec i k); [lia|]. apply (testbit_fits_high w); lia || done.
Qed.

(** Writing the low [k] bits of an 8-bit register with
    [r = (r & ~mask) | (x & mask)] leaves [x & mask] in its field. *)
Lemma field_write_low (r x k : Z) :
  0 <= k <= 8 ->
  Z.land (u8 (Z.lor (reg_clear r (Z.ones k)) (Z.land x (Z.ones k)))) (Z.ones k) = Z.land x (Z.ones k).
Proof.
  intros Hk. rewrite u8_land. unfold reg_clear. zbits.
  rewrite !Z.testbit_ones_nonneg by lia.
  destruct (Z.ltb_spec i k), (Z.ltb_spec i 8); try lia; bool_cases.
Qed.

(** Writing a whole 8-bit register that way stores [x & 0xFF]. *)
Lemma field_write_full (r x : Z) :
  u8 (Z.lor (reg_clear r (Z.ones 8)) (Z.land x (Z.ones 8))) = Z.land x (Z.ones 8).
Proof.
  rewrite u8_land. unfold reg_clear. zbits.
  rewrite !Z.testbit_ones_nonneg by lia.
  destruct (Z.ltb_spec i 8); bool_cases.
Qed.

(** The 13-bit field split over a 5-bit high part and an 8-bit low part
    joins back to the low 13 bits. *)
Lemma split_13_join (x : Z) :
  Z.lor (Z.shiftl (Z.land (Z.shiftr x 8) (Z.ones 5)) 8) (Z.land x (Z.ones 8)) = x mod 2 ^ 13.
Proof.
  rewrite <- Z.land_ones by lia. apply Z.bits_inj'; intros i Hi.
  rewrite Z.lor_spec, Z.shiftl_spec, !Z.land_spec by lia.
  destruct (Z.ltb_spec i 8).
  - rewrite !(Z.testbit_neg_r _ (i - 8)) by lia. rewrite !Z.testbit_ones_nonneg by lia.
    destruct (Z.ltb_spec i 8), (Z.ltb_spec i 13); try lia; bool_cases.
  - rewrite Z.shiftr_spec by lia. replace (i - 8 + 8) with i by lia.
    rewrite !Z.testbit_ones_nonneg by lia.
    destruct (Z.ltb_spec (i - 8) 5), (Z.ltb_spec i 8), (Z.ltb_spec i 13); try lia; bool_cases.
Qed.

(** A [w]-bit field at bit [s]: reading it, and the C idiom
    [r = (r & ~(mask << s)) | (v << s)] writing it. *)
Definition field_get (r s w : Z) : Z := Z.land (Z.shiftr r s) (Z.ones w).
Definition field_set (r s w v : Z) : Z :=
  Z.lor (Z.land r (Z.lnot (Z.shiftl (Z.ones w) s))) (Z.shiftl v s).

Lemma testbit_field_set (r s w v i : Z) :
  0 <= s -> 0 <= w -> fits w v -> 0 <= i ->
  Z.testbit (field_set r s w v) i =
    if bool_decide (s <= i < s + w) then Z.testbit v (i - s) else Z.testbit r i.
Proof.
  intros Hs Hw Hv Hi. unfold field_set.
  rewrite Z.lor_spec, Z.land_spec, Z.lnot_spec by lia.
  case_bool_decide as Hin.
  - rewrite !Z.shiftl_spec by lia. rewrite Z.testbit_ones_nonneg by lia.
    destruct (Z.ltb_spec (i - s) w); [|lia]. simpl. rewrite andb_false_r. done.
  - destruct (Z.ltb_spec i s).
    + rewrite !Z.shiftl_spec_low by lia. rewrite andb_true_r, orb_false_r. done.
    + rewrite !Z.shiftl_spec by lia. rewrite Z.testbit_ones_nonneg by lia.
      destruct (Z.ltb_spec (i - s) w); [lia|]. simpl.
      rewrite (testbit_fits_high w v (i - s) Hw Hv) by lia. rewrite andb_true_r, orb_false_r. done.
Qed.

(** Reading back the field just written gives the value written. *)
Lemma field_get_set_eq (r s w v : Z) :
  0 <= s -> 0 <= w -> fits w v -> field_get (field_set r s w v) s w = v.
Proof.
  intros Hs Hw Hv. unfold field_get. apply Z.bits_inj'; intros i Hi.
  rewrite Z.land_spec, Z.shiftr_spec by lia.
  rewrite (testbit_field_set r s w v _ Hs Hw Hv), Z.testbit_ones_nonneg by lia.
  destruct (Z.ltb_spec i w).
  - rewrite bool_decide_true by lia. replace (i + s - s) with i by lia. apply andb_true_r.
  - rewrite andb_false_r. symmetry. apply (testbit_fits_high w v i Hw Hv). lia.
Qed.

(** Writing one field leaves a disjoint field as it was. *)
Lemma field_get_set_other (r s w v s' w' : Z) :
  0 <= s -> 0 <= w -> fits w v -> 0 <= s' -> 0 <= w' -> (s + w <= s' \/ s' + w' <= s) ->
  field_get (field_set r s w v) s' w' = field_get r s' w'.
Proof.
  intros Hs Hw Hv Hs' Hw' Hd. unfold field_get. apply Z.bits_inj'; intros i Hi.
  rewrite !Z.land_spec, !Z.shiftr_spec by lia.
  rewrite (testbit_field_set r s w v _ Hs Hw Hv), Z.testbit_ones_nonneg by lia.
  destruct (Z.ltb_spec i w'); [|rewrite !andb_false_r; done].
  rewrite bool_decide_false by lia. done.
Qed.

(** Writing a field that lies within [k] bits keeps a [k]-bit register. *)
Lemma field_set_fits (r s w v k : Z) :
  0 <= s -> 0 <= w -> s + w <= k -> fits k r -> fits w v -> fits k (field_set r s w v).
Proof.
  intros Hs Hw Hk Hr Hv. pose proof (fits_nonneg _ _ Hr). pose proof (fits_nonneg _ _ Hv).
  apply fits_bits; [lia| |].
  - unfold field_set. apply Z.lor_nonneg. split.
    + apply Z.land_nonneg. lia.
    + apply Z.shiftl_nonneg. lia.
  - intros i Hi. rewrite (testbit_field_set r s w v _ Hs Hw Hv) by lia.
    rewrite bool_decide_false by lia. apply (testbit_fits_high k r i ltac:(lia) Hr). lia.
Qed.
