(* ===== verification/CpuConf.v ===== *)
(** * CPU configuration: [src/cpu/arm/k60/include/cpu_conf.h]

    The header selects the silicon revision (its expected CPUID), sets the
    Cortex-M configuration ([CPU_IRQ_NUMOF]), names the DMA multiplexer
    sources ([dma_source_t], kept as data with its decidable equality and
    finiteness, no theorem: it is a table), configures the LPTMR0 clock and defines the
    bit-band alias macros [BITBAND_ADDR] / [BITBAND_VARn] that the drivers
    use for single-bit register writes ([BITBAND_REG32], [BITBAND_REG8] in
    uart.c are the same computation).

    The Cortex-M4 decodes an alias address to a byte and a bit of its
    bit-band region (SRAM_U at 0x20000000 and the peripherals at 0x40000000,
    1 MB each): that decoding ([alias_target]) and the write through an
    alias ([alias_write]) are the hardware the macros rely on, over a
    byte-addressed memory.

    The clock gate macros ([PORTx_CLOCK_GATE], [DMA_CLOCK_GATE],
    [DMAMUX_CLOCK_GATE], [LPTIMER_CLKEN()]) are bit-band stores to a [SIM]
    register ([clock_gate_write]).

    Proved: [BITBAND_ADDR] lands, word-aligned, in the alias window and the
    hardware decodes it back to the byte and bit meant, provided that byte
    is in the region (outside it the macro aliases silently); a store
    through it is the read-modify-write [reg_write_bit] of a 32-bit
    register or of a byte register, touching no other byte, and a load
    reads the bit (which is how [Uart] models [BITBAND_REG32] and
    [BITBAND_REG8]); the clock gates are pairwise independent bits; the
    LPTMR prescale of each clock source of known rate gives
    [LPTIMER_SPEED]; the expected CPUID of each revision is a Cortex-M4. *)

From stdpp Require Import base list finite.
From Stdlib Require Import ZArith Lia.
From S2P Require Import Prelude.

Module CpuConf.

(** ** Bit banding *)

(** [BITBAND_ADDR(addr, bit)]: [((uint32_t)addr & 0xF0000000u) + 0x2000000
    + (((uint32_t)addr & 0xFFFFF) << 5) + (bit << 2)], in [uint32_t]. *)
Definition BITBAND_ADDR (addr bit : Z) : Z :=
  let a := u32 addr in
  u32 (Z.land a 4026531840 + 33554432 + Z.shiftl (Z.land a 1048575) 5 + Z.shiftl bit 2).

(** The two bit-band regions of the Cortex-M4, 1 MB each. *)
Definition in_bitband_region (a : Z) : bool :=
  (Z.leb 536870912 a && Z.ltb a 537919488) || (Z.leb 1073741824 a && Z.ltb a 1074790400).

(** The hardware's decoding of an alias word address: the byte of the
    bit-band region and the bit in that byte. *)
Definition alias_target (alias : Z) : Z * Z :=
  let base := Z.land alias 4026531840 in
  let off := alias - base - 33554432 in
  (base + off / 32, off mod 32 / 4).

(** A byte-addressed memory. *)
Definition memory := Z -> Z.

(** A store of [v] through an alias (of any width): bit 0 of [v] becomes
    the addressed bit; nothing else changes. *)
Definition alias_write (m : memory) (alias v : Z) : memory :=
  let '(b, k) := alias_target alias in
  fun a => if Z.eqb a b then reg_write_bit (m b) k (Z.odd v) else m a.

(** The little-endian combination of bytes, and the 32-bit word at [a]. *)
Fixpoint le_combine (bs : list Z) : Z :=
  match bs with
  | [] => 0
  | b :: rest => Z.lor b (Z.shiftl (le_combine rest) 8)
  end.

Definition word32 (m : memory) (a : Z) : Z := le_combine [m a; m (a + 1); m (a + 2); m (a + 3)].

(** [BITBAND_VAR32(var, bit) = v] and the 8-bit and 16-bit variants: a
    store through the alias of [(&var, bit)]. *)
Definition BITBAND_VAR_write (m : memory) (addr bit v : Z) : memory :=
  alias_write m (BITBAND_ADDR addr bit) v.

(** A load from an alias reads the bit it decodes to, as 0 or 1. *)
Definition alias_read (m : memory) (alias : Z) : Z :=
  let '(b, k) := alias_target alias in Z.b2z (Z.testbit (m b) k).

(** [BITBAND_VAR32/16/8(var, bit)] as an rvalue. *)
Definition BITBAND_VAR_read (m : memory) (addr bit : Z) : Z := alias_read m (BITBAND_ADDR addr bit).

(** ** The DMA multiplexer sources *)

(** [dma_source_t] (lines 112-178). *)
Inductive dma_source_t :=
  | DMA_SOURCE_DISABLED
  | DMA_SOURCE_RESERVED1
  | DMA_SOURCE_UART0_RX
  | DMA_SOURCE_UART0_TX
  | DMA_SOURCE_UART1_RX
  | DMA_SOURCE_UART1_TX
  | DMA_SOURCE_UART2_RX
  | DMA_SOURCE_UART2_TX
  | DMA_SOURCE_UART3_RX
  | DMA_SOURCE_UART3_TX
  | DMA_SOURCE_UART4_RX
  | DMA_SOURCE_UART4_TX
  | DMA_SOURCE_RESERVED12
  | DMA_SOURCE_RESERVED13
  | DMA_SOURCE_I2S0_RX
  | DMA_SOURCE_I2S0_TX
  | DMA_SOURCE_SPI0_RX
  | DMA_SOURCE_SPI0_TX
  | DMA_SOURCE_SPI1_RX
  | DMA_SOURCE_SPI1_TX
  | DMA_SOURCE_SPI2_RX
  | DMA_SOURCE_SPI2_TX
  | DMA_SOURCE_I2C0
  | DMA_SOURCE_I2C1
  | DMA_SOURCE_FTM0CH0
  | DMA_SOURCE_FTM0CH1
  | DMA_SOURCE_FTM0CH2
  | DMA_SOURCE_FTM0CH3
  | DMA_SOURCE_FTM0CH4
  | DMA_SOURCE_FTM0CH5
  | DMA_SOURCE_FTM0CH6
  | DMA_SOURCE_FTM0CH7
  | DMA_SOURCE_FTM1CH0
  | DMA_SOURCE_FTM1CH1
  | DMA_SOURCE_FTM2CH0
  | DMA_SOURCE_FTM2CH1
  | DMA_SOURCE_IEEE1588_TIMER0
  | DMA_SOURCE_IEEE1588_TIMER1
  | DMA_SOURCE_IEEE1588_TIMER2
  | DMA_SOURCE_IEEE1588_TIMER3
  | DMA_SOURCE_ADC0
  | DMA_SOURCE_ADC1
  | DMA_SOURCE_CMP0
  | DMA_SOURCE_CMP1
  | DMA_SOURCE_CMP2
  | DMA_SOURCE_DAC0
  | DMA_SOURCE_RESERVED46
  | DMA_SOURCE_CMT
  | DMA_SOURCE_PDB
  | DMA_SOURCE_PORT_A
  | DMA_SOURCE_PORT_B
  | DMA_SOURCE_PORT_C
  | DMA_SOURCE_PORT_D
  | DMA_SOURCE_PORT_E
  | DMA_SOURCE_DMAMUX_ALWAYS0
  | DMA_SOURCE_DMAMUX_ALWAYS1
  | DMA_SOURCE_DMAMUX_ALWAYS2
  | DMA_SOURCE_DMAMUX_ALWAYS3
  | DMA_SOURCE_DMAMUX_ALWAYS4
  | DMA_SOURCE_DMAMUX_ALWAYS5
  | DMA_SOURCE_DMAMUX_ALWAYS6
  | DMA_SOURCE_DMAMUX_ALWAYS7
  | DMA_SOURCE_DMAMUX_ALWAYS8
  | DMA_SOURCE_DMAMUX_ALWAYS9.

(** The value of each enumerator. *)
Definition dma_source_num (s : dma_source_t) : Z :=
  match s with
  | DMA_SOURCE_DISABLED => 0
  | DMA_SOURCE_RESERVED1 => 1
  | DMA_SOURCE_UART0_RX => 2
  | DMA_SOURCE_UART0_TX => 3
  | DMA_SOURCE_UART1_RX => 4
  | DMA_SOURCE_UART1_TX => 5
  | DMA_SOURCE_UART2_RX => 6
  | DMA_SOURCE_UART2_TX => 7
  | DMA_SOURCE_UART3_RX => 8
  | DMA_SOURCE_UART3_TX => 9
  | DMA_SOURCE_UART4_RX => 10
  | DMA_SOURCE_UART4_TX => 11
  | DMA_SOURCE_RESERVED12 => 12
  | DMA_SOURCE_RESERVED13 => 13
  | DMA_SOURCE_I2S0_RX => 14
  | DMA_SOURCE_I2S0_TX => 15
  | DMA_SOURCE_SPI0_RX => 16
  | DMA_SOURCE_SPI0_TX => 17
  | DMA_SOURCE_SPI1_RX => 18
  | DMA_SOURCE_SPI1_TX => 19
  | DMA_SOURCE_SPI2_RX => 20
  | DMA_SOURCE_SPI2_TX => 21
  | DMA_SOURCE_I2C0 => 22
  | DMA_SOURCE_I2C1 => 23
  | DMA_SOURCE_FTM0CH0 => 24
  | DMA_SOURCE_FTM0CH1 => 25
  | DMA_SOURCE_FTM0CH2 => 26
  | DMA_SOURCE_FTM0CH3 => 27
  | DMA_SOURCE_FTM0CH4 => 28
  | DMA_SOURCE_FTM0CH5 => 29
  | DMA_SOURCE_FTM0CH6 => 30
  | DMA_SOURCE_FTM0CH7 => 31
  | DMA_SOURCE_FTM1CH0 => 32
  | DMA_SOURCE_FTM1CH1 => 33
  | DMA_SOURCE_FTM2CH0 => 34
  | DMA_SOURCE_FTM2CH1 => 35
  | DMA_SOURCE_IEEE1588_TIMER0 => 36
  | DMA_SOURCE_IEEE1588_TIMER1 => 37
  | DMA_SOURCE_IEEE1588_TIMER2 => 38
  | DMA_SOURCE_IEEE1588_TIMER3 => 39
  | DMA_SOURCE_ADC0 => 40
  | DMA_SOURCE_ADC1 => 41
  | DMA_SOURCE_CMP0 => 42
  | DMA_SOURCE_CMP1 => 43
  | DMA_SOURCE_CMP2 => 44
  | DMA_SOURCE_DAC0 => 45
  | DMA_SOURCE_RESERVED46 => 46
  | DMA_SOURCE_CMT => 47
  | DMA_SOURCE_PDB => 48
  | DMA_SOURCE_PORT_A => 49
  | DMA_SOURCE_PORT_B => 50
  | DMA_SOURCE_PORT_C => 51
  | DMA_SOURCE_PORT_D => 52
  | DMA_SOURCE_PORT_E => 53
  | DMA_SOURCE_DMAMUX_ALWAYS0 => 54
  | DMA_SOURCE_DMAMUX_ALWAYS1 => 55
  | DMA_SOURCE_DMAMUX_ALWAYS2 => 56
  | DMA_SOURCE_DMAMUX_ALWAYS3 => 57
  | DMA_SOURCE_DMAMUX_ALWAYS4 => 58
  | DMA_SOURCE_DMAMUX_ALWAYS5 => 59
  | DMA_SOURCE_DMAMUX_ALWAYS6 => 60
  | DMA_SOURCE_DMAMUX_ALWAYS7 => 61
  | DMA_SOURCE_DMAMUX_ALWAYS8 => 62
  | DMA_SOURCE_DMAMUX_ALWAYS9 => 63
  end.

(** Every enumerator, in the order of the source. *)
Definition dma_sources : list dma_source_t := [DMA_SOURCE_DISABLED; DMA_SOURCE_RESERVED1; DMA_SOURCE_UART0_RX; DMA_SOURCE_UART0_TX; DMA_SOURCE_UART1_RX; DMA_SOURCE_UART1_TX; DMA_SOURCE_UART2_RX; DMA_SOURCE_UART2_TX; DMA_SOURCE_UART3_RX; DMA_SOURCE_UART3_TX; DMA_SOURCE_UART4_RX; DMA_SOURCE_UART4_TX; DMA_SOURCE_RESERVED12; DMA_SOURCE_RESERVED13; DMA_SOURCE_I2S0_RX; DMA_SOURCE_I2S0_TX; DMA_SOURCE_SPI0_RX; DMA_SOURCE_SPI0_TX; DMA_SOURCE_SPI1_RX; DMA_SOURCE_SPI1_TX; DMA_SOURCE_SPI2_RX; DMA_SOURCE_SPI2_TX; DMA_SOURCE_I2C0; DMA_SOURCE_I2C1; DMA_SOURCE_FTM0CH0; DMA_SOURCE_FTM0CH1; DMA_SOURCE_FTM0CH2; DMA_SOURCE_FTM0CH3; DMA_SOURCE_FTM0CH4; DMA_SOURCE_FTM0CH5; DMA_SOURCE_FTM0CH6; DMA_SOURCE_FTM0CH7; DMA_SOURCE_FTM1CH0; DMA_SOURCE_FTM1CH1; DMA_SOURCE_FTM2CH0; DMA_SOURCE_FTM2CH1; DMA_SOURCE_IEEE1588_TIMER0; DMA_SOURCE_IEEE1588_TIMER1; DMA_SOURCE_IEEE1588_TIMER2; DMA_SOURCE_IEEE1588_TIMER3; DMA_SOURCE_ADC0; DMA_SOURCE_ADC1; DMA_SOURCE_CMP0; DMA_SOURCE_CMP1; DMA_SOURCE_CMP2; DMA_SOURCE_DAC0; DMA_SOURCE_RESERVED46; DMA_SOURCE_CMT; DMA_SOURCE_PDB; DMA_SOURCE_PORT_A; DMA_SOURCE_PORT_B; DMA_SOURCE_PORT_C; DMA_SOURCE_PORT_D; DMA_SOURCE_PORT_E; DMA_SOURCE_DMAMUX_ALWAYS0; DMA_SOURCE_DMAMUX_ALWAYS1; DMA_SOURCE_DMAMUX_ALWAYS2; DMA_SOURCE_DMAMUX_ALWAYS3; DMA_SOURCE_DMAMUX_ALWAYS4; DMA_SOURCE_DMAMUX_ALWAYS5; DMA_SOURCE_DMAMUX_ALWAYS6; DMA_SOURCE_DMAMUX_ALWAYS7; DMA_SOURCE_DMAMUX_ALWAYS8; DMA_SOURCE_DMAMUX_ALWAYS9].

(** The enumerator of a source number, if any. *)
Definition dma_source_of_num (n : Z) : option dma_source_t :=
  if Z.leb 0 n then dma_sources !! Z.to_nat n else None.

(** [DMA_NUMOF]: the DMA channels. *)
Definition DMA_NUMOF : nat := 16.

(** ** The LPTMR0 clock (lines 193-241) *)

Definition LPTIMER_CLKSRC_MCGIRCLK : Z := 0.
Definition LPTIMER_CLKSRC_LPO : Z := 1.
Definition LPTIMER_CLKSRC_ERCLK32K : Z := 2.
Definition LPTIMER_CLKSRC_OSCERCLK : Z := 3.

(** [LPTIMER_CLKSRC]: the board's choice, by default the 32768 Hz RTC clock. *)
Definition LPTIMER_CLKSRC (board : option Z) : Z := default LPTIMER_CLKSRC_ERCLK32K board.

(** [(LPTIMER_CLK_PRESCALE, LPTIMER_SPEED)] chosen for a clock source. *)
Definition lptimer_clock (clksrc : Z) : Z * Z :=
  if Z.eqb clksrc LPTIMER_CLKSRC_MCGIRCLK then (1, 1000000)
  else if Z.eqb clksrc LPTIMER_CLKSRC_OSCERCLK then (1, 1000000)
  else if Z.eqb clksrc LPTIMER_CLKSRC_ERCLK32K then (0, 32768)
  else (0, 1000).

(** The rates of the clock sources, from the comments of lines 200-202
    (the rate of OSCERCLK, the radio's clock output, is not given). *)
Definition lptimer_source_hz (clksrc : Z) : option Z :=
  if Z.eqb clksrc LPTIMER_CLKSRC_MCGIRCLK then Some 4000000
  else if Z.eqb clksrc LPTIMER_CLKSRC_LPO then Some 1000
  else if Z.eqb clksrc LPTIMER_CLKSRC_ERCLK32K then Some 32768
  else None.

(** The divider of the LPTMR prescaler: [PRESCALE = p] divides by
    [2^(p+1)]; a prescale of 0 is used with the prescaler bypassed. *)
Definition lptimer_divider (prescale : Z) : Z := if Z.eqb prescale 0 then 1 else 2 ^ (prescale + 1).

(** The LPTMR clock gate is bit 0 of [SIM->SCGC5] (MK60D10.h). *)
Definition SIM_SCGC5_LPTIMER_SHIFT : Z := 0.

(** ** Pin functions and clock gates (lines 82-110) *)

Definition PIN_MUX_FUNCTION_ANALOG : Z := 0.
Definition PIN_MUX_FUNCTION_GPIO : Z := 1.

(** The [IRQC] codes of [PORTx->PCR]: 0b1001, 0b1010, 0b1011. *)
Definition PIN_INTERRUPT_RISING : Z := 9.
Definition PIN_INTERRUPT_FALLING : Z := 10.
Definition PIN_INTERRUPT_EDGE : Z := 11.

(** The clock gate macros, each a [BITBAND_REG32] lvalue. *)
Inductive clock_gate :=
  | PORTA_CLOCK_GATE | PORTB_CLOCK_GATE | PORTC_CLOCK_GATE | PORTD_CLOCK_GATE | PORTE_CLOCK_GATE
  | DMA_CLOCK_GATE | DMAMUX_CLOCK_GATE | LPTIMER_CLOCK_GATE.

(** The [SIM] register and bit behind each gate ([SIM->SCGC5] at
    0x40048038, [SCGC6] at 0x4004803C, [SCGC7] at 0x40048040 and the
    [SIM_SCGCn_*_SHIFT] values of MK60D10.h). *)
Definition clock_gate_reg (g : clock_gate) : Z * Z :=
  match g with
  | PORTA_CLOCK_GATE => (1074036792, 9)
  | PORTB_CLOCK_GATE => (1074036792, 10)
  | PORTC_CLOCK_GATE => (1074036792, 11)
  | PORTD_CLOCK_GATE => (1074036792, 12)
  | PORTE_CLOCK_GATE => (1074036792, 13)
  | DMA_CLOCK_GATE => (1074036800, 1)
  | DMAMUX_CLOCK_GATE => (1074036796, 1)
  | LPTIMER_CLOCK_GATE => (1074036792, SIM_SCGC5_LPTIMER_SHIFT)
  end.

(** [PORTA_CLOCK_GATE = v] and the like, and reading a gate. *)
Definition clock_gate_write (m : memory) (g : clock_gate) (v : Z) : memory :=
  BITBAND_VAR_write m (clock_gate_reg g).1 (clock_gate_reg g).2 v.
Definition clock_gate_read (m : memory) (g : clock_gate) : Z :=
  BITBAND_VAR_read m (clock_gate_reg g).1 (clock_gate_reg g).2.

(** [LPTIMER_CLKEN()] / [LPTIMER_CLKDIS()] (lines 196-197). *)
Definition LPTIMER_CLKEN (m : memory) : memory := clock_gate_write m LPTIMER_CLOCK_GATE 1.
Definition LPTIMER_CLKDIS (m : memory) : memory := clock_gate_write m LPTIMER_CLOCK_GATE 0.

(** ** Revision and Cortex-M configuration (lines 32-72) *)

(** [K60_EXPECTED_CPUID] for silicon revision [K60_CPU_REV]; [None]: the
    [#error] of an unknown revision. *)
Definition K60_EXPECTED_CPUID (rev : nat) : option Z :=
  match rev with 2%nat => Some 1091551809 | 1%nat => Some 1091551808 | _ => None end.

(** The fields of the Cortex-M [CPUID] register. *)
Definition cpuid_implementer (id : Z) : Z := field_get id 24 8.
Definition cpuid_partno (id : Z) : Z := field_get id 4 12.
Definition cpuid_revision (id : Z) : Z := field_get id 0 4.

(** [LPTIMER_CNR_NEEDS_LATCHING] for a revision (lines 228-240). *)
Definition LPTIMER_CNR_NEEDS_LATCHING (rev : nat) : option bool :=
  match rev with 1%nat => Some false | 2%nat => Some true | _ => None end.

(** [CPUID_ID_LEN] / [CPUID_ID_PTR] (lines 78-79): the unique id is read
    as 16 bytes from [SIM->UIDH] (0x40048054); [SIM->UIDH], [UIDMH],
    [UIDML] and [UIDL] are the four words from there (MK60D10.h). *)
Definition CPUID_ID_LEN : Z := 16.
Definition CPUID_ID_PTR : Z := 1074036820.
Definition SIM_UID_regs : list Z := [1074036820; 1074036824; 1074036828; 1074036832].

(** The bytes [((uint8_t * ) CPUID_ID_PTR)[0 .. CPUID_ID_LEN - 1]]. *)
Definition cpuid_id (m : memory) : list Z :=
  map (fun i => m (CPUID_ID_PTR + Z.of_nat i)) (seq 0 (Z.to_nat CPUID_ID_LEN)).

(** [LPTIMER_DEV] (LPTMR0 at 0x40040000), [LPTIMER_IRQ_PRIO] and
    [LPTIMER_IRQ_CHAN] ([LPTMR0_IRQn] = 85 in MK60D10.h), lines 197 and
    222-226. *)
Definition LPTIMER_DEV : Z := 1074003968.
Definition LPTIMER_IRQ_PRIO : Z := 1.
Definition LPTIMER_IRQ_CHAN : nat := 85.

Definition CPU_DEFAULT_IRQ_PRIO : Z := 1.
Definition CPU_IRQ_NUMOF : nat := 104.

(** ** The arithmetic of the macro *)

Lemma land_high_nibble (a : Z) : 0 <= a < 2 ^ 32 -> Z.land a 4026531840 = a / 2 ^ 28 * 2 ^ 28.
Proof.
  intros Ha. change 4026531840 with (Z.ldiff (Z.ones 32) (Z.ones 28)).
  assert (Z.land a (Z.ldiff (Z.ones 32) (Z.ones 28)) = Z.ldiff (Z.land a (Z.ones 32)) (Z.ones 28)) as ->.
  { apply Z.bits_inj'. intros i Hi. rewrite Z.land_spec, !Z.ldiff_spec, Z.land_spec.
    destruct (Z.testbit a i), (Z.testbit (Z.ones 32) i), (Z.testbit (Z.ones 28) i); reflexivity. }
  rewrite Z.land_ones, Z.mod_small, Z.ldiff_ones_r, Z.shiftl_mul_pow2, Z.shiftr_div_pow2 by lia.
  reflexivity.
Qed.

Lemma land_low_20 (a : Z) : Z.land a 1048575 = a mod 2 ^ 20.
Proof. change 1048575 with (Z.ones 20). apply Z.land_ones. lia. Qed.

(** An address of a bit-band region: bits 20 to 27 are clear. *)
Lemma bitband_region_split (a : Z) :
  in_bitband_region a = true ->
  0 <= a < 2 ^ 32 /\ a / 2 ^ 28 * 2 ^ 28 + a mod 2 ^ 20 = a /\ (a / 2 ^ 28 = 2 \/ a / 2 ^ 28 = 4).
Proof.
  unfold in_bitband_region. intros H.
  apply orb_true_iff in H as [H|H]; apply andb_true_iff in H as [H1 H2];
    apply Z.leb_le in H1; apply Z.ltb_lt in H2; Z.div_mod_to_equations; lia.
Qed.

(** The alias of bit [bit] of the register at [a]. *)
Lemma BITBAND_ADDR_region (a bit : Z) :
  in_bitband_region a = true -> 0 <= bit < 32 ->
  BITBAND_ADDR a bit = a / 2 ^ 28 * 2 ^ 28 + 33554432 + a mod 2 ^ 20 * 32 + bit * 4.
Proof.
  intros Hr Hb. destruct (bitband_region_split a Hr) as (Ha & _ & _).
  unfold BITBAND_ADDR. rewrite (u32_id a) by (unfold fits; lia).
  rewrite land_high_nibble, land_low_20, !Z.shiftl_mul_pow2 by lia.
  apply u32_id. unfold fits. Z.div_mod_to_equations. lia.
Qed.

(** The hardware decodes that alias to the byte [a + bit / 8] (the core is
    little-endian) and its bit [bit mod 8]. *)
Lemma alias_target_BITBAND_ADDR (a bit : Z) :
  in_bitband_region a = true -> 0 <= bit < 32 ->
  alias_target (BITBAND_ADDR a bit) = (a + bit / 8, bit mod 8).
Proof.
  intros Hr Hb. destruct (bitband_region_split a Hr) as (Ha & Hs & Hq).
  rewrite BITBAND_ADDR_region by done. unfold alias_target.
  rewrite land_high_nibble by (Z.div_mod_to_equations; lia).
  set (q := a / 2 ^ 28) in *. set (o := a mod 2 ^ 20) in *.
  assert (0 <= o < 2 ^ 20) as Ho by (subst o; apply Z.mod_pos_bound; lia).
  assert ((q * 2 ^ 28 + 33554432 + o * 32 + bit * 4) / 2 ^ 28 = q) as -> by (Z.div_mod_to_equations; lia).
  f_equal; Z.div_mod_to_equations; lia.
Qed.

(** A byte [a + d], [d < 4], of a region when [a] is in one lies within [a]'s 1 MB window. *)
Lemma bitband_byte_offset (a d : Z) :
  in_bitband_region a = true -> in_bitband_region (a + d) = true -> 0 <= d < 4 ->
  a mod 2 ^ 20 + d < 2 ^ 20.
Proof.
  unfold in_bitband_region. intros H H' Hd.
  apply orb_true_iff in H as [H|H]; apply andb_true_iff in H as [H1 H2];
  apply orb_true_iff in H' as [H'|H']; apply andb_true_iff in H' as [H3 H4];
    apply Z.leb_le in H1, H3; apply Z.ltb_lt in H2, H4; Z.div_mod_to_equations; lia.
Qed.

(** ** Writes through the alias *)

Lemma testbit_le_combine_cons (b : Z) (bs : list Z) (i : Z) :
  fits 8 b ->
  Z.testbit (le_combine (b :: bs)) i = if Z.ltb i 8 then Z.testbit b i else Z.testbit (le_combine bs) (i - 8).
Proof.
  intros Hb. destruct (Z.leb_spec 0 i) as [Hi|Hi];
    [|rewrite !Z.testbit_neg_r by lia; rewrite (proj2 (Z.ltb_lt _ _)) by lia; done].
  simpl. rewrite Z.lor_spec, Z.shiftl_spec by lia.
  destruct (Z.ltb_spec i 8).
  - rewrite (Z.testbit_neg_r _ (i - 8)) by lia. apply orb_false_r.
  - rewrite (testbit_fits_high 8 b i) by (done || lia). reflexivity.
Qed.

(** The memory after a store through the alias of bit [bit] of the word at
    [a]: one byte changed. *)
Lemma BITBAND_VAR_write_eq (m : memory) (a bit v : Z) :
  in_bitband_region a = true -> 0 <= bit < 32 ->
  BITBAND_VAR_write m a bit v =
    fun x => if Z.eqb x (a + bit / 8) then reg_write_bit (m (a + bit / 8)) (bit mod 8) (Z.odd v) else m x.
Proof. intros Hr Hb. unfold BITBAND_VAR_write, alias_write. by rewrite alias_target_BITBAND_ADDR. Qed.

(** C14: [BITBAND_REG32(reg, bit) = v] is the read-modify-write
    [reg = v & 1 ? reg | (1 << bit) : reg & ~(1 << bit)] of the 32-bit
    register at a word address of a bit-band region, and changes no other
    byte of memory: the single-bit writes of uart.c ([SIM->SCGCn] clock
    gates) are [reg_write_bit]. *)
Theorem bitband_write_reg32 (m : memory) (a bit v : Z) :
  in_bitband_region a = true -> a mod 4 = 0 -> 0 <= bit < 32 -> (forall x, fits 8 (m x)) ->
  word32 (BITBAND_VAR_write m a bit v) a = reg_write_bit (word32 m a) bit (Z.odd v) /\
  forall x, ~ (a <= x < a + 4) -> BITBAND_VAR_write m a bit v x = m x.
Proof.
  intros Hr Ha Hb Hm. rewrite BITBAND_VAR_write_eq by done.
  assert (forall x, fits 8 (if Z.eqb x (a + bit / 8) then reg_write_bit (m (a + bit / 8)) (bit mod 8) (Z.odd v) else m x))
    as Hm'.
  { intros x. destruct (Z.eqb x _); [apply reg_write_bit_fits; [Z.div_mod_to_equations; lia | apply Hm] | apply Hm]. }
  split.
  - apply Z.bits_inj'. intros i Hi. unfold word32.
    rewrite testbit_reg_write_bit by lia. rewrite !testbit_le_combine_cons by (apply Hm' || apply Hm).
    simpl le_combine. rewrite Z.bits_0.
    destruct (Z.ltb_spec i 8), (Z.ltb_spec (i - 8) 8), (Z.ltb_spec (i - 8 - 8) 8), (Z.ltb_spec (i - 8 - 8 - 8) 8);
      try lia;
      repeat match goal with |- context [Z.eqb ?x ?y] => destruct (Z.eqb_spec x y) end;
      rewrite ?testbit_reg_write_bit by (Z.div_mod_to_equations; lia);
      repeat match goal with |- context [Z.eqb ?x ?y] => destruct (Z.eqb_spec x y) end;
      try reflexivity; subst; try (Z.div_mod_to_equations; lia);
      try (f_equal; lia);
      try (symmetry; apply (testbit_fits_high 8); [lia | apply Hm | lia]);
      match goal with E : _ = a + bit / 8 |- _ => rewrite <- E; reflexivity end.
  - intros x Hx. destruct (Z.eqb_spec x (a + bit / 8)); [|done]. Z.div_mod_to_equations. lia.
Qed.

(** A load through one alias after a store through another: the stored
    bit when both name the same bit of the same byte, the old bit
    otherwise. *)
Lemma bitband_read_write (m : memory) (a bit a' bit' v : Z) :
  in_bitband_region a = true -> 0 <= bit < 32 -> in_bitband_region a' = true -> 0 <= bit' < 32 ->
  BITBAND_VAR_read (BITBAND_VAR_write m a bit v) a' bit' =
    if Z.eqb (a + bit / 8) (a' + bit' / 8) && Z.eqb (bit mod 8) (bit' mod 8) then Z.b2z (Z.odd v)
    else BITBAND_VAR_read m a' bit'.
Proof.
  intros Hr Hb Hr' Hb'. unfold BITBAND_VAR_read, alias_read.
  rewrite alias_target_BITBAND_ADDR, BITBAND_VAR_write_eq by done.
  destruct (Z.eqb_spec (a' + bit' / 8) (a + bit / 8)) as [E|E];
    destruct (Z.eqb_spec (a + bit / 8) (a' + bit' / 8)); try lia; simpl.
  - rewrite E, testbit_reg_write_bit by (Z.div_mod_to_equations; lia).
    destruct (Z.eqb_spec (bit' mod 8) (bit mod 8)), (Z.eqb_spec (bit mod 8) (bit' mod 8)); try lia; done.
  - done.
Qed.

#[export] Instance clock_gate_eq_dec : EqDecision clock_gate.
Proof. solve_decision. Defined.

(** The clock gate macros name pairwise different bits: setting or
    clearing one gate reads back as the low bit of the value and leaves
    every other gate as it was. *)
Lemma clock_gate_write_read (m : memory) (g g' : clock_gate) (v : Z) :
  clock_gate_read (clock_gate_write m g v) g' =
    if bool_decide (g = g') then Z.b2z (Z.odd v) else clock_gate_read m g'.
Proof.
  unfold clock_gate_read, clock_gate_write.
  rewrite bitband_read_write by (destruct g, g'; simpl; unfold SIM_SCGC5_LPTIMER_SHIFT; (reflexivity || lia)).
  destruct g, g'; reflexivity.
Qed.

(** ** The DMA request sources *)

Lemma dma_source_of_num_num (s : dma_source_t) : dma_source_of_num (dma_source_num s) = Some s.
Proof. destruct s; reflexivity. Qed.

Lemma dma_source_num_range (s : dma_source_t) : 0 <= dma_source_num s < 64.
Proof. destruct s; simpl; lia. Qed.

Lemma dma_sources_nums : dma_source_num <$> dma_sources = Z.of_nat <$> seq 0 64.
Proof. reflexivity. Qed.

#[export] Instance dma_source_eq_dec : EqDecision dma_source_t.
Proof.
  refine (fun s t => cast_if (decide (dma_source_num s = dma_source_num t))).
  - apply (inj Some). by rewrite <- !dma_source_of_num_num, e.
  - congruence.
Defined.

#[export] Instance dma_source_finite : Finite dma_source_t.
Proof.
  refine (enc_finite (fun s => Z.to_nat (dma_source_num s))
            (fun n => default DMA_SOURCE_DISABLED (dma_sources !! n)) 64 _ _ _).
  - intros s. destruct s; reflexivity.
  - intros s. pose proof (dma_source_num_range s). lia.
  - intros n Hn. rewrite <- (Nat2Z.id n) at 2. f_equal.
    destruct (lookup_lt_is_Some_2 dma_sources n) as [s Hs]; [simpl; lia|].
    rewrite Hs. simpl. pose proof (f_equal (fun l => l !! n) dma_sources_nums) as E. cbn beta in E.
    rewrite !list_lookup_fmap, Hs, lookup_seq_lt in E by lia. simpl in E. congruence.
Defined.

(** C15: [BITBAND_ADDR(addr, bit)] maps a register of a bit-band region and a
    bit number below 32 whose byte [addr + bit / 8] lies in the region too
    to a word-aligned address of the region's 32 MB alias window, which the
    core decodes back to that byte and its bit [bit mod 8]. *)
Theorem bitband_alias_roundtrip (a bit : Z) :
  in_bitband_region a = true -> in_bitband_region (a + bit / 8) = true -> 0 <= bit < 32 ->
  BITBAND_ADDR a bit mod 4 = 0 /\
  a / 2 ^ 28 * 2 ^ 28 + 33554432 <= BITBAND_ADDR a bit < a / 2 ^ 28 * 2 ^ 28 + 67108864 /\
  alias_target (BITBAND_ADDR a bit) = (a + bit / 8, bit mod 8).
Proof.
  intros Hr Hr' Hb. rewrite alias_target_BITBAND_ADDR, BITBAND_ADDR_region by done.
  assert (a mod 2 ^ 20 + bit / 8 < 2 ^ 20) by (apply bitband_byte_offset; [done|done|Z.div_mod_to_equations; lia]).
  split; [|split; [split|done]].
  - match goal with |- ?x mod 4 = 0 => replace x with ((a / 2 ^ 28 * 2 ^ 26 + 8388608 + a mod 2 ^ 20 * 8 + bit) * 4) by lia end.
    apply Z.mod_mul. lia.
  - pose proof (Z.mod_pos_bound a (2 ^ 20)). lia.
  - Z.div_mod_to_equations. lia.
Qed.

(** On an 8-bit register of a bit-band region ([BITBAND_REG8], used by
    uart.c on [S1] and [PFIFO]), a load through the alias of bit [bit < 8]
    reads that bit of the register, and a store sets or clears exactly that
    bit from the low bit of the value and changes no other byte. *)
Theorem bitband_reg8_access (m : memory) (a bit v : Z) :
  in_bitband_region a = true -> 0 <= bit < 8 ->
  BITBAND_VAR_read m a bit = Z.b2z (Z.testbit (m a) bit) /\
  BITBAND_VAR_write m a bit v a = reg_write_bit (m a) bit (Z.odd v) /\
  forall x, x <> a -> BITBAND_VAR_write m a bit v x = m x.
Proof.
  intros Hr Hb. assert (bit / 8 = 0) as H0 by (apply Z.div_small; lia).
  assert (bit mod 8 = bit) as H1 by (apply Z.mod_small; lia).
  unfold BITBAND_VAR_read, alias_read.
  rewrite alias_target_BITBAND_ADDR, BITBAND_VAR_write_eq, H0, H1, Z.add_0_r by (done || lia).
  split; [done|]. split; [by rewrite Z.eqb_refl|]. intros x Hx. by rewrite (proj2 (Z.eqb_neq x a)).
Qed.

(** The macro keeps only the low 20 bits of the offset: the first register
    past the peripheral bit-band region, [0x40100000], gets the alias of
    [0x40000000]. *)
Example bitband_addr_window_wraps :
  in_bitband_region 1074790400 = false /\ BITBAND_ADDR 1074790400 0 = BITBAND_ADDR 1073741824 0.
Proof. split; reflexivity. Qed.

(** ** The LPTMR0 clock and the revision *)

(** For each clock source of known rate, the prescale the header
    chooses divides the source's rate down to exactly [LPTIMER_SPEED]
    (4 MHz / 4 = 1 MHz, 1 kHz and 32768 Hz bypassed), and the default
    source is the 32768 Hz RTC clock. *)
Theorem lptimer_speed_matches_source (clksrc hz : Z) :
  lptimer_source_hz clksrc = Some hz ->
  hz / lptimer_divider (lptimer_clock clksrc).1 = (lptimer_clock clksrc).2 /\
  hz mod lptimer_divider (lptimer_clock clksrc).1 = 0 /\
  lptimer_clock (LPTIMER_CLKSRC None) = (0, 32768).
Proof.
  unfold lptimer_source_hz, lptimer_clock.
  destruct (Z.eqb_spec clksrc LPTIMER_CLKSRC_MCGIRCLK) as [->|];
    [intros [= <-]; split; [|split]; reflexivity|].
  destruct (Z.eqb_spec clksrc LPTIMER_CLKSRC_LPO) as [->|];
    [intros [= <-]; split; [|split]; reflexivity|].
  destruct (Z.eqb_spec clksrc LPTIMER_CLKSRC_ERCLK32K) as [->|]; [|done].
  intros [= <-]. split; [|split]; reflexivity.
Qed.

(** Both supported revisions expect an ARM (implementer 0x41) Cortex-M4
    (part 0xC24) of variant 0, revision [K60_CPU_REV - 1]; only rev. 2
    latches [CNR] before a read. *)
Example k60_expected_cpuid :
  forall rev id, K60_EXPECTED_CPUID rev = Some id ->
  cpuid_implementer id = 65 /\ cpuid_partno id = 3108 /\ cpuid_revision id = Z.of_nat rev - 1 /\
  LPTIMER_CNR_NEEDS_LATCHING rev = Some (Nat.eqb rev 2).
Proof. intros [|[|[|rev]]] id; simpl; intros [= <-]; repeat split. Qed.

(** The unique id is exactly the four [SIM->UIDx] words, byte by byte. *)
Lemma cpuid_id_words (m : memory) :
  cpuid_id m = concat (map (fun r => [m r; m (r + 1); m (r + 2); m (r + 3)]) SIM_UID_regs).
Proof. reflexivity. Qed.

(** ** Witnesses *)

(** Memory with every byte 0x00 except [UART0->PFIFO] (0x4006A010), which
    reads 0x22. *)
Definition mem_witness : memory := fun a => if Z.eqb a 1074176016 then 34 else 0.

Lemma mem_witness_bytes : forall x, fits 8 (mem_witness x).
Proof. intros x. unfold mem_witness, fits. destruct (Z.eqb x _); lia. Qed.

(** [BITBAND_REG32(SIM->SCGC4, SIM_SCGC4_UART0_SHIFT) = 1], as in
    [uart_module_enable(0)]: [SIM->SCGC4] is at 0x40048034, the gate bit 10. *)
Lemma bitband_write_reg32_witness :
  in_bitband_region 1074037812 = true /\ 1074037812 mod 4 = 0 /\ 0 <= 10 < 32 /\
  word32 (BITBAND_VAR_write mem_witness 1074037812 10 1) 1074037812 =
    reg_write_bit (word32 mem_witness 1074037812) 10 (Z.odd 1) /\
  forall x, ~ (1074037812 <= x < 1074037812 + 4) -> BITBAND_VAR_write mem_witness 1074037812 10 1 x = mem_witness x.
Proof.
  assert (in_bitband_region 1074037812 = true) as H1 by reflexivity.
  assert (1074037812 mod 4 = 0) as H2 by reflexivity.
  assert (0 <= 10 < 32) as H3 by lia.
  split; [exact H1|]. split; [exact H2|]. split; [exact H3|].
  exact (bitband_write_reg32 mem_witness 1074037812 10 1 H1 H2 H3 mem_witness_bytes).
Defined.

(** The alias of bit 25 of [SIM->SCGC4]. *)
Lemma bitband_alias_roundtrip_witness :
  in_bitband_region 1074037812 = true /\ in_bitband_region (1074037812 + 25 / 8) = true /\ 0 <= 25 < 32 /\
  BITBAND_ADDR 1074037812 25 mod 4 = 0 /\
  1074037812 / 2 ^ 28 * 2 ^ 28 + 33554432 <= BITBAND_ADDR 1074037812 25 < 1074037812 / 2 ^ 28 * 2 ^ 28 + 67108864 /\
  alias_target (BITBAND_ADDR 1074037812 25) = (1074037812 + 25 / 8, 25 mod 8).
Proof.
  assert (in_bitband_region 1074037812 = true) as H1 by reflexivity.
  assert (in_bitband_region (1074037812 + 25 / 8) = true) as H2 by reflexivity.
  assert (0 <= 25 < 32) as H3 by lia.
  split; [exact H1|]. split; [exact H2|]. split; [exact H3|].
  exact (bitband_alias_roundtrip 1074037812 25 H1 H2 H3).
Defined.

(** [BITBAND_REG8(uart_dev->PFIFO, UART_PFIFO_RXFE_SHIFT) = 1] on UART0. *)
Lemma bitband_reg8_access_witness :
  in_bitband_region 1074176016 = true /\ 0 <= 3 < 8 /\
  BITBAND_VAR_read mem_witness 1074176016 3 = Z.b2z (Z.testbit (mem_witness 1074176016) 3) /\
  BITBAND_VAR_write mem_witness 1074176016 3 1 1074176016 = reg_write_bit (mem_witness 1074176016) 3 (Z.odd 1) /\
  forall x, x <> 1074176016 -> BITBAND_VAR_write mem_witness 1074176016 3 1 x = mem_witness x.
Proof.
  assert (in_bitband_region 1074176016 = true) as H1 by reflexivity.
  assert (0 <= 3 < 8) as H2 by lia.
  split; [exact H1|]. split; [exact H2|].
  exact (bitband_reg8_access mem_witness 1074176016 3 1 H1 H2).
Defined.

Lemma lptimer_speed_matches_source_witness :
  lptimer_source_hz LPTIMER_CLKSRC_MCGIRCLK = Some 4000000 /\
  4000000 / lptimer_divider (lptimer_clock LPTIMER_CLKSRC_MCGIRCLK).1 = (lptimer_clock LPTIMER_CLKSRC_MCGIRCLK).2 /\
  4000000 mod lptimer_divider (lptimer_clock LPTIMER_CLKSRC_MCGIRCLK).1 = 0 /\
  lptimer_clock (LPTIMER_CLKSRC None) = (0, 32768).
Proof.
  assert (lptimer_source_hz LPTIMER_CLKSRC_MCGIRCLK = Some 4000000) as H by reflexivity.
  split; [exact H|]. exact (lptimer_speed_matches_source LPTIMER_CLKSRC_MCGIRCLK 4000000 H).
Defined.

End CpuConf.

