(* ===== verification/Irq.v ===== *)
(** * Interrupt masking: [src/cpu/arm/k60/include/irq.h]

    The Cortex-M4 special registers PRIMASK (only its bit 0, PM, is
    implemented: writing a value keeps bit 0) and IPSR (the number of the
    active exception, 0 in thread mode), and the primitives [irq_disable],
    [irq_enable], [irq_restore], [irq_is_in] and the critical-region macros
    built on them.  A critical region restores the PRIMASK it found on entry,
    whatever its body does to the mask, so critical regions nest. *)

From stdpp Require Import base.
From Stdlib Require Import ZArith Lia.
From S2P Require Import Prelude.

Module Irq.

(** The two special registers the primitives touch. *)
Record cpu := mk_cpu {
  primask : bool;   (** PRIMASK.PM: true = interrupts masked *)
  ipsr : Z          (** IPSR: active exception number *)
}.

(** [__get_PRIMASK()]: the 32-bit register value. *)
Definition get_primask (c : cpu) : Z := Z.b2z (primask c).

(** [__set_PRIMASK(v)]: only bit 0 is writable. *)
Definition set_primask (v : Z) (c : cpu) : cpu := mk_cpu (Z.testbit v 0) (ipsr c).

(** [irq_disable]: read the mask, then [__disable_irq()] (CPSID i). *)
Definition irq_disable (c : cpu) : Z * cpu :=
  (get_primask c, mk_cpu true (ipsr c)).

(** [irq_enable]: [__enable_irq()] (CPSIE i). *)
Definition irq_enable (c : cpu) : cpu := mk_cpu false (ipsr c).

(** [irq_restore(state)]: [__set_PRIMASK(state)]. *)
Definition irq_restore (state : Z) (c : cpu) : cpu := set_primask state c.

(** [irq_is_in]: [__get_IPSR() & 0xFF]. *)
Definition irq_is_in (c : cpu) : Z := Z.land (ipsr c) 255.

(** Whether the core takes a pending interrupt. *)
Definition irqs_enabled (c : cpu) : bool := negb (primask c).

(** [K60_ENTER_CRITICAL_REGION(); body; K60_LEAVE_CRITICAL_REGION();]
    for a body that runs as a state transformer of the core. *)
Definition critical_region {A} (body : cpu -> A * cpu) (c : cpu) : A * cpu :=
  let '(mask, c1) := irq_disable c in
  let '(r, c2) := body c1 in
  (r, irq_restore mask c2).

(** ** Properties *)

(** The mask read by [irq_disable] restores exactly the PRIMASK it read. *)
Lemma set_get_primask (c c' : cpu) :
  set_primask (get_primask c) c' = mk_cpu (primask c) (ipsr c').
Proof. destruct c as [[] ?]; reflexivity. Qed.

(** C26: A critical region restores the interrupt mask it found on entry
    (whatever the body does to PRIMASK), leaves the exception number as
    the body left it, and runs its body with interrupts masked. *)
Theorem critical_region_restores {A} (body : cpu -> A * cpu) (c : cpu) :
  primask (snd (critical_region body c)) = primask c /\
  ipsr (snd (critical_region body c)) = ipsr (snd (body (mk_cpu true (ipsr c)))) /\
  irqs_enabled (snd (irq_disable c)) = false.
Proof.
  unfold critical_region, irq_disable, irq_restore.
  destruct (body _) as [r c2]. cbn. destruct c as [pm n]. destruct pm; repeat split.
Qed.

(** [irq_is_in] is an 8-bit exception number, zero in thread mode. *)
Lemma irq_is_in_bounds (c : cpu) :
  0 <= ipsr c -> fits 8 (irq_is_in c) /\ (ipsr c = 0 -> irq_is_in c = 0).
Proof.
  intros Hn. unfold irq_is_in. split.
  - change 255 with (Z.ones 8). rewrite Z.land_ones by lia. apply wrap_fits. lia.
  - intros ->. reflexivity.
Qed.

Lemma irq_is_in_bounds_witness :
  0 <= ipsr (mk_cpu false 0) /\ fits 8 (irq_is_in (mk_cpu false 0)) /\
  (ipsr (mk_cpu false 0) = 0 -> irq_is_in (mk_cpu false 0) = 0).
Proof.
  assert (0 <= ipsr (mk_cpu false 0)) as H0 by (simpl; lia).
  split; [exact H0|]. exact (irq_is_in_bounds (mk_cpu false 0) H0).
Defined.

End Irq.
