(* ===== verification/Sync.v ===== *)
(** * The lock-free inhibit counters: [exclusive_increment] / [exclusive_decrement]

    [llwu.h] (lines 151-161) implements [LLWU_INHIBIT_*] and
    [LLWU_UNINHIBIT_*] with [exclusive_increment] and [exclusive_decrement]
    on the [volatile uint32_t] counters.  Their implementation
    (synchronization.c) is not in [src/]; following the spec (4.1) and the
    comment of llwu.h, each is a retry loop:

      do { v = LDREX(p); v = v +/- 1; } while (STREX(v, p) != 0);

    This file models the Cortex-M local exclusive monitor ([xmem]), one
    foreground call of the loop as a program counter ([xpc]) stepped by
    [ex_step], and interrupt handlers that preempt it ([Irq] events); on
    Cortex-M an exception entry or return clears the local monitor.

    Proved: every interleaving is simulated by an abstract counter that is
    updated atomically ([run_simulation], a forward simulation in the style
    of the step diagrams of [Preempt]); hence no update is lost
    ([no_lost_update]);
    a call that runs three instructions without an interrupt completes
    ([ex_three_steps_done]); and a call in interrupt context (nothing
    preempts it) completes in one pass with the atomic result
    ([ex_isr_atomic]), which justifies treating each handler's update as
    one event. *)

From stdpp Require Import base list.
From Stdlib Require Import ZArith Lia.
From S2P Require Import Prelude.

Module Sync.

(** The two operations of synchronization.h. *)
Inductive ex_op := ExInc | ExDec.

#[global] Instance ex_op_eq_dec : EqDecision ex_op.
Proof. solve_decision. Defined.

Definition op_delta (o : ex_op) : Z := match o with ExInc => 1 | ExDec => -1 end.

(** The abstract effect of one call on the [uint32_t] counter. *)
Definition atomic_update (o : ex_op) (v : Z) : Z := u32 (v + op_delta o).

(** The counter word and the local exclusive monitor. *)
Record xmem := mk_xmem { word : Z; monitor : bool }.

(** [LDREX]: read the word and open the monitor. *)
Definition ldrex (m : xmem) : Z * xmem := (word m, mk_xmem (word m) true).

(** [STREX]: store only while the monitor is open; returns 0 on success
    and 1 on failure (then memory is unchanged).  The monitor closes. *)
Definition strex (v : Z) (m : xmem) : Z * xmem :=
  if monitor m then (0, mk_xmem v false) else (1, mk_xmem (word m) false).

(** Where one call of the loop is. *)
Inductive xpc :=
  | XLoad            (** at the [LDREX] of an iteration *)
  | XStore (nv : Z)  (** at the [STREX], with the computed new value *)
  | XDone.           (** returned *)

(** One instruction of the loop (the increment is fused with the load:
    it only touches a register). *)
Definition ex_step (o : ex_op) (pc : xpc) (m : xmem) : xpc * xmem :=
  match pc with
  | XLoad => let '(v, m') := ldrex m in (XStore (u32 (v + op_delta o)), m')
  | XStore nv =>
      let '(r, m') := strex nv m in
      if Z.eqb r 0 then (XDone, m') else (XLoad, m')
  | XDone => (XDone, m)
  end.

(** An interrupt handler runs to completion one counter operation (of its
    own, see [ex_isr_atomic]); exception entry and return clear the
    monitor. *)
Definition irq_update (o : ex_op) (m : xmem) : xmem :=
  mk_xmem (atomic_update o (word m)) false.

(** An interleaving: the foreground executes one instruction, or an
    interrupt handler runs. *)
Inductive sched_ev := Fg | Irq (o : ex_op).

Definition sched_step (o : ex_op) (st : xpc * xmem) (e : sched_ev) : xpc * xmem :=
  match e with
  | Fg => ex_step o st.1 st.2
  | Irq o' => (st.1, irq_update o' st.2)
  end.

Definition run (o : ex_op) (sched : list sched_ev) (st : xpc * xmem) : xpc * xmem :=
  foldl (sched_step o) st sched.

(** The net change the interrupt handlers of a schedule make. *)
Definition irq_delta (sched : list sched_ev) : Z :=
  sumZ (map (fun e => match e with Fg => 0 | Irq o => op_delta o end) sched).

(** ** The abstract, atomic counter *)

(** The abstract state: the counter value and whether the foreground
    call is still pending.  The foreground's update takes effect at once,
    at the successful [STREX] (its linearisation point). *)
Record astate := mk_astate { aval : Z; apending : bool }.

Inductive astep (o : ex_op) : astate -> sched_ev -> astate -> Prop :=
  | AFgStutter a : astep o a Fg a
  | AFgCommit v : astep o (mk_astate v true) Fg (mk_astate (atomic_update o v) false)
  | AIrq a o' : astep o a (Irq o') (mk_astate (atomic_update o' (aval a)) (apending a)).

Inductive asteps (o : ex_op) : astate -> list sched_ev -> astate -> Prop :=
  | ASNil a : asteps o a [] a
  | ASCons a e a' l a'' : astep o a e a' -> asteps o a' l a'' -> asteps o a (e :: l) a''.

(** The simulation relation: the word is the abstract value; a pending
    call with a computed value and an open monitor has computed it from
    the current word. *)
Definition xrel (o : ex_op) (st : xpc * xmem) (a : astate) : Prop :=
  word st.2 = aval a /\
  match st.1 with
  | XLoad => apending a = true
  | XStore nv => apending a = true /\ (monitor st.2 = true -> nv = atomic_update o (word st.2))
  | XDone => apending a = false
  end.

(** ** Properties *)

(** Every step of the interleaving is matched by one abstract step. *)
Lemma sched_step_sim (o : ex_op) (st : xpc * xmem) (a : astate) (e : sched_ev) :
  xrel o st a -> exists a', astep o a e a' /\ xrel o (sched_step o st e) a'.
Proof.
  destruct st as [pc [w mon]], a as [v p]. unfold xrel; simpl. intros [-> Hpc].
  destruct e as [|o'].
  - destruct pc as [|nv|]; simpl.
    + exists (mk_astate v p). split; [constructor | simpl; done].
    + destruct Hpc as [-> Hnv]. unfold strex; simpl. destruct mon; simpl.
      * exists (mk_astate (atomic_update o v) false). rewrite (Hnv eq_refl).
        split; [constructor | done].
      * exists (mk_astate v true). split; [constructor | simpl; done].
    + exists (mk_astate v p). split; [constructor | done].
  - exists (mk_astate (atomic_update o' v) p). split; [constructor|].
    destruct pc; simpl; intuition congruence.
Qed.

(** The interleaving refines the atomic counter: every run of the loop
    among interrupt handlers is a run of the abstract counter. *)
Lemma run_simulation (o : ex_op) (sched : list sched_ev) (st : xpc * xmem) (a : astate) :
  xrel o st a -> exists a', asteps o a sched a' /\ xrel o (run o sched st) a'.
Proof.
  revert st a. induction sched as [|e sched IH]; intros st a Hrel.
  - exists a. split; [constructor | done].
  - destruct (sched_step_sim o st a e Hrel) as (a1 & Hstep & Hrel1).
    destruct (IH _ _ Hrel1) as (a2 & Hsteps & Hrel2).
    exists a2. split; [econstructor; eauto | done].
Qed.

(** A completed call stays completed. *)
Lemma asteps_done_stays (o : ex_op) (a a' : astate) (sched : list sched_ev) :
  asteps o a sched a' -> apending a = false -> apending a' = false.
Proof. induction 1 as [|a e a1 l a2 Hs _ IH]; [done|]. inversion Hs; subst; simpl in *; auto. Qed.

Lemma irq_delta_cons (e : sched_ev) (l : list sched_ev) :
  irq_delta (e :: l) = match e with Fg => 0 | Irq o => op_delta o end + irq_delta l.
Proof. reflexivity. Qed.

(** What an abstract run does to a 32-bit value: the handlers' updates,
    plus the foreground's if it committed during the run. *)
Lemma asteps_value (o : ex_op) (a a' : astate) (sched : list sched_ev) :
  asteps o a sched a' -> fits 32 (aval a) ->
  aval a' = u32 (aval a + irq_delta sched +
                 (if apending a && negb (apending a') then op_delta o else 0)).
Proof.
  induction 1 as [[v p]|a e a1 l a2 Hs Hl IH]; intros Hfit.
  - simpl. rewrite andb_negb_r, !Z.add_0_r. symmetry. by apply u32_id.
  - rewrite irq_delta_cons. inversion Hs as [a0|v|a0 o']; subst; simpl in *.
    + rewrite (IH Hfit); f_equal; lia.
    + rewrite (asteps_done_stays _ _ _ _ Hl eq_refl) in *. simpl in *.
      rewrite (IH (u32_fits _)). unfold atomic_update. u32_absorb. f_equal. lia.
    + rewrite (IH (u32_fits _)). unfold atomic_update. u32_absorb. f_equal. lia.
Qed.

(** C8: No update is lost: after any interleaving of one foreground call with
    interrupt handlers, the counter holds its initial value plus every
    handler's change plus the foreground's change once it has returned
    (modulo 2^32, the width of the counter). *)
Theorem no_lost_update (o : ex_op) (sched : list sched_ev) (m : xmem) :
  fits 32 (word m) ->
  let st := run o sched (XLoad, m) in
  word st.2 = u32 (word m + irq_delta sched + (if st.1 is XDone then op_delta o else 0)).
Proof.
  intros Hfit st.
  destruct (run_simulation o sched (XLoad, m) (mk_astate (word m) true)) as (a' & Hs & [Hw Hpc]);
    [split; done|].
  fold st in Hw, Hpc. rewrite Hw, (asteps_value _ _ _ _ Hs Hfit). simpl.
  destruct st.1; [rewrite Hpc | destruct Hpc as [Hpc _]; rewrite Hpc | rewrite Hpc]; done.
Qed.

(** A returned call stays returned, whatever runs afterwards. *)
Lemma run_done (o : ex_op) (sched : list sched_ev) (m : xmem) :
  (run o sched (XDone, m)).1 = XDone.
Proof.
  unfold run. revert m. induction sched as [|[|o'] sched IH]; intros m; simpl; [done | apply IH | apply IH].
Qed.

(** Three foreground instructions in a row end any iteration of the loop. *)
Lemma ex_three_steps_done (o : ex_op) (st : xpc * xmem) :
  (run o [Fg; Fg; Fg] st).1 = XDone.
Proof. destruct st as [[|nv|] [w []]]; reflexivity. Qed.

(** C9: Termination under fairness: the call returns in every interleaving in
    which the foreground once executes three instructions without being
    interrupted, however many handlers ran before or run after. *)
Theorem ex_terminates (o : ex_op) (s1 s2 : list sched_ev) (st : xpc * xmem) :
  (run o (s1 ++ [Fg; Fg; Fg] ++ s2) st).1 = XDone.
Proof.
  unfold run. rewrite !foldl_app. fold (run o s1 st).
  destruct (run o s1 st) as [pc m] eqn:E.
  pose proof (ex_three_steps_done o (pc, m)) as H3. unfold run in H3.
  destruct (foldl (sched_step o) (pc, m) [Fg; Fg; Fg]) as [pc' m'].
  simpl in H3. subst pc'. apply run_done.
Qed.

(** In interrupt context nothing preempts the loop (at its priority): it
    returns after one iteration, with the atomic result and the monitor
    closed. *)
Theorem ex_isr_atomic (o : ex_op) (m : xmem) :
  run o [Fg; Fg] (XLoad, m) = (XDone, mk_xmem (atomic_update o (word m)) false).
Proof. reflexivity. Qed.

(** ** Witnesses *)

(** A call of [exclusive_increment] on 5, preempted after its [LDREX] by
    a handler's increment: the store fails, the loop retries, and the
    counter ends at 7. *)
Lemma no_lost_update_witness :
  fits 32 (word (mk_xmem 5 false)) /\
  word (run ExInc [Fg; Irq ExInc; Fg; Fg; Fg] (XLoad, mk_xmem 5 false)).2 =
    u32 (word (mk_xmem 5 false) + irq_delta [Fg; Irq ExInc; Fg; Fg; Fg] +
         (if (run ExInc [Fg; Irq ExInc; Fg; Fg; Fg] (XLoad, mk_xmem 5 false)).1 is XDone
          then op_delta ExInc else 0)).
Proof.
  assert (fits 32 (word (mk_xmem 5 false))) as Hf by (unfold fits; simpl; lia).
  split; [exact Hf|]. exact (no_lost_update ExInc [Fg; Irq ExInc; Fg; Fg; Fg] (mk_xmem 5 false) Hf).
Defined.

End Sync.
