(* ===== verification/Llwu.v ===== *)
(** * The wake-up controller (LLWU): inhibit counters, sleep policy, registries

    [src/cpu/arm/k60/include/llwu.h] declares the three inhibit counters
    [llwu_inhibit_{stop,vlps,lls}_sema], the wake-up module, pin and edge
    enumerations with the register layout constants, the controller record
    [llwu_control_t] and its initialiser [LLWU_CONTROL], and the operations
    of llwu.c (not in [src/], modelled from the spec, sections 4.2-4.3).

    - [InhibitCounters] / [InhibitLaws]: the interface the UART driver uses
      ([LLWU_INHIBIT_*], [LLWU_UNINHIBIT_*]); [llwu_state] implements it with
      [Sync.atomic_update], the effect of one [exclusive_increment] /
      [exclusive_decrement] call.
    - [llwu_choose] / [llwu_sleep]: the power mode [llwu_sleep] enters, and
      its refinement of the specification "the deepest mode no counter and
      no controller forbids" ([llwu_choose_spec], [llwu_sleep_deepest]).
    - The controller registry: a heap of [llwu_control_t] nodes linked by
      their [next] fields, [llwu_register] (prepend) and [llwu_set_allow];
      the chain invariant, and the vote computed by walking it, which on a
      well-formed chain is the conjunction of the chain's flags
      ([chain_allow]); registering a node twice makes the walk cycle
      ([llwu_register_twice_cycles]). *)

From stdpp Require Import base list gmap.
From Stdlib Require Import ZArith Lia.
From S2P Require Import Prelude Irq Sync.

Module Llwu.

(** ** Sleep modes and inhibit depths *)

(** The modes [llwu_sleep] can enter, shallowest first
    ([power_mode_wait], [_stop], [_vlps], [_lls]). *)
Inductive power_mode := PmWait | PmStop | PmVlps | PmLls.

#[global] Instance power_mode_eq_dec : EqDecision power_mode.
Proof. solve_decision. Defined.

Definition mode_rank (m : power_mode) : nat :=
  match m with PmWait => 0 | PmStop => 1 | PmVlps => 2 | PmLls => 3 end.

(** The three counters of llwu.h (lines 52-54). *)
Inductive inhibit_depth := InhStop | InhVlps | InhLls.

#[global] Instance inhibit_depth_eq_dec : EqDecision inhibit_depth.
Proof. solve_decision. Defined.

(** The shallowest mode a nonzero counter forbids. *)
Definition depth_mode (d : inhibit_depth) : power_mode :=
  match d with InhStop => PmStop | InhVlps => PmVlps | InhLls => PmLls end.

(** ** The inhibit-counter interface *)

(** What the inhibit macros of llwu.h (lines 156-161) offer a client. *)
Class InhibitCounters (S : Type) := {
  sema : inhibit_depth -> S -> Z;
  inhibit : inhibit_depth -> S -> S;    (** [LLWU_INHIBIT_*()] *)
  uninhibit : inhibit_depth -> S -> S   (** [LLWU_UNINHIBIT_*()] *)
}.

(** Their laws: one atomic 32-bit increment or decrement of one counter. *)
Class InhibitLaws (S : Type) `{!InhibitCounters S} := {
  sema_inhibit : forall d s, sema d (inhibit d s) = u32 (sema d s + 1);
  sema_uninhibit : forall d s, sema d (uninhibit d s) = u32 (sema d s - 1);
  sema_inhibit_other : forall d d' s, d <> d' -> sema d' (inhibit d s) = sema d' s;
  sema_uninhibit_other : forall d d' s, d <> d' -> sema d' (uninhibit d s) = sema d' s
}.

(** ** The counters and the controller heap *)

(** [llwu_control_t] (llwu.h lines 117-120): [next] is a pointer (an
    address, [None] for NULL) and [allow_llwu] a [char]. *)
Record llwu_control := mk_control { next : option nat; allow_llwu : Z }.

(** [LLWU_CONTROL(name)] (llwu.h line 125): [{ NULL, 1 }]. *)
Definition llwu_control_init : llwu_control := mk_control None 1.

Record llwu_state := mk_llwu {
  stop_sema : Z; vlps_sema : Z; lls_sema : Z;
  controls : gmap nat llwu_control;  (** every [llwu_control_t], by address *)
  ctl_head : option nat              (** the head of the registered list *)
}.

Definition get_sema (d : inhibit_depth) (s : llwu_state) : Z :=
  match d with InhStop => stop_sema s | InhVlps => vlps_sema s | InhLls => lls_sema s end.

Definition set_sema (d : inhibit_depth) (v : Z) (s : llwu_state) : llwu_state :=
  match d with
  | InhStop => mk_llwu v (vlps_sema s) (lls_sema s) (controls s) (ctl_head s)
  | InhVlps => mk_llwu (stop_sema s) v (lls_sema s) (controls s) (ctl_head s)
  | InhLls => mk_llwu (stop_sema s) (vlps_sema s) v (controls s) (ctl_head s)
  end.

(** [exclusive_increment(&llwu_inhibit_<d>_sema)] and its decrement. *)
Definition llwu_inhibit (d : inhibit_depth) (s : llwu_state) : llwu_state :=
  set_sema d (Sync.atomic_update Sync.ExInc (get_sema d s)) s.
Definition llwu_uninhibit (d : inhibit_depth) (s : llwu_state) : llwu_state :=
  set_sema d (Sync.atomic_update Sync.ExDec (get_sema d s)) s.

#[global] Instance llwu_inhibit_counters : InhibitCounters llwu_state := {
  sema := get_sema; inhibit := llwu_inhibit; uninhibit := llwu_uninhibit }.

(** The counters are zero-initialised and stay 32-bit values. *)
Definition semas_fit (s : llwu_state) : Prop := forall d, fits 32 (get_sema d s).

Lemma get_set_sema (d d' : inhibit_depth) (v : Z) (s : llwu_state) :
  get_sema d' (set_sema d v s) = if decide (d = d') then v else get_sema d' s.
Proof. destruct d, d'; reflexivity. Qed.

(** ** The sleep policy of [llwu_sleep] *)

(** The decision of [llwu_sleep], taken with interrupts masked. *)
Definition llwu_choose (stop vlps lls : Z) (allow : bool) : power_mode :=
  if negb (Z.eqb stop 0) || negb allow then PmWait
  else if negb (Z.eqb vlps 0) then PmStop
  else if negb (Z.eqb lls 0) then PmVlps
  else PmLls.

(** The specification: a nonzero counter forbids its depth and every
    deeper one; a dissenting controller forbids every mode but wait. *)
Definition permitted (sem : inhibit_depth -> Z) (allow : bool) (m : power_mode) : Prop :=
  (forall d, sem d <> 0 -> (mode_rank m < mode_rank (depth_mode d))%nat) /\
  (allow = false -> m = PmWait).


(** The arbiter's vote over the registered controllers: the [allow_llwu]
    of every node of the chain from [p] must be nonzero.  The walk
    follows the [next] pointers with [fuel] nodes at most; [None] is a
    walk that does not end within the fuel (or a dangling pointer). *)
Fixpoint controls_allow (fuel : nat) (h : gmap nat llwu_control) (p : option nat) : option bool :=
  match p with
  | None => Some true
  | Some c =>
      match fuel, h !! c with
      | S f, Some n => (fun b => negb (Z.eqb (allow_llwu n) 0) && b) <$> controls_allow f h (next n)
      | _, _ => None
      end
  end.

(** [llwu_sleep]: with interrupts masked, poll the controllers and the
    counters and decide the power mode to enter; the mask is restored
    after wake-up.  The walk is given one step per allocated node. *)
Definition llwu_sleep (s : llwu_state) (c : Irq.cpu) : option power_mode * Irq.cpu :=
  Irq.critical_region
    (fun c1 =>
       (llwu_choose (stop_sema s) (vlps_sema s) (lls_sema s)
          <$> controls_allow (size (controls s)) (controls s) (ctl_head s), c1)) c.

(** ** The controller registry *)

(** [llwu_register(c)]: [c->next = head; head = c].  [None]: [c] is not
    the address of a control block. *)
Definition llwu_register (c : nat) (s : llwu_state) : option llwu_state :=
  match controls s !! c with
  | None => None
  | Some n =>
      Some (mk_llwu (stop_sema s) (vlps_sema s) (lls_sema s)
              (<[c := mk_control (ctl_head s) (allow_llwu n)]> (controls s)) (Some c))
  end.

(** [llwu_set_allow(c, allow)]: [c->allow_llwu = allow], visible through
    the chain when [c] is registered (the node is shared). *)
Definition llwu_set_allow (c : nat) (allow : Z) (s : llwu_state) : option llwu_state :=
  match controls s !! c with
  | None => None
  | Some n =>
      Some (mk_llwu (stop_sema s) (vlps_sema s) (lls_sema s)
              (<[c := mk_control (next n) allow]> (controls s)) (ctl_head s))
  end.

(** The registry invariant: from [p] the [next] pointers visit the
    distinct nodes [l] and end in NULL. *)
Inductive chain (h : gmap nat llwu_control) : option nat -> list nat -> Prop :=
  | chain_nil : chain h None []
  | chain_cons c n l :
      h !! c = Some n -> c ∉ l -> chain h (next n) l -> chain h (Some c) (c :: l).

(** The vote of a list of registered nodes. *)
Definition allow_of (h : gmap nat llwu_control) (c : nat) : bool :=
  match h !! c with Some n => negb (Z.eqb (allow_llwu n) 0) | None => false end.

(** ** Properties *)

#[global] Instance llwu_inhibit_laws : InhibitLaws llwu_state.
Proof.
  split; intros d; simpl; unfold llwu_inhibit, llwu_uninhibit; intros;
    rewrite get_set_sema; case_decide; done.
Qed.

Lemma chain_nodup (h : gmap nat llwu_control) (p : option nat) (l : list nat) :
  chain h p l -> NoDup l.
Proof. induction 1; constructor; done. Qed.

Lemma chain_in_dom (h : gmap nat llwu_control) (p : option nat) (l : list nat) :
  chain h p l -> Forall (fun c => is_Some (h !! c)) l.
Proof. induction 1; constructor; eauto. Qed.

(** The chain is no longer than the heap: the fuel [llwu_sleep] gives
    the walk is enough. *)
Lemma chain_length (h : gmap nat llwu_control) (p : option nat) (l : list nat) :
  chain h p l -> (length l <= size h)%nat.
Proof.
  intros Hc. rewrite <- size_dom.
  rewrite <- (size_list_to_set (C := gset nat) l) by (eapply chain_nodup; eauto).
  apply subseteq_size. intros x Hx. apply elem_of_list_to_set in Hx.
  apply elem_of_dom. pose proof (chain_in_dom _ _ _ Hc) as Hin.
  rewrite Forall_forall in Hin. by apply Hin.
Qed.

(** Walking a well-formed chain with enough fuel computes the vote of
    its nodes. *)
Lemma chain_allow (h : gmap nat llwu_control) (p : option nat) (l : list nat) (fuel : nat) :
  chain h p l -> (length l <= fuel)%nat ->
  controls_allow fuel h p = Some (forallb (allow_of h) l).
Proof.
  intros Hc. revert fuel. induction Hc as [|c n l Hn Hnot Hc IH]; intros [|f] Hf;
    simpl in *; try done; try lia.
  rewrite Hn, (IH f) by lia. unfold allow_of. rewrite Hn. done.
Qed.

(** Changing a node outside the chain keeps the chain. *)
Lemma chain_insert_notin (h : gmap nat llwu_control) (p : option nat) (l : list nat)
    (c : nat) (n' : llwu_control) :
  chain h p l -> c ∉ l -> chain (<[c := n']> h) p l.
Proof.
  induction 1 as [|c0 n l Hn Hnot Hc IH]; intros Hc0; [constructor|].
  apply not_elem_of_cons in Hc0 as [Hne Hl].
  econstructor; [rewrite lookup_insert_ne by done; eauto | done | auto].
Qed.

(** Changing the flag of a node, not its link, keeps the chain. *)
Lemma chain_insert_flag (h : gmap nat llwu_control) (p : option nat) (l : list nat)
    (c : nat) (n : llwu_control) (a : Z) :
  chain h p l -> h !! c = Some n -> chain (<[c := mk_control (next n) a]> h) p l.
Proof.
  induction 1 as [|c0 n0 l Hn0 Hnot Hc IH]; intros Hn; [constructor|].
  destruct (decide (c = c0)) as [->|Hne].
  - rewrite Hn in Hn0. injection Hn0 as <-.
    econstructor; [apply lookup_insert_eq | done | simpl; auto].
  - econstructor; [rewrite lookup_insert_ne by done; eauto | done | auto].
Qed.

Lemma allow_of_insert_ne (h : gmap nat llwu_control) (c c' : nat) (n : llwu_control) :
  c <> c' -> allow_of (<[c := n]> h) c' = allow_of h c'.
Proof. intros. unfold allow_of. rewrite lookup_insert_ne by done. done. Qed.


(** [llwu_choose] refines the specification: the mode it picks is
    permitted and no permitted mode is deeper. *)
Lemma llwu_choose_spec (sem : inhibit_depth -> Z) (allow : bool) :
  let m := llwu_choose (sem InhStop) (sem InhVlps) (sem InhLls) allow in
  permitted sem allow m /\ forall m', permitted sem allow m' -> (mode_rank m' <= mode_rank m)%nat.
Proof.
  intros m. subst m. unfold llwu_choose, permitted.
  destruct (Z.eqb_spec (sem InhStop) 0) as [Hs|Hs]; simpl;
  [destruct allow; simpl | ];
  [destruct (Z.eqb_spec (sem InhVlps) 0) as [Hv|Hv]; simpl;
   [destruct (Z.eqb_spec (sem InhLls) 0) as [Hl|Hl]; simpl | ] | | ];
  (split; [split; [intros [] ?; simpl; try congruence; lia | done] |]);
  intros [] [Hm Ha]; simpl; try lia;
  first [ specialize (Hm InhStop Hs) | specialize (Hm InhVlps Hv)
        | specialize (Hm InhLls Hl) | specialize (Ha eq_refl) ];
  simpl in *; try lia; discriminate.
Qed.

(** C17: Registering a fresh node prepends it to the chain. *)
Theorem llwu_register_chain (s : llwu_state) (c : nat) (l : list nat) :
  chain (controls s) (ctl_head s) l -> is_Some (controls s !! c) -> c ∉ l ->
  exists s', llwu_register c s = Some s' /\ chain (controls s') (ctl_head s') (c :: l) /\
             forall d, get_sema d s' = get_sema d s.
Proof.
  intros Hc [n Hn] Hnot. unfold llwu_register. rewrite Hn.
  eexists; split; [done|]. split; [|intros []; done]. simpl.
  econstructor; [apply lookup_insert_eq | done | simpl].
  by apply chain_insert_notin.
Qed.

(** What [llwu_sleep] decides on a well-formed registry: the policy
    applied to the counters and the vote of the registered nodes; the
    interrupt mask is restored. *)
Lemma llwu_sleep_chain (s : llwu_state) (l : list nat) (c : Irq.cpu) :
  chain (controls s) (ctl_head s) l ->
  llwu_sleep s c =
    (Some (llwu_choose (stop_sema s) (vlps_sema s) (lls_sema s) (forallb (allow_of (controls s)) l)),
     Irq.mk_cpu (Irq.primask c) (Irq.ipsr c)).
Proof.
  intros Hc. unfold llwu_sleep, Irq.critical_region, Irq.irq_disable, Irq.irq_restore.
  rewrite (chain_allow _ _ _ _ Hc (chain_length _ _ _ Hc)). simpl.
  rewrite Irq.set_get_primask. done.
Qed.

(** Without the controllers' consent the decision is wait. *)
Lemma llwu_choose_dissent (stop vlps lls : Z) : llwu_choose stop vlps lls false = PmWait.
Proof. unfold llwu_choose. simpl. rewrite ?orb_true_r. reflexivity. Qed.

(** A dissenting registered controller keeps [llwu_sleep] in wait. *)
Lemma llwu_sleep_dissent (s : llwu_state) (l : list nat) (c : nat) (cpu : Irq.cpu) :
  chain (controls s) (ctl_head s) l -> c ∈ l -> allow_of (controls s) c = false ->
  (llwu_sleep s cpu).1 = Some PmWait.
Proof.
  intros Hc Hin Ha. rewrite (llwu_sleep_chain _ l) by done. simpl.
  replace (forallb _ l) with false; [by rewrite llwu_choose_dissent|].
  symmetry. apply not_true_iff_false. rewrite forallb_forall. intros Hall.
  rewrite (Hall c (proj1 (list_elem_of_In _ _) Hin)) in Ha. discriminate.
Qed.

(** The counter updates leave the registry alone. *)
Lemma llwu_inhibit_registry (d : inhibit_depth) (s : llwu_state) :
  controls (llwu_inhibit d s) = controls s /\ ctl_head (llwu_inhibit d s) = ctl_head s /\
  controls (llwu_uninhibit d s) = controls s /\ ctl_head (llwu_uninhibit d s) = ctl_head s.
Proof. destruct d; repeat split. Qed.

(** C11: [llwu_sleep] implements the sleep-depth policy: on a well-formed
    registry it restores the interrupt mask and enters the deepest mode
    that no nonzero counter and no dissenting registered controller
    forbids. *)
Theorem llwu_sleep_deepest (s : llwu_state) (l : list nat) (c : Irq.cpu) :
  chain (controls s) (ctl_head s) l ->
  exists m, llwu_sleep s c = (Some m, Irq.mk_cpu (Irq.primask c) (Irq.ipsr c)) /\
    permitted (fun d => get_sema d s) (forallb (allow_of (controls s)) l) m /\
    forall m', permitted (fun d => get_sema d s) (forallb (allow_of (controls s)) l) m' ->
               (mode_rank m' <= mode_rank m)%nat.
Proof.
  intros Hc. rewrite (llwu_sleep_chain _ l c Hc). eexists. split; [reflexivity|].
  apply (llwu_choose_spec (fun d => get_sema d s)).
Qed.

(** C16: Setting the flag of a registered node is seen by the next
    [llwu_sleep]: one dissenting controller keeps the core in wait. *)
Theorem llwu_set_allow_dissent (s s' : llwu_state) (l : list nat) (c : nat) (cpu : Irq.cpu) :
  chain (controls s) (ctl_head s) l -> c ∈ l -> llwu_set_allow c 0 s = Some s' ->
  (llwu_sleep s' cpu).1 = Some PmWait.
Proof.
  intros Hc Hin. unfold llwu_set_allow.
  destruct (controls s !! c) as [n|] eqn:Hn; [|discriminate]. intros [= <-].
  apply (llwu_sleep_dissent _ l c); simpl; [by apply chain_insert_flag | done |].
  unfold allow_of. by rewrite lookup_insert_eq.
Qed.

(** C18: Registering the same node twice links it to itself: the walk of
    [llwu_sleep] never reaches NULL, whatever the fuel. *)
Theorem llwu_register_twice_cycles (s s1 s2 : llwu_state) (c : nat) (fuel : nat) :
  llwu_register c s = Some s1 -> llwu_register c s1 = Some s2 ->
  controls_allow fuel (controls s2) (ctl_head s2) = None.
Proof.
  unfold llwu_register. destruct (controls s !! c) as [n|]; [|discriminate].
  intros [= <-]. simpl. rewrite lookup_insert_eq. intros [= <-]. simpl.
  induction fuel as [|f IH]; [done|]. simpl. rewrite lookup_insert_eq. simpl.
  rewrite IH. done.
Qed.

(** ** The policy examples of the spec, and witnesses *)

(** One registered controller [LLWU_CONTROL] at address 0, and counters. *)
Definition llwu_one (stop vlps lls allow : Z) : llwu_state :=
  mk_llwu stop vlps lls {[0%nat := mk_control None allow]} (Some 0%nat).

(** Counts {STOP 0, VLPS 1, LLS 0} with every controller allowing: STOP.
    Counts all zero with one controller disallowing: wait (no deep sleep).
    Nothing inhibited and every controller allowing: LLS. *)
Example llwu_sleep_policy_examples :
  (llwu_sleep (llwu_one 0 1 0 1) (Irq.mk_cpu false 0)).1 = Some PmStop /\
  (llwu_sleep (llwu_one 0 0 0 0) (Irq.mk_cpu false 0)).1 = Some PmWait /\
  (llwu_sleep (llwu_one 0 0 0 1) (Irq.mk_cpu false 0)).1 = Some PmLls.
Proof. split; [|split]; vm_compute; reflexivity. Qed.

Lemma chain_one (stop vlps lls allow : Z) :
  chain (controls (llwu_one stop vlps lls allow)) (ctl_head (llwu_one stop vlps lls allow)) [0%nat].
Proof. econstructor; [reflexivity | apply not_elem_of_nil | constructor]. Qed.

Lemma llwu_sleep_deepest_witness :
  chain (controls (llwu_one 0 1 0 1)) (ctl_head (llwu_one 0 1 0 1)) [0%nat] /\
  exists m, llwu_sleep (llwu_one 0 1 0 1) (Irq.mk_cpu false 0) =
              (Some m, Irq.mk_cpu (Irq.primask (Irq.mk_cpu false 0)) (Irq.ipsr (Irq.mk_cpu false 0))) /\
    permitted (fun d => get_sema d (llwu_one 0 1 0 1)) (forallb (allow_of (controls (llwu_one 0 1 0 1))) [0%nat]) m /\
    forall m', permitted (fun d => get_sema d (llwu_one 0 1 0 1))
                 (forallb (allow_of (controls (llwu_one 0 1 0 1))) [0%nat]) m' ->
               (mode_rank m' <= mode_rank m)%nat.
Proof.
  split; [apply chain_one|].
  exact (llwu_sleep_deepest (llwu_one 0 1 0 1) [0%nat] (Irq.mk_cpu false 0) (chain_one 0 1 0 1)).
Defined.

Lemma llwu_set_allow_dissent_witness :
  chain (controls (llwu_one 0 0 0 1)) (ctl_head (llwu_one 0 0 0 1)) [0%nat] /\ 0%nat ∈ [0%nat] /\
  llwu_set_allow 0 0 (llwu_one 0 0 0 1) = Some (default (llwu_one 0 0 0 1) (llwu_set_allow 0 0 (llwu_one 0 0 0 1))) /\
  (llwu_sleep (default (llwu_one 0 0 0 1) (llwu_set_allow 0 0 (llwu_one 0 0 0 1))) (Irq.mk_cpu false 0)).1
    = Some PmWait.
Proof.
  assert ((0%nat : nat) ∈ [0%nat]) as Hin by constructor.
  split; [apply chain_one|]. split; [exact Hin|]. split; [reflexivity|].
  exact (llwu_set_allow_dissent (llwu_one 0 0 0 1) _ [0%nat] 0 (Irq.mk_cpu false 0)
           (chain_one 0 0 0 1) Hin eq_refl).
Defined.

(** Two control blocks, none registered yet. *)
Definition llwu_two : llwu_state :=
  mk_llwu 0 0 0 (<[1%nat := llwu_control_init]> {[0%nat := llwu_control_init]}) None.

Lemma llwu_register_chain_witness :
  chain (controls llwu_two) (ctl_head llwu_two) [] /\ is_Some (controls llwu_two !! 0%nat) /\
  (0%nat ∉ ([] : list nat)) /\
  exists s', llwu_register 0 llwu_two = Some s' /\ chain (controls s') (ctl_head s') [0%nat] /\
             forall d, get_sema d s' = get_sema d llwu_two.
Proof.
  assert (chain (controls llwu_two) (ctl_head llwu_two) []) as Hc by constructor.
  assert (is_Some (controls llwu_two !! 0%nat)) as Hs by (eexists; reflexivity).
  assert (0%nat ∉ ([] : list nat)) as Hn by apply not_elem_of_nil.
  split; [exact Hc|]. split; [exact Hs|]. split; [exact Hn|].
  exact (llwu_register_chain llwu_two 0 [] Hc Hs Hn).
Defined.

Definition llwu_reg1 : llwu_state := default llwu_two (llwu_register 0 llwu_two).
Definition llwu_reg2 : llwu_state := default llwu_two (llwu_register 0 llwu_reg1).

Lemma llwu_register_twice_cycles_witness :
  llwu_register 0 llwu_two = Some llwu_reg1 /\ llwu_register 0 llwu_reg1 = Some llwu_reg2 /\
  controls_allow 10 (controls llwu_reg2) (ctl_head llwu_reg2) = None.
Proof.
  split; [reflexivity|]. split; [reflexivity|].
  exact (llwu_register_twice_cycles llwu_two llwu_reg1 llwu_reg2 0 10 eq_refl eq_refl).
Defined.

End Llwu.
