(* ===== verification/Uart.v ===== *)
(** * The UART driver: [src/cpu/arm/k60/drivers/uart.c]

    The driver keeps two static arrays, [rx_callback[NUM_UARTS]] and the
    [receiving[NUM_UARTS]] latches of [rx_irq_handler], and drives the
    memory-mapped UART register files [UART[n]].  The receive interrupt
    handler raises the STOP inhibit counter of the wake-up controller when
    an RX edge wakes the line and releases it when the receiver is idle.

    The model is a [Section] over any implementation of the inhibit-counter
    interface [Llwu.InhibitCounters] with its laws: the driver's theorems
    use only the interface.  The driver state [drv] holds that counter
    state, the register files, the two arrays and a trace of the driver's
    visible actions (counter updates, callback invocations, bytes written).

    [uart_init] computes the baud divisor with [UART_SBR] / [UART_BRFA]
    (uart.h, not in [src/]), modelled from spec 6: SBR is
    [round(clk / (16 baud))] and BRFA the fine adjust in 32nds, between 0
    and 16, nearest the exact divisor.  Proved: the divisor programmed is
    [SBR mod 2^13 + BRFA/32] for every clock and rate
    ([uart_init_div32]); the rate is within 3% of the one asked for when
    SBR is between 17 and [2^13 - 1] ([uart_init_baud]), may miss 3% below
    17 ([baud_small_divisor_off]), and is far too fast above, where the
    high SBR bits are dropped without a trap ([uart_init_sbr_overflow]).

    Register bit assignments are those of the K60 reference manual and the
    vendor header MK60D10.h (not in [src/]). *)

From stdpp Require Import base list relations.
From Stdlib Require Import ZArith Lia.
From S2P Require Import Prelude Irq Sync Llwu.

Module Uart.

(** ** Hardware constants *)

(** [NUM_UARTS]: UART0 to UART5. *)
Definition NUM_UARTS : nat := 6.

Definition UART_S1_RDRF_MASK : Z := 32.      (** 0x20 *)
Definition UART_S1_TDRE_SHIFT : Z := 7.
Definition UART_S1_TC_SHIFT : Z := 6.
Definition UART_S2_RAF_MASK : Z := 1.        (** 0x01, read-only *)
Definition UART_S2_RXEDGIF_MASK : Z := 64.   (** 0x40, write-1-to-clear *)
Definition UART_S2_W1C : Z := 192.           (** RXEDGIF and LBKDIF *)
Definition UART_S2_RW : Z := 62.             (** MSBF RXINV RWUID BRK13 LBKDE *)
Definition UART_C2_RIE_MASK : Z := 32.
Definition UART_C2_TE_MASK : Z := 8.
Definition UART_C2_RE_MASK : Z := 4.
Definition UART_BDH_RXEDGIE_MASK : Z := 64.
Definition UART_BDH_SBR_MASK : Z := 31.
Definition UART_BDL_SBR_MASK : Z := 255.
Definition UART_C4_BRFA_MASK : Z := 31.
Definition UART_PFIFO_RXFE_SHIFT : Z := 3.
Definition UART_PFIFO_TXFE_SHIFT : Z := 7.

(** [SIM_SCGC4_UARTn_SHIFT] (n = 0..3) and [SIM_SCGC1_UARTn_SHIFT]
    (n = 4, 5): the clock gate bit of each UART. *)
Definition SIM_SCGC4_UART0_SHIFT : Z := 10.
Definition SIM_SCGC1_UART4_SHIFT : Z := 10.

(** [UARTn_RX_TX_IRQn]: the status interrupt vector of UARTn. *)
Definition UART_RX_TX_IRQn (n : nat) : nat := 45 + 2 * n.

(** ** State *)

(** The register file of one UART, as far as the driver touches it.
    [rx_fifo] holds the received bytes not yet read from [D] (the RX FIFO
    with watermark [RWFIFO] = 1), [tx_out] the bytes written to [D]. *)
Record uart_hw := mk_hw {
  bdh : Z; bdl : Z; c1 : Z; c2 : Z; c4 : Z; s2 : Z;
  pfifo : Z; twfifo : Z; rwfifo : Z;
  rx_fifo : list Z; tx_out : list Z
}.

(** [S1] as read by [rx_irq_handler]: RDRF is set while the FIFO holds
    at least [RWFIFO] (here one) byte. *)
Definition uart_S1_rx (u : uart_hw) : Z :=
  match rx_fifo u with [] => 0 | _ :: _ => UART_S1_RDRF_MASK end.

(** Reading [D] pops the oldest received byte (it is read only while
    RDRF is set). *)
Definition read_D (u : uart_hw) : Z * uart_hw :=
  match rx_fifo u with
  | [] => (0, u)
  | c :: rest => (c, mk_hw (bdh u) (bdl u) (c1 u) (c2 u) (c4 u) (s2 u)
                           (pfifo u) (twfifo u) (rwfifo u) rest (tx_out u))
  end.

(** A write of [v] to [S2]: the write-1-to-clear flags written with 1 are
    cleared, the read/write bits take [v], RAF is read-only. *)
Definition s2_write (v old : Z) : Z :=
  Z.lor (Z.land old UART_S2_RAF_MASK)
        (Z.lor (Z.land v UART_S2_RW) (reg_clear (Z.land old UART_S2_W1C) v)).

Definition set_s2 (v : Z) (u : uart_hw) : uart_hw :=
  mk_hw (bdh u) (bdl u) (c1 u) (c2 u) (c4 u) (s2_write v (s2 u))
        (pfifo u) (twfifo u) (rwfifo u) (rx_fifo u) (tx_out u).

(** Writes of single registers. *)
Definition with_c2 (v : Z) (u : uart_hw) : uart_hw :=
  mk_hw (bdh u) (bdl u) (c1 u) v (c4 u) (s2 u) (pfifo u) (twfifo u) (rwfifo u) (rx_fifo u) (tx_out u).
Definition with_bdh (v : Z) (u : uart_hw) : uart_hw :=
  mk_hw v (bdl u) (c1 u) (c2 u) (c4 u) (s2 u) (pfifo u) (twfifo u) (rwfifo u) (rx_fifo u) (tx_out u).

Definition with_bdl (v : Z) (u : uart_hw) : uart_hw :=
  mk_hw (bdh u) v (c1 u) (c2 u) (c4 u) (s2 u) (pfifo u) (twfifo u) (rwfifo u) (rx_fifo u) (tx_out u).
Definition with_c1 (v : Z) (u : uart_hw) : uart_hw :=
  mk_hw (bdh u) (bdl u) v (c2 u) (c4 u) (s2 u) (pfifo u) (twfifo u) (rwfifo u) (rx_fifo u) (tx_out u).
Definition with_c4 (v : Z) (u : uart_hw) : uart_hw :=
  mk_hw (bdh u) (bdl u) (c1 u) (c2 u) v (s2 u) (pfifo u) (twfifo u) (rwfifo u) (rx_fifo u) (tx_out u).
Definition with_pfifo (v : Z) (u : uart_hw) : uart_hw :=
  mk_hw (bdh u) (bdl u) (c1 u) (c2 u) (c4 u) (s2 u) v (twfifo u) (rwfifo u) (rx_fifo u) (tx_out u).
Definition with_twfifo (v : Z) (u : uart_hw) : uart_hw :=
  mk_hw (bdh u) (bdl u) (c1 u) (c2 u) (c4 u) (s2 u) (pfifo u) v (rwfifo u) (rx_fifo u) (tx_out u).
Definition with_rwfifo (v : Z) (u : uart_hw) : uart_hw :=
  mk_hw (bdh u) (bdl u) (c1 u) (c2 u) (c4 u) (s2 u) (pfifo u) (twfifo u) v (rx_fifo u) (tx_out u).
(** [CFIFO = RXFLUSH | TXFLUSH]: both hardware FIFOs are emptied (the
    bytes already shifted out stay on the line). *)
Definition flush_fifos (u : uart_hw) : uart_hw :=
  mk_hw (bdh u) (bdl u) (c1 u) (c2 u) (c4 u) (s2 u) (pfifo u) (twfifo u) (rwfifo u) [] (tx_out u).

(** A byte written to [D] goes out on the line. *)
Definition push_tx (c : Z) (u : uart_hw) : uart_hw :=
  mk_hw (bdh u) (bdl u) (c1 u) (c2 u) (c4 u) (s2 u) (pfifo u) (twfifo u) (rwfifo u)
        (rx_fifo u) (tx_out u ++ [c]).

(** The busy-wait [while (BITBAND_REG8(uart_dev->S1, k) == 0) {}], reading
    [S1] from the stream of values the hardware presents: the reads left
    after the first one with bit [k] set, or [None] when the stream ends
    first (the loop is still spinning). *)
Fixpoint wait_bit (k : Z) (reads : list Z) : option (list Z) :=
  match reads with
  | [] => None
  | r :: rest => if Z.testbit r k then Some rest else wait_bit k rest
  end.

(** The characters [uart_putstring] sends: up to the terminating NUL. *)
Fixpoint c_string (str : list Z) : list Z :=
  match str with
  | [] => []
  | c :: rest => if Z.eqb c 0 then [] else c :: c_string rest
  end.

(** ** Clock gating and the baud-rate generator *)

(** The SIM clock-gate registers and the NVIC enable bits. *)
Record sys := mk_sys { scgc1 : Z; scgc4 : Z; nvic_iser : Z }.

(** [SystemSysClock] and [SystemBusClock]. *)
Record clocks := mk_clocks { SystemSysClock : Z; SystemBusClock : Z }.

Definition gate_scgc4 (k : Z) (y : sys) : sys :=
  mk_sys (scgc1 y) (reg_write_bit (scgc4 y) k true) (nvic_iser y).
Definition gate_scgc1 (k : Z) (y : sys) : sys :=
  mk_sys (reg_write_bit (scgc1 y) k true) (scgc4 y) (nvic_iser y).

(** [uart_module_enable(n)]: set the clock gate of UARTn; any other
    number hits the debug trap. *)
Definition uart_module_enable (n : nat) (y : sys) : break_reason + sys :=
  match n with
  | 0%nat => inr (gate_scgc4 SIM_SCGC4_UART0_SHIFT y)
  | 1%nat => inr (gate_scgc4 (SIM_SCGC4_UART0_SHIFT + 1) y)
  | 2%nat => inr (gate_scgc4 (SIM_SCGC4_UART0_SHIFT + 2) y)
  | 3%nat => inr (gate_scgc4 (SIM_SCGC4_UART0_SHIFT + 3) y)
  | 4%nat => inr (gate_scgc1 SIM_SCGC1_UART4_SHIFT y)
  | 5%nat => inr (gate_scgc1 (SIM_SCGC1_UART4_SHIFT + 1) y)
  | _ => inl BREAK_INVALID_PARAM
  end.

(** The module clock [uart_init] uses: the one given, or, when it is 0,
    the system clock for UART0/1 and the bus clock for UART2/3/4; any
    other UART hits the debug trap. *)
Definition uart_module_clock (ck : clocks) (n : nat) (clk : Z) : break_reason + Z :=
  if Z.eqb clk 0 then
    match n with
    | 0%nat | 1%nat => inr (SystemSysClock ck)
    | 2%nat | 3%nat | 4%nat => inr (SystemBusClock ck)
    | _ => inl BREAK_INVALID_PARAM
    end
  else inr clk.

(** [UART_SBR(clk, baud)] and [UART_BRFA(clk, baud)] (uart.h, not in
    [src/]; spec 6): the integer divisor [round(clk / (16 baud))], and the
    fine adjust (in 32nds, the hardware's step set) that brings it closest
    to the exact divisor [clk / (16 baud)].  [baud_div32] is that exact
    divisor rounded to 32nds.  The fine adjust can only add to SBR, so
    when SBR was rounded up the nearest step is 0. *)
Definition baud_div32 (clk baud : Z) : Z := (4 * clk / baud + 1) / 2.
Definition UART_SBR (clk baud : Z) : Z := (2 * clk + 16 * baud) / (32 * baud).
Definition UART_BRFA (clk baud : Z) : Z := Z.max 0 (baud_div32 clk baud - 32 * UART_SBR clk baud).

(** The writes of [BDH], [BDL] and [C4] in [uart_init] (8-bit registers;
    [UART_BDH_SBR(x)] is [x & 0x1F], [UART_C4_BRFA(x)] is [x & 0x1F]). *)
Definition uart_write_baud (sbr brfa : Z) (u : uart_hw) : uart_hw :=
  let u1 := with_bdh (u8 (Z.lor (reg_clear (bdh u) UART_BDH_SBR_MASK)
                                 (Z.land (Z.shiftr sbr 8) UART_BDH_SBR_MASK))) u in
  let u2 := with_bdl (u8 (Z.lor (reg_clear (bdl u1) UART_BDL_SBR_MASK)
                                 (Z.land sbr UART_BDL_SBR_MASK))) u1 in
  with_c4 (u8 (Z.lor (reg_clear (c4 u2) UART_C4_BRFA_MASK) (Z.land brfa UART_C4_BRFA_MASK))) u2.

(** The divisor the baud-rate generator uses, in 32nds: the 13-bit SBR
    field of [BDH:BDL] and the BRFA field of [C4]. *)
Definition programmed_div32 (u : uart_hw) : Z :=
  32 * (Z.lor (Z.shiftl (Z.land (bdh u) UART_BDH_SBR_MASK) 8) (bdl u)) +
  Z.land (c4 u) UART_C4_BRFA_MASK.

(** The register writes of [uart_init] after the clock gate, in order. *)
Definition uart_init_regs (sbr brfa : Z) (u : uart_hw) : uart_hw :=
  let u1 := with_c2 (reg_clear (c2 u) (Z.lor UART_C2_TE_MASK UART_C2_RE_MASK)) u in
  let u2 := with_c1 0 u1 in
  let u3 := uart_write_baud sbr brfa u2 in
  let u4 := with_pfifo (reg_write_bit (pfifo u3) UART_PFIFO_RXFE_SHIFT true) u3 in
  let u5 := with_pfifo (reg_write_bit (pfifo u4) UART_PFIFO_TXFE_SHIFT false) u4 in
  let u6 := with_twfifo 0 u5 in
  let u7 := with_rwfifo 1 u6 in
  let u8 := flush_fifos u7 in
  with_c2 (reg_set (c2 u8) UART_C2_TE_MASK) u8.

(** What the driver does that others can observe. *)
Inductive drv_event :=
  | EvInhibit (d : Llwu.inhibit_depth)
  | EvUninhibit (d : Llwu.inhibit_depth)
  | EvCallback (cb : nat) (c : Z)    (** [rx_callback[n](c)] *)
  | EvTx (n : nat) (c : Z).          (** a byte written to [UART[n]->D] *)

Section Driver.

Context {S : Type} `{!Llwu.InhibitCounters S} `{!Llwu.InhibitLaws S}.

(** The driver's state: the counters it shares with the arbiter, the
    register files [UART[0..5]], [rx_callback[]] ([None] = NULL; a
    callback is named by its address), [receiving[]] and the trace. *)
Record drv := mk_drv {
  llwu : S;
  uart : list uart_hw;
  rx_callback : list (option nat);
  receiving : list Z;
  trace : list drv_event
}.

Definition set_llwu (l : S) (st : drv) : drv :=
  mk_drv l (uart st) (rx_callback st) (receiving st) (trace st).
Definition set_uart (n : nat) (u : uart_hw) (st : drv) : drv :=
  mk_drv (llwu st) (<[n := u]> (uart st)) (rx_callback st) (receiving st) (trace st).
Definition set_receiving (n : nat) (r : Z) (st : drv) : drv :=
  mk_drv (llwu st) (uart st) (rx_callback st) (<[n := r]> (receiving st)) (trace st).
Definition emit (e : drv_event) (st : drv) : drv :=
  mk_drv (llwu st) (uart st) (rx_callback st) (receiving st) (trace st ++ [e]).

(** [LLWU_INHIBIT_STOP()] / [LLWU_UNINHIBIT_STOP()] and the LLS ones. *)
Definition drv_inhibit (d : Llwu.inhibit_depth) (st : drv) : drv :=
  emit (EvInhibit d) (set_llwu (Llwu.inhibit d (llwu st)) st).
Definition drv_uninhibit (d : Llwu.inhibit_depth) (st : drv) : drv :=
  emit (EvUninhibit d) (set_llwu (Llwu.uninhibit d (llwu st)) st).

(** ** The receive interrupt handler *)

(** [if (uart_dev->S1 & UART_S1_RDRF_MASK) { c = uart_dev->D;
    if (rx_callback[n] != NULL) rx_callback[n](c); }] *)
Definition rx_drain (n : nat) (u : uart_hw) (st : drv) : drv :=
  if bool_decide (Z.land (uart_S1_rx u) UART_S1_RDRF_MASK <> 0) then
    let '(c, u') := read_D u in
    let st1 := set_uart n u' st in
    match mjoin (rx_callback st !! n) with
    | Some cb => emit (EvCallback cb c) st1
    | None => st1
    end
  else st.

(** [if ((uart_dev->S2 & UART_S2_RAF_MASK) == 0) { if (receiving[n] != 0)
    { receiving[n] = 0; LLWU_UNINHIBIT_STOP(); } }] *)
Definition rx_idle_check (n : nat) (u : uart_hw) (st : drv) : drv :=
  if bool_decide (Z.land (s2 u) UART_S2_RAF_MASK = 0) then
    if bool_decide (default 0 (receiving st !! n) <> 0) then
      drv_uninhibit Llwu.InhStop (set_receiving n 0 st)
    else st
  else st.

(** [if (uart_dev->S2 & UART_S2_RXEDGIF_MASK) { if (receiving[n] == 0)
    { LLWU_INHIBIT_STOP(); receiving[n] = 1; }
    uart_dev->S2 = UART_S2_RXEDGIF_MASK; }] *)
Definition rx_edge_check (n : nat) (u : uart_hw) (st : drv) : drv :=
  if bool_decide (Z.land (s2 u) UART_S2_RXEDGIF_MASK <> 0) then
    let st1 :=
      if bool_decide (default 0 (receiving st !! n) = 0) then
        set_receiving n 1 (drv_inhibit Llwu.InhStop st)
      else st in
    set_uart n (set_s2 UART_S2_RXEDGIF_MASK u) st1
  else st.

(** [rx_irq_handler(n)] (the body of [isr_uartN_status]): the three
    checks in this order, each reading the registers afresh.  [None]: [n]
    is out of range (an out-of-bounds access in the C code). *)
Definition rx_irq_handler (n : nat) (st : drv) : option drv :=
  if bool_decide (n < NUM_UARTS)%nat then
    u0 ← uart st !! n;
    let st1 := rx_drain n u0 st in
    u1 ← uart st1 !! n;
    let st2 := rx_idle_check n u1 st1 in
    u2 ← uart st2 !! n;
    Some (rx_edge_check n u2 st2)
  else None.

(** ** The handler's effect, branch by branch *)

Definition raf_idle (u : uart_hw) : bool := bool_decide (Z.land (s2 u) UART_S2_RAF_MASK = 0).
Definition rx_edge (u : uart_hw) : bool := bool_decide (Z.land (s2 u) UART_S2_RXEDGIF_MASK <> 0).

(** The register file after the drain step. *)
Definition drained (u : uart_hw) : uart_hw := (read_D u).2.

(** The callback event of the drain step. *)
Definition rx_drain_events (u : uart_hw) (cb : option nat) : list drv_event :=
  match rx_fifo u, cb with c :: _, Some f => [EvCallback f c] | _, _ => [] end.

(** A [receiving] latch holds 0 or 1. *)
Definition latch (r : Z) : Prop := r = 0 \/ r = 1.

(** The latch after the idle check and after the edge check. *)
Definition latch_after_idle (u : uart_hw) (r : Z) : Z := if raf_idle u then 0 else r.
Definition latch_after (u : uart_hw) (r : Z) : Z := if rx_edge u then 1 else latch_after_idle u r.

(** The events of one handler run on a UART whose registers are [u],
    whose callback is [cb] and whose latch is [r]. *)
Definition rx_events (u : uart_hw) (cb : option nat) (r : Z) : list drv_event :=
  rx_drain_events u cb ++
  (if raf_idle u && bool_decide (r <> 0) then [EvUninhibit Llwu.InhStop] else []) ++
  (if rx_edge u && bool_decide (latch_after_idle u r = 0) then [EvInhibit Llwu.InhStop] else []).

(** The counter updates a list of events stands for. *)
Definition apply_ev (l : S) (e : drv_event) : S :=
  match e with
  | EvInhibit d => Llwu.inhibit d l
  | EvUninhibit d => Llwu.uninhibit d l
  | _ => l
  end.
Definition apply_evs (l : S) (es : list drv_event) : S := foldl apply_ev l es.

(** ** Receive control and callback registration *)

(** [uart_set_rx_callback(n, callback)]: [rx_callback[n] = callback]. *)
Definition uart_set_rx_callback (n : nat) (cb : option nat) (st : drv) : option drv :=
  if bool_decide (n < NUM_UARTS)%nat then
    Some (mk_drv (llwu st) (uart st) (<[n := cb]> (rx_callback st)) (receiving st) (trace st))
  else None.

(** [uart_enable_rx_interrupt(n)]: [C2 |= RIE; BDH |= RXEDGIE; C2 |= RE;
    LLWU_INHIBIT_LLS();] *)
Definition uart_enable_rx_interrupt (n : nat) (st : drv) : option drv :=
  if bool_decide (n < NUM_UARTS)%nat then
    u ← uart st !! n;
    let u1 := with_c2 (reg_set (c2 u) UART_C2_RIE_MASK) u in
    let u2 := with_bdh (reg_set (bdh u1) UART_BDH_RXEDGIE_MASK) u1 in
    let u3 := with_c2 (reg_set (c2 u2) UART_C2_RE_MASK) u2 in
    Some (drv_inhibit Llwu.InhLls (set_uart n u3 st))
  else None.

(** [uart_disable_rx_interrupt(n)]: [C2 &= ~RIE; BDH &= ~RXEDGIE;
    C2 &= ~RE; LLWU_UNINHIBIT_LLS();] *)
Definition uart_disable_rx_interrupt (n : nat) (st : drv) : option drv :=
  if bool_decide (n < NUM_UARTS)%nat then
    u ← uart st !! n;
    let u1 := with_c2 (reg_clear (c2 u) UART_C2_RIE_MASK) u in
    let u2 := with_bdh (reg_clear (bdh u1) UART_BDH_RXEDGIE_MASK) u1 in
    let u3 := with_c2 (reg_clear (c2 u2) UART_C2_RE_MASK) u2 in
    Some (drv_uninhibit Llwu.InhLls (set_uart n u3 st))
  else None.

(** ** Initialisation *)

(** Whether the clock of UARTn is gated on. *)
Definition uart_gate (n : nat) (y : sys) : bool :=
  if bool_decide (n < 4)%nat then Z.testbit (scgc4 y) (SIM_SCGC4_UART0_SHIFT + Z.of_nat n)
  else Z.testbit (scgc1 y) (SIM_SCGC1_UART4_SHIFT + Z.of_nat n - 4).

(** [uart_init(n, module_clk_hz, baud)]; [conf n] is [UARTn_CONF_ENABLE].
    [None]: undefined behaviour ([UART[n]] out of range, or a division by
    a zero baud rate); [inl]: the debug trap of an invalid configuration,
    after which the function returns. *)
Definition uart_init (conf : nat -> bool) (ck : clocks) (n : nat) (clk baud : Z)
    (y : sys) (st : drv) : option (break_reason + (sys * drv)) :=
  if bool_decide (n < NUM_UARTS)%nat then
    u ← uart st !! n;
    match uart_module_clock ck n clk with
    | inl b => Some (inl b)
    | inr clk' =>
        if Z.eqb baud 0 then None else
        let y1 := match uart_module_enable n y with inl _ => y | inr y' => y' end in
        let sbr := u16 (UART_SBR clk' baud) in
        let brfa := u16 (UART_BRFA clk' baud) in
        let u' := uart_init_regs sbr brfa u in
        let y2 := if conf n then mk_sys (scgc1 y1) (scgc4 y1)
                                  (reg_write_bit (nvic_iser y1) (Z.of_nat (UART_RX_TX_IRQn n)) true)
                  else y1 in
        Some (inr (y2, set_uart n u' st))
    end
  else None.

(** ** Transmit *)

(** [uart_putchar(n, ch)]: wait for TDRE, write [(uint8_t)ch] to [D],
    wait for TC.  Returns the state and the unread status reads. *)
Definition uart_putchar (n : nat) (ch : Z) (reads : list Z) (st : drv) : option (drv * list Z) :=
  if bool_decide (n < NUM_UARTS)%nat then
    u ← uart st !! n;
    rest1 ← wait_bit UART_S1_TDRE_SHIFT reads;
    let st1 := emit (EvTx n (u8 ch)) (set_uart n (push_tx (u8 ch) u) st) in
    rest2 ← wait_bit UART_S1_TC_SHIFT rest1;
    Some (st1, rest2)
  else None.

(** [uart_putstring(n, str)]: [while ( *p ) uart_putchar(n, *p++);] *)
Fixpoint uart_putstring (n : nat) (str : list Z) (reads : list Z) (st : drv) : option (drv * list Z) :=
  match str with
  | [] => Some (st, reads)
  | c :: rest =>
      if Z.eqb c 0 then Some (st, reads)
      else '(st1, reads1) ← uart_putchar n c reads st; uart_putstring n rest reads1 st1
  end.

(** ** The driver as a transition system *)

(** What can happen to the driver's state: a receive interrupt, a change
    of a register file by the hardware (bytes arriving, the line going
    active or idle, edges), and the driver's foreground operations. *)
Inductive drv_step : drv -> drv -> Prop :=
  | StepIrq n st st' : rx_irq_handler n st = Some st' -> drv_step st st'
  | StepLine n u st : (n < NUM_UARTS)%nat -> drv_step st (set_uart n u st)
  | StepSetCb n cb st st' : uart_set_rx_callback n cb st = Some st' -> drv_step st st'
  | StepEnableRx n st st' : uart_enable_rx_interrupt n st = Some st' -> drv_step st st'
  | StepDisableRx n st st' : uart_disable_rx_interrupt n st = Some st' -> drv_step st st'
  | StepInit conf ck n clk baud y y' st st' :
      uart_init conf ck n clk baud y st = Some (inr (y', st')) -> drv_step st st'
  | StepPutchar n ch reads reads' st st' :
      uart_putchar n ch reads st = Some (st', reads') -> drv_step st st'.

(** ** Equations of the handler's steps *)

Lemma drained_s2 (u : uart_hw) : s2 (drained u) = s2 u.
Proof. unfold drained, read_D. by destruct (rx_fifo u). Qed.

Lemma rx_drain_eq (n : nat) (u : uart_hw) (st : drv) :
  uart st !! n = Some u ->
  rx_drain n u st =
    mk_drv (llwu st) (<[n := drained u]> (uart st)) (rx_callback st) (receiving st)
           (trace st ++ rx_drain_events u (mjoin (rx_callback st !! n))).
Proof.
  intros Hu. unfold rx_drain, drained, rx_drain_events, uart_S1_rx, read_D.
  destruct (rx_fifo u) as [|c rest] eqn:Hf; simpl.
  - rewrite list_insert_id by done. rewrite app_nil_r. by destruct st.
  - destruct (mjoin (rx_callback st !! n)); [reflexivity|].
    rewrite app_nil_r. reflexivity.
Qed.

Lemma rx_idle_check_eq (n : nat) (u : uart_hw) (st : drv) (r : Z) :
  receiving st !! n = Some r ->
  rx_idle_check n u st =
    if raf_idle u && bool_decide (r <> 0) then
      mk_drv (Llwu.uninhibit Llwu.InhStop (llwu st)) (uart st) (rx_callback st)
             (<[n := 0]> (receiving st)) (trace st ++ [EvUninhibit Llwu.InhStop])
    else st.
Proof.
  intros Hr. unfold rx_idle_check, raf_idle. rewrite Hr. simpl.
  repeat case_bool_decide; done.
Qed.

Lemma rx_edge_check_eq (n : nat) (u : uart_hw) (st : drv) (r : Z) :
  receiving st !! n = Some r ->
  rx_edge_check n u st =
    if rx_edge u then
      set_uart n (set_s2 UART_S2_RXEDGIF_MASK u)
        (if bool_decide (r = 0) then
           mk_drv (Llwu.inhibit Llwu.InhStop (llwu st)) (uart st) (rx_callback st)
                  (<[n := 1]> (receiving st)) (trace st ++ [EvInhibit Llwu.InhStop])
         else st)
    else st.
Proof.
  intros Hr. unfold rx_edge_check, rx_edge. rewrite Hr. simpl.
  repeat case_bool_decide; done.
Qed.

(** What the idle check does, as equations on the fields. *)
Lemma rx_idle_check_spec (n : nat) (u : uart_hw) (st : drv) (r : Z) :
  receiving st !! n = Some r -> latch r ->
  let es := (if raf_idle u && bool_decide (r <> 0) then [EvUninhibit Llwu.InhStop] else []) in
  let st' := rx_idle_check n u st in
  uart st' = uart st /\ rx_callback st' = rx_callback st /\
  receiving st' = <[n := latch_after_idle u r]> (receiving st) /\
  trace st' = trace st ++ es /\ llwu st' = apply_evs (llwu st) es.
Proof.
  intros Hr Hl es st'. subst es st'. rewrite (rx_idle_check_eq _ _ _ r Hr).
  unfold latch_after_idle. destruct (raf_idle u); simpl;
    [case_bool_decide; simpl; [done|] | ];
    rewrite ?app_nil_r, ?list_insert_id by (destruct Hl; subst; done); done.
Qed.

(** What the edge check does to the latch, the trace and the counters. *)
Lemma rx_edge_check_spec (n : nat) (u : uart_hw) (st : drv) (r : Z) :
  receiving st !! n = Some r -> latch r ->
  let es := (if rx_edge u && bool_decide (r = 0) then [EvInhibit Llwu.InhStop] else []) in
  let st' := rx_edge_check n u st in
  rx_callback st' = rx_callback st /\
  receiving st' = <[n := if rx_edge u then 1 else r]> (receiving st) /\
  trace st' = trace st ++ es /\ llwu st' = apply_evs (llwu st) es.
Proof.
  intros Hr Hl es st'. subst es st'. rewrite (rx_edge_check_eq _ _ _ r Hr).
  destruct (rx_edge u); simpl; [case_bool_decide; simpl|];
    rewrite ?app_nil_r, ?list_insert_id by (try destruct Hl; subst; done); done.
Qed.

Lemma apply_evs_app (l : S) (es1 es2 : list drv_event) :
  apply_evs l (es1 ++ es2) = apply_evs (apply_evs l es1) es2.
Proof. apply foldl_app. Qed.

Lemma apply_evs_callbacks (l : S) (u : uart_hw) (cb : option nat) :
  apply_evs l (rx_drain_events u cb) = l.
Proof. unfold rx_drain_events. destruct (rx_fifo u), cb; done. Qed.

(** The handler's effect on the latch, the trace and the counters. *)
Lemma rx_irq_handler_effect (n : nat) (st : drv) (u : uart_hw) (r : Z) :
  (n < NUM_UARTS)%nat -> uart st !! n = Some u -> receiving st !! n = Some r -> latch r ->
  let es := rx_events u (mjoin (rx_callback st !! n)) r in
  exists st', rx_irq_handler n st = Some st' /\
    receiving st' = <[n := latch_after u r]> (receiving st) /\
    trace st' = trace st ++ es /\
    llwu st' = apply_evs (llwu st) es /\
    rx_callback st' = rx_callback st.
Proof.
  intros Hn Hu Hr Hl es.
  assert (n < length (uart st))%nat by (eapply lookup_lt_Some; eauto).
  unfold rx_irq_handler. rewrite bool_decide_true by done. rewrite Hu. simpl.
  rewrite (rx_drain_eq _ _ _ Hu). simpl. rewrite list_lookup_insert_eq by done. simpl.
  set (st1 := mk_drv _ _ _ _ _).
  destruct (rx_idle_check_spec n (drained u) st1 r Hr Hl) as (Hu2 & Hc2 & Hr2 & Ht2 & Hl2).
  rewrite Hu2. simpl. rewrite list_lookup_insert_eq by done. simpl.
  eexists; split; [done|].
  assert (receiving (rx_idle_check n (drained u) st1) !! n = Some (latch_after_idle u r)) as Hr3.
  { rewrite Hr2. unfold latch_after_idle, raf_idle. rewrite drained_s2.
    apply list_lookup_insert_eq. eapply lookup_lt_Some; eauto. }
  assert (latch (latch_after_idle u r)) as Hl3
    by (unfold latch_after_idle; destruct (raf_idle u); [left|]; done).
  destruct (rx_edge_check_spec n (drained u) _ _ Hr3 Hl3)
    as (Hc4 & Hr4 & Ht4 & Hl4).
  unfold rx_edge, raf_idle in *. rewrite !drained_s2 in *. fold (rx_edge u) (raf_idle u) in *.
  unfold latch_after, latch_after_idle. split; [|split; [|split]].
  - rewrite Hr4, Hr2. simpl. rewrite list_insert_insert_eq. by destruct (rx_edge u).
  - rewrite Ht4, Ht2. simpl. subst es. unfold rx_events, latch_after_idle.
    rewrite <- !app_assoc. done.
  - rewrite Hl4, Hl2. simpl. subst es. unfold rx_events, latch_after_idle.
    rewrite !apply_evs_app, apply_evs_callbacks. done.
  - rewrite Hc4, Hc2. done.
Qed.

(** ** The STOP-inhibit pairing invariant *)

(** Inhibits minus uninhibits of the STOP counter in a trace. *)
Definition ev_weight (e : drv_event) : Z :=
  match e with
  | EvInhibit Llwu.InhStop => 1
  | EvUninhibit Llwu.InhStop => -1
  | _ => 0
  end.
Definition stop_balance (t : list drv_event) : Z := sumZ (map ev_weight t).

(** The invariant of the receive path: the STOP counter is [base] (the
    other subsystems' share) plus one per UART whose latch is set, the
    trace pairs every uninhibit with an earlier inhibit in the same way,
    and the counter cannot wrap. *)
Record rx_inv (base : Z) (st : drv) : Prop := {
  inv_uart_len : length (uart st) = NUM_UARTS;
  inv_recv_len : length (receiving st) = NUM_UARTS;
  inv_latch : Forall latch (receiving st);
  inv_sema : Llwu.sema Llwu.InhStop (llwu st) = base + sumZ (receiving st);
  inv_balance : stop_balance (trace st) = sumZ (receiving st);
  inv_base : 0 <= base /\ base + Z.of_nat NUM_UARTS < 2 ^ 32 - 1
}.

Lemma stop_balance_snoc (t : list drv_event) (e : drv_event) :
  stop_balance (t ++ [e]) = stop_balance t + ev_weight e.
Proof. unfold stop_balance, sumZ. rewrite map_app, foldr_app. simpl. induction (map ev_weight t); simpl; lia. Qed.

Lemma latch_sum_bounds (l : list Z) :
  Forall latch l -> 0 <= sumZ l <= Z.of_nat (length l).
Proof.
  intros Hl. pose proof (sumZ_bounds l 0 1) as Hb.
  assert (Forall (fun z => 0 <= z <= 1) l) as Hr
    by (eapply Forall_impl; [exact Hl | unfold latch; lia]).
  specialize (Hb Hr). lia.
Qed.

(** A list of latches sums to 0 exactly when every latch is clear. *)
Lemma latch_sum_zero (l : list Z) :
  Forall latch l -> sumZ l = 0 <-> Forall (fun r => r = 0) l.
Proof.
  intros Hl. split; [|apply sumZ_zeros].
  induction Hl as [|x l Hx Hl IH]; intros Hs; constructor; unfold sumZ in *; simpl in Hs;
    pose proof (latch_sum_bounds l Hl) as Hb; unfold sumZ in Hb; unfold latch in Hx;
    [lia | apply IH; lia].
Qed.

Lemma latch_lookup (l : list Z) (n : nat) (r : Z) :
  Forall latch l -> l !! n = Some r -> latch r.
Proof. intros Hl Hn. rewrite Forall_lookup in Hl. eauto. Qed.

Lemma uart_lookup (base : Z) (st : drv) (n : nat) :
  rx_inv base st -> (n < NUM_UARTS)%nat -> is_Some (uart st !! n).
Proof. intros Hi Hn. apply lookup_lt_is_Some. rewrite (inv_uart_len _ _ Hi). done. Qed.

Lemma recv_lookup (base : Z) (st : drv) (n : nat) :
  rx_inv base st -> (n < NUM_UARTS)%nat -> exists r, receiving st !! n = Some r /\ latch r.
Proof.
  intros Hi Hn. destruct (lookup_lt_is_Some_2 (receiving st) n) as [r Hr];
    [rewrite (inv_recv_len _ _ Hi); done|].
  exists r. split; [done | eapply latch_lookup; [apply Hi | done]].
Qed.

#[local] Hint Resolve inv_uart_len inv_recv_len inv_latch : k60.

(** Writing a register file keeps the invariant. *)
Lemma rx_inv_set_uart (base : Z) (st : drv) (n : nat) (u : uart_hw) :
  rx_inv base st -> rx_inv base (set_uart n u st).
Proof. intros []. split; simpl; rewrite ?length_insert; done. Qed.

(** Emitting an event that does not touch the STOP counter keeps it. *)
Lemma rx_inv_emit (base : Z) (st : drv) (e : drv_event) :
  ev_weight e = 0 -> rx_inv base st -> rx_inv base (emit e st).
Proof. intros He []. split; simpl; rewrite ?stop_balance_snoc; try lia; done. Qed.

Lemma rx_drain_inv (base : Z) (st : drv) (n : nat) (u : uart_hw) :
  rx_inv base st -> rx_inv base (rx_drain n u st).
Proof.
  intros Hi. unfold rx_drain. case_bool_decide; [|done].
  destruct (read_D u) as [c u']. destruct (mjoin _);
    [apply rx_inv_emit; [done|] |]; by apply rx_inv_set_uart.
Qed.

(** Releasing a set latch: the counter and the balance drop by one. *)
Lemma rx_idle_check_inv (base : Z) (st : drv) (n : nat) (u : uart_hw) :
  rx_inv base st -> (n < NUM_UARTS)%nat -> rx_inv base (rx_idle_check n u st).
Proof.
  intros Hi Hn. destruct (recv_lookup _ _ _ Hi Hn) as (r & Hr & Hl).
  pose proof (latch_sum_bounds _ (inv_latch _ _ Hi)).
  unfold rx_idle_check. rewrite Hr. simpl. case_bool_decide; [|done]. case_bool_decide; [|done].
  assert (r = 1) as -> by (destruct Hl; lia).
  destruct Hi as [Hu Hrl Hla Hs Hb Hbase].
  split; simpl; rewrite ?length_insert, ?stop_balance_snoc, ?(sumZ_insert _ _ 1 0 Hr); try done.
  - apply Forall_insert; [done | left; done].
  - rewrite Llwu.sema_uninhibit, Hs. simpl. rewrite u32_pred; [lia|].
    assert (1 <= sumZ (receiving st)).
    { apply (sumZ_lookup_le _ n); [|done]. eapply Forall_impl; [exact Hla|]. unfold latch; lia. }
    rewrite Hrl in *. unfold NUM_UARTS in *. lia.
  - simpl. lia.
Qed.

(** Setting a clear latch: the counter and the balance rise by one,
    without wrapping. *)
Lemma rx_edge_check_inv (base : Z) (st : drv) (n : nat) (u : uart_hw) :
  rx_inv base st -> (n < NUM_UARTS)%nat -> rx_inv base (rx_edge_check n u st).
Proof.
  intros Hi Hn. destruct (recv_lookup _ _ _ Hi Hn) as (r & Hr & Hl).
  pose proof (latch_sum_bounds _ (inv_latch _ _ Hi)).
  unfold rx_edge_check. rewrite Hr. simpl. case_bool_decide; [|done].
  apply rx_inv_set_uart. case_bool_decide; [|done]. subst r.
  destruct Hi as [Hu Hrl Hla Hs Hb Hbase].
  split; simpl; rewrite ?length_insert, ?stop_balance_snoc, ?(sumZ_insert _ _ 0 1 Hr); try done.
  - apply Forall_insert; [done | right; done].
  - rewrite Llwu.sema_inhibit, Hs. rewrite u32_succ; [lia|].
    rewrite Hrl in *. unfold NUM_UARTS in *. lia.
  - simpl. lia.
Qed.

(** The handler runs to completion on every UART and keeps the
    invariant. *)
Theorem rx_irq_handler_inv (base : Z) (st : drv) (n : nat) :
  rx_inv base st -> (n < NUM_UARTS)%nat ->
  exists st', rx_irq_handler n st = Some st' /\ rx_inv base st'.
Proof.
  intros Hi Hn. unfold rx_irq_handler. rewrite bool_decide_true by done.
  destruct (uart_lookup _ _ _ Hi Hn) as [u0 ->]. simpl.
  pose proof (rx_drain_inv _ _ n u0 Hi) as Hi1.
  destruct (uart_lookup _ _ _ Hi1 Hn) as [u1 ->]. simpl.
  pose proof (rx_idle_check_inv _ _ n u1 Hi1 Hn) as Hi2.
  destruct (uart_lookup _ _ _ Hi2 Hn) as [u2 ->]. simpl.
  eexists; split; [done|]. by apply rx_edge_check_inv.
Qed.

(** The LLS counter is another counter: its updates keep the invariant. *)
(** A change of the counters that leaves STOP alone keeps the invariant. *)
Lemma rx_inv_set_llwu (base : Z) (st : drv) (l : S) :
  Llwu.sema Llwu.InhStop l = Llwu.sema Llwu.InhStop (llwu st) -> rx_inv base st -> rx_inv base (set_llwu l st).
Proof. intros Hf Hi. destruct Hi; split; simpl; try rewrite Hf; done. Qed.

(** Another subsystem's STOP inhibit or release moves the base by as
    much as it moves the counter. *)
Lemma rx_inv_rebase (base base' : Z) (st : drv) (l : S) :
  Llwu.sema Llwu.InhStop l = Llwu.sema Llwu.InhStop (llwu st) + (base' - base) ->
  0 <= base' -> base' + Z.of_nat NUM_UARTS < 2 ^ 32 - 1 ->
  rx_inv base st -> rx_inv base' (set_llwu l st).
Proof.
  intros Hf Hb0 Hb1 [? ? ? Hs ? ?]. split; simpl; try done; lia.
Qed.

Lemma rx_inv_lls (base : Z) (st : drv) (f : S -> S) (e : drv_event) :
  Llwu.sema Llwu.InhStop (f (llwu st)) = Llwu.sema Llwu.InhStop (llwu st) ->
  ev_weight e = 0 -> rx_inv base st -> rx_inv base (emit e (set_llwu (f (llwu st)) st)).
Proof. intros Hf He Hi. apply rx_inv_emit; [done|]. by apply rx_inv_set_llwu. Qed.

Lemma drv_step_inv (base : Z) (st st' : drv) :
  drv_step st st' -> rx_inv base st -> rx_inv base st'.
Proof.
  intros Hs Hi. destruct Hs as [n st st' Hst|n u st Hn|n cb st st' Hst|n st st' Hst|n st st' Hst
    |conf ck n clk baud y y' st st' Hst|n ch reads reads' st st' Hst].
  - destruct (decide (n < NUM_UARTS)%nat) as [Hn|Hn].
    + destruct (rx_irq_handler_inv base st n Hi Hn) as (st'' & Hst' & Hi'). congruence.
    + unfold rx_irq_handler in Hst. rewrite bool_decide_false in Hst by done. discriminate.
  - by apply rx_inv_set_uart.
  - unfold uart_set_rx_callback in Hst. case_bool_decide; [|discriminate].
    injection Hst as <-. destruct Hi; split; done.
  - unfold uart_enable_rx_interrupt in Hst. case_bool_decide; [|discriminate].
    destruct (uart st !! n); simpl in Hst; [|discriminate]. injection Hst as <-.
    apply rx_inv_lls; [apply Llwu.sema_inhibit_other; done | done | by apply rx_inv_set_uart].
  - unfold uart_disable_rx_interrupt in Hst. case_bool_decide; [|discriminate].
    destruct (uart st !! n); simpl in Hst; [|discriminate]. injection Hst as <-.
    apply rx_inv_lls; [apply Llwu.sema_uninhibit_other; done | done | by apply rx_inv_set_uart].
  - unfold uart_init in Hst. case_bool_decide; [|discriminate].
    destruct (uart st !! n); simpl in Hst; [|discriminate].
    destruct (uart_module_clock ck n clk); [discriminate|].
    destruct (Z.eqb baud 0); [discriminate|]. injection Hst as _ <-. by apply rx_inv_set_uart.
  - unfold uart_putchar in Hst. case_bool_decide; [|discriminate].
    destruct (uart st !! n); simpl in Hst; [|discriminate].
    destruct (wait_bit _ reads); simpl in Hst; [|discriminate].
    destruct (wait_bit _ _); simpl in Hst; [|discriminate]. injection Hst as <- _.
    apply rx_inv_emit; [done|]. by apply rx_inv_set_uart.
Qed.

(** Every step changes the counters by a list of inhibits and uninhibits
    (and so by the interface's operations only). *)
Lemma drv_step_llwu (base : Z) (st st' : drv) :
  rx_inv base st -> drv_step st st' -> exists es, llwu st' = apply_evs (llwu st) es.
Proof.
  intros Hi Hs. destruct Hs as [n st st' Hst|n u st Hn|n cb st st' Hst|n st st' Hst|n st st' Hst
    |conf ck n clk baud y y' st st' Hst|n ch reads reads' st st' Hst].
  - destruct (decide (n < NUM_UARTS)%nat) as [Hn|Hn];
      [|unfold rx_irq_handler in Hst; rewrite bool_decide_false in Hst by done; discriminate].
    destruct (uart_lookup _ _ _ Hi Hn) as [u Hu]. destruct (recv_lookup _ _ _ Hi Hn) as (r & Hr & Hl).
    destruct (rx_irq_handler_effect n st u r Hn Hu Hr Hl) as (st'' & Hh & _ & _ & Hll & _).
    rewrite Hst in Hh. injection Hh as <-. eauto.
  - by exists [].
  - unfold uart_set_rx_callback in Hst. case_bool_decide; [|discriminate].
    injection Hst as <-. by exists [].
  - unfold uart_enable_rx_interrupt in Hst. case_bool_decide; [|discriminate].
    destruct (uart st !! n); simpl in Hst; [|discriminate]. injection Hst as <-.
    by exists [EvInhibit Llwu.InhLls].
  - unfold uart_disable_rx_interrupt in Hst. case_bool_decide; [|discriminate].
    destruct (uart st !! n); simpl in Hst; [|discriminate]. injection Hst as <-.
    by exists [EvUninhibit Llwu.InhLls].
  - unfold uart_init in Hst. case_bool_decide; [|discriminate].
    destruct (uart st !! n); simpl in Hst; [|discriminate].
    destruct (uart_module_clock ck n clk); [discriminate|].
    destruct (Z.eqb baud 0); [discriminate|]. injection Hst as _ <-. by exists [].
  - unfold uart_putchar in Hst. case_bool_decide; [|discriminate].
    destruct (uart st !! n); simpl in Hst; [|discriminate].
    destruct (wait_bit _ reads); simpl in Hst; [|discriminate].
    destruct (wait_bit _ _); simpl in Hst; [|discriminate]. injection Hst as <- _. by exists [].
Qed.

(** C3: The pairing invariant holds in every reachable state: the STOP
    counter exceeds the other subsystems' share by exactly the number of
    UARTs in the receiving state (never more than one per UART), and so
    do the inhibits issued by the driver exceed its uninhibits. *)
Theorem rx_inv_reachable (base : Z) (st st' : drv) :
  rx_inv base st -> rtc drv_step st st' ->
  rx_inv base st' /\
  base <= Llwu.sema Llwu.InhStop (llwu st') <= base + Z.of_nat NUM_UARTS.
Proof.
  intros Hi Hr. induction Hr as [st|st st1 st2 Hs _ IH].
  - split; [done|]. pose proof (latch_sum_bounds _ (inv_latch _ _ Hi)).
    rewrite (inv_sema _ _ Hi), (inv_recv_len _ _ Hi) in *. lia.
  - apply IH. by apply (drv_step_inv _ st).
Qed.

(** ** Release of the STOP inhibits *)

(** The registers of a UART whose line went idle: [RAF] clear, no RX edge
    pending. *)
Definition line_idle (u : uart_hw) : uart_hw :=
  mk_hw (bdh u) (bdl u) (c1 u) (c2 u) (c4 u) 0 (pfifo u) (twfifo u) (rwfifo u) (rx_fifo u) (tx_out u).

(** The line of UART [n] goes idle, then its interrupt runs: the latch
    drops to 0. *)
Lemma rx_release_one (base : Z) (st : drv) (n : nat) :
  rx_inv base st -> (n < NUM_UARTS)%nat ->
  exists st', rtc drv_step st st' /\ rx_inv base st' /\ receiving st' = <[n := 0]> (receiving st).
Proof.
  intros Hi Hn. destruct (uart_lookup _ _ _ Hi Hn) as [u Hu].
  destruct (recv_lookup _ _ _ Hi Hn) as (r & Hr & Hl).
  assert (rx_inv base (set_uart n (line_idle u) st)) as Hi1 by (by apply rx_inv_set_uart).
  assert (uart (set_uart n (line_idle u) st) !! n = Some (line_idle u)) as Hu1
    by (apply list_lookup_insert_eq; eapply lookup_lt_Some; eauto).
  destruct (rx_irq_handler_effect n _ (line_idle u) r Hn Hu1 Hr Hl) as (st' & Hh & Hrec & _).
  exists st'. split; [|split].
  - eapply rtc_l; [apply (StepLine n (line_idle u) st Hn)|]. apply rtc_once. by apply (StepIrq n).
  - eapply drv_step_inv; [apply (StepIrq n); exact Hh | exact Hi1].
  - rewrite Hrec. reflexivity.
Qed.

(** The first [k] UARTs, one after the other. *)
Lemma rx_release_upto (base : Z) (st : drv) (k : nat) :
  rx_inv base st -> (k <= NUM_UARTS)%nat ->
  exists st', rtc drv_step st st' /\ rx_inv base st' /\ forall n, (n < k)%nat -> receiving st' !! n = Some 0.
Proof.
  intros Hi. induction k as [|k IH]; intros Hk.
  - exists st. split; [done|]. split; [done|]. lia.
  - destruct IH as (st1 & Hr1 & Hi1 & H1); [lia|].
    destruct (rx_release_one base st1 k Hi1) as (st2 & Hr2 & Hi2 & E); [lia|].
    exists st2. split; [by etrans|]. split; [done|].
    intros n Hn. rewrite E. destruct (decide (n = k)) as [->|].
    + apply list_lookup_insert_eq. rewrite (inv_recv_len _ _ Hi1). lia.
    + rewrite list_lookup_insert_ne by done. apply H1. lia.
Qed.

(** The STOP inhibits of the receive path are always released: from
    any state satisfying the pairing invariant, the lines going idle and
    one receive interrupt per UART reach a state where every [receiving]
    latch is 0 and the STOP counter is back to the other subsystems'
    share [base], so the core may enter STOP again. *)
Lemma rx_release_reachable (base : Z) (st : drv) :
  rx_inv base st ->
  exists st', rtc drv_step st st' /\ rx_inv base st' /\ Forall (fun r => r = 0) (receiving st') /\
    Llwu.sema Llwu.InhStop (llwu st') = base.
Proof.
  intros Hi. destruct (rx_release_upto base st NUM_UARTS Hi) as (st' & Hr & Hi' & Hz0); [done|].
  assert (Forall (fun r => r = 0) (receiving st')) as Hz.
  { apply Forall_lookup. intros n r Hn.
    assert (n < NUM_UARTS)%nat by (rewrite <- (inv_recv_len _ _ Hi'); eapply lookup_lt_Some; eauto).
    rewrite Hz0 in Hn by done. congruence. }
  exists st'. split; [done|]. split; [done|]. split; [done|].
  rewrite (inv_sema _ _ Hi'), sumZ_zeros by done. lia.
Qed.

(** ** Consequences of the handler's specification *)

Lemma apply_evs_drain_only (l : S) (u : uart_hw) (cb : option nat) (r : Z) :
  raf_idle u = false -> latch_after_idle u r <> 0 ->
  apply_evs l (rx_events u cb r) = l.
Proof.
  intros Hraf Hr. unfold rx_events. rewrite Hraf. simpl.
  rewrite (bool_decide_false (latch_after_idle u r = 0)) by done.
  rewrite andb_false_r. simpl. rewrite app_nil_r. apply apply_evs_callbacks.
Qed.

(** C6: Idempotence: while a UART is receiving (latch set, RAF set), an
    interrupt, with or without a new edge, leaves the latch and every
    counter unchanged: repeated edges never count twice. *)
Theorem rx_edge_idempotent (n : nat) (st : drv) (u : uart_hw) :
  (n < NUM_UARTS)%nat -> uart st !! n = Some u -> receiving st !! n = Some 1 ->
  raf_idle u = false ->
  exists st', rx_irq_handler n st = Some st' /\ llwu st' = llwu st /\ receiving st' = receiving st.
Proof.
  intros Hn Hu Hr Hraf.
  destruct (rx_irq_handler_effect n st u 1 Hn Hu Hr (or_intror eq_refl)) as (st' & H1 & H2 & _ & H4 & _).
  exists st'. split; [done|]. split.
  - rewrite H4. apply apply_evs_drain_only; [done|]. unfold latch_after_idle. rewrite Hraf. lia.
  - rewrite H2, list_insert_id; [done|]. unfold latch_after, latch_after_idle. rewrite Hraf.
    by destruct (rx_edge u).
Qed.

Lemma apply_evs_after_drain (l : S) (u : uart_hw) (cb : option nat) (es : list drv_event) :
  apply_evs l (rx_drain_events u cb ++ es) = apply_evs l es.
Proof. rewrite apply_evs_app, apply_evs_callbacks. done. Qed.

(** The handler writes only register files that exist. *)
Lemma rx_irq_handler_uart_length (n : nat) (st st' : drv) :
  rx_irq_handler n st = Some st' -> length (uart st') = length (uart st).
Proof.
  unfold rx_irq_handler. case_bool_decide; [|discriminate].
  destruct (uart st !! n) as [u0|]; simpl; [|discriminate].
  assert (length (uart (rx_drain n u0 st)) = length (uart st)) as E1.
  { unfold rx_drain. case_bool_decide; [|done]. destruct (read_D u0).
    destruct (mjoin _); simpl; apply length_insert. }
  destruct (uart (rx_drain n u0 st) !! n) as [u1|]; simpl; [|discriminate].
  assert (uart (rx_idle_check n u1 (rx_drain n u0 st)) = uart (rx_drain n u0 st)) as E2
    by (unfold rx_idle_check; repeat case_bool_decide; done).
  rewrite E2. destruct (uart (rx_drain n u0 st) !! n) as [u2|]; simpl; [|discriminate].
  intros [= <-]. unfold rx_edge_check. case_bool_decide; [|rewrite E2; done].
  simpl. rewrite length_insert.
  case_bool_decide; simpl; rewrite E2; done.
Qed.

(** The register file the handler leaves: one byte popped from the RX
    FIFO if there was one, and the RX edge flag cleared if it was set. *)
Lemma rx_irq_handler_regs (n : nat) (st st' : drv) (u : uart_hw) :
  rx_irq_handler n st = Some st' -> uart st !! n = Some u ->
  uart st' = <[n := if rx_edge u then set_s2 UART_S2_RXEDGIF_MASK (drained u) else drained u]> (uart st).
Proof.
  unfold rx_irq_handler. case_bool_decide; [|discriminate]. intros Hh Hu. rewrite Hu in Hh.
  simpl in Hh. rewrite (rx_drain_eq _ _ _ Hu) in Hh. simpl in Hh.
  rewrite list_lookup_insert_eq in Hh by (eapply lookup_lt_Some; eauto). simpl in Hh.
  assert (uart (rx_idle_check n (drained u) (mk_drv (llwu st) (<[n:=drained u]> (uart st))
            (rx_callback st) (receiving st) (trace st ++ rx_drain_events u (mjoin (rx_callback st !! n)))))
          = <[n:=drained u]> (uart st)) as E by (unfold rx_idle_check; repeat case_bool_decide; done).
  rewrite E in Hh. rewrite list_lookup_insert_eq in Hh by (eapply lookup_lt_Some; eauto).
  simpl in Hh. injection Hh as <-. unfold rx_edge_check, rx_edge. rewrite drained_s2.
  case_bool_decide; [|simpl; rewrite E; done].
  case_bool_decide; simpl; rewrite E, list_insert_insert_eq; done.
Qed.

(** C5: The functional behaviour of [rx_irq_handler] on every branch: the
    oldest received byte (if any) is popped from the FIFO and handed to
    the callback (if any), the RX edge flag is cleared if set, the latch
    ends as [latch_after], the trace grows by [rx_events], and the
    counters change exactly by the inhibits and uninhibits of those
    events. *)
Theorem rx_irq_handler_spec (n : nat) (st : drv) (u : uart_hw) (r : Z) :
  (n < NUM_UARTS)%nat -> uart st !! n = Some u -> receiving st !! n = Some r -> latch r ->
  let es := rx_events u (mjoin (rx_callback st !! n)) r in
  exists st', rx_irq_handler n st = Some st' /\
    uart st' !! n = Some (if rx_edge u then set_s2 UART_S2_RXEDGIF_MASK (drained u) else drained u) /\
    receiving st' = <[n := latch_after u r]> (receiving st) /\
    trace st' = trace st ++ es /\
    llwu st' = apply_evs (llwu st) es.
Proof.
  intros Hn Hu Hr Hl es.
  destruct (rx_irq_handler_effect n st u r Hn Hu Hr Hl) as (st' & Hh & Hr' & Ht & Hll & _).
  exists st'. split; [done|]. split; [|done].
  rewrite (rx_irq_handler_regs _ _ _ _ Hh Hu). apply list_lookup_insert_eq.
  eapply lookup_lt_Some; eauto.
Qed.

(** C7: The Idle -> Receiving -> Idle round trip: an edge on an active line
    inhibits STOP once; when the line has gone idle (and no new edge is
    flagged) the next interrupt uninhibits it once; the driver issues
    nothing else but the callbacks of the bytes drained, and the counter
    is back at its value. *)
Theorem rx_round_trip (n : nat) (st : drv) (u1 u2 : uart_hw) :
  (n < NUM_UARTS)%nat -> uart st !! n = Some u1 -> receiving st !! n = Some 0 ->
  rx_edge u1 = true -> raf_idle u1 = false -> rx_edge u2 = false -> raf_idle u2 = true ->
  0 <= Llwu.sema Llwu.InhStop (llwu st) < 2 ^ 32 - 1 ->
  let cb := mjoin (rx_callback st !! n) in
  exists st1 st2,
    rx_irq_handler n st = Some st1 /\ receiving st1 !! n = Some 1 /\
    Llwu.sema Llwu.InhStop (llwu st1) = Llwu.sema Llwu.InhStop (llwu st) + 1 /\
    rx_irq_handler n (set_uart n u2 st1) = Some st2 /\ receiving st2 !! n = Some 0 /\
    Llwu.sema Llwu.InhStop (llwu st2) = Llwu.sema Llwu.InhStop (llwu st) /\
    trace st2 = trace st ++ rx_drain_events u1 cb ++ [EvInhibit Llwu.InhStop] ++
                rx_drain_events u2 cb ++ [EvUninhibit Llwu.InhStop].
Proof.
  intros Hn Hu Hr He1 Hi1 He2 Hi2 Hs cb.
  assert (n < length (receiving st))%nat by (eapply lookup_lt_Some; eauto).
  assert (n < length (uart st))%nat by (eapply lookup_lt_Some; eauto).
  destruct (rx_irq_handler_effect n st u1 0 Hn Hu Hr (or_introl eq_refl))
    as (st1 & Hh1 & Hr1 & Ht1 & Hl1 & Hc1).
  pose proof (rx_irq_handler_uart_length _ _ _ Hh1) as Hlen1.
  assert (receiving st1 !! n = Some 1) as Hr1'.
  { rewrite Hr1. unfold latch_after. rewrite He1. by apply list_lookup_insert_eq. }
  assert (uart (set_uart n u2 st1) !! n = Some u2) as Hu2
    by (simpl; apply list_lookup_insert_eq; lia).
  destruct (rx_irq_handler_effect n (set_uart n u2 st1) u2 1 Hn Hu2 Hr1' (or_intror eq_refl))
    as (st2 & Hh2 & Hr2 & Ht2 & Hl2 & Hc2).
  simpl in *. rewrite Hc1 in Ht2, Hl2. fold cb in Ht1, Hl1, Ht2, Hl2.
  unfold rx_events, latch_after, latch_after_idle in *.
  rewrite He1, Hi1, He2, Hi2 in *. simpl in *.
  exists st1, st2. split; [done|]. split; [done|].
  rewrite Hl1, apply_evs_after_drain. simpl. rewrite Llwu.sema_inhibit, u32_succ by lia.
  split; [done|]. split; [done|].
  split; [rewrite Hr2; apply list_lookup_insert_eq; by eapply lookup_lt_Some|].
  rewrite Hl2, apply_evs_after_drain, Hl1, apply_evs_after_drain. simpl.
  rewrite Llwu.sema_uninhibit, Llwu.sema_inhibit, u32_succ, u32_pred by lia.
  split; [lia|].
  rewrite Ht2, Ht1, ?app_nil_r, <- !app_assoc. done.
Qed.

(** C23: An edge flagged while the receiver is already idle (a glitch, or a
    byte completed before the handler ran) sets the latch and inhibits
    STOP: the idle check runs before the edge check, so the release waits
    for the next receive interrupt of that UART. *)
Theorem rx_edge_on_idle_line_latches (n : nat) (st : drv) (u : uart_hw) :
  (n < NUM_UARTS)%nat -> uart st !! n = Some u -> receiving st !! n = Some 0 ->
  rx_edge u = true -> raf_idle u = true ->
  exists st', rx_irq_handler n st = Some st' /\ receiving st' !! n = Some 1 /\
    llwu st' = Llwu.inhibit Llwu.InhStop (llwu st).
Proof.
  intros Hn Hu Hr He Hi.
  assert (n < length (receiving st))%nat by (eapply lookup_lt_Some; eauto).
  destruct (rx_irq_handler_effect n st u 0 Hn Hu Hr (or_introl eq_refl))
    as (st' & Hh & Hr' & _ & Hl & _).
  exists st'. split; [done|]. unfold latch_after, rx_events, latch_after_idle in *.
  rewrite He, Hi in *. simpl in *. split; [rewrite Hr'; by apply list_lookup_insert_eq|].
  rewrite Hl, apply_evs_after_drain. done.
Qed.

(** ** Properties of receive control *)

Lemma sema_llwu_uninhibit_lls (st : drv) (n : nat) (st' : drv) :
  uart_disable_rx_interrupt n st = Some st' ->
  Llwu.sema Llwu.InhLls (llwu st') = u32 (Llwu.sema Llwu.InhLls (llwu st) - 1).
Proof.
  unfold uart_disable_rx_interrupt. case_bool_decide; [|discriminate].
  destruct (uart st !! n); simpl; [|discriminate]. intros [= <-]. simpl.
  apply Llwu.sema_uninhibit.
Qed.

(** C24: Enabling then disabling reception of a UART raises and releases the
    LLS inhibit once, and leaves the receiver, its interrupt and its edge
    detection off. *)
Theorem uart_rx_interrupt_lls_pairing (n : nat) (st : drv) :
  (n < NUM_UARTS)%nat -> is_Some (uart st !! n) ->
  0 <= Llwu.sema Llwu.InhLls (llwu st) < 2 ^ 32 - 1 ->
  exists st1 st2 u1 u2,
    uart_enable_rx_interrupt n st = Some st1 /\ uart_disable_rx_interrupt n st1 = Some st2 /\
    Llwu.sema Llwu.InhLls (llwu st1) = Llwu.sema Llwu.InhLls (llwu st) + 1 /\
    Llwu.sema Llwu.InhLls (llwu st2) = Llwu.sema Llwu.InhLls (llwu st) /\
    uart st1 !! n = Some u1 /\ uart st2 !! n = Some u2 /\
    Z.testbit (c2 u1) 5 = true /\ Z.testbit (c2 u1) 2 = true /\ Z.testbit (bdh u1) 6 = true /\
    Z.testbit (c2 u2) 5 = false /\ Z.testbit (c2 u2) 2 = false /\ Z.testbit (bdh u2) 6 = false.
Proof.
  intros Hn [u Hu] Hs.
  assert (n < length (uart st))%nat by (eapply lookup_lt_Some; eauto).
  unfold uart_enable_rx_interrupt, uart_disable_rx_interrupt.
  rewrite !bool_decide_true by done. rewrite Hu. cbn -[Z.testbit u32].
  do 4 eexists. split; [reflexivity|]. cbn -[Z.testbit u32]. rewrite list_lookup_insert_eq by done.
  split; [reflexivity|]. cbn -[Z.testbit u32].
  rewrite Llwu.sema_uninhibit, Llwu.sema_inhibit, u32_succ, u32_pred by lia.
  split; [done|]. split; [lia|]. split; [reflexivity|].
  split; [rewrite list_insert_insert_eq; apply list_lookup_insert_eq; done|].
  cbn [c2 bdh with_c2 with_bdh].
  rewrite !testbit_reg_clear, !testbit_reg_set by lia.
  unfold UART_C2_RIE_MASK, UART_C2_RE_MASK, UART_BDH_RXEDGIE_MASK.
  change (Z.testbit 32 5) with true. change (Z.testbit 4 2) with true.
  change (Z.testbit 64 6) with true. change (Z.testbit 4 5) with false.
  change (Z.testbit 32 2) with false.
  rewrite ?andb_false_r, ?orb_true_r, ?orb_false_r, ?andb_true_r. done.
Qed.

(** C25: A disable with no matching enable (LLS counter at zero) wraps the
    counter to 2^32 - 1: LLS stays forbidden until four billion enables. *)
Theorem uart_disable_rx_underflow (n : nat) (st st' : drv) :
  Llwu.sema Llwu.InhLls (llwu st) = 0 -> uart_disable_rx_interrupt n st = Some st' ->
  Llwu.sema Llwu.InhLls (llwu st') = 2 ^ 32 - 1.
Proof. intros Hz Hd. rewrite (sema_llwu_uninhibit_lls _ _ _ Hd), Hz. reflexivity. Qed.

(** ** Properties of the baud-rate setting *)

(** The divisor [uart_init] programs reads back as the 13-bit SBR and the
    5-bit BRFA it computed: SBR bits above the 13th are lost. *)
Lemma uart_write_baud_div32 (sbr brfa : Z) (u : uart_hw) :
  programmed_div32 (uart_write_baud sbr brfa u) = 32 * (sbr mod 2 ^ 13) + Z.land brfa 31.
Proof.
  unfold programmed_div32, uart_write_baud. simpl.
  unfold UART_BDH_SBR_MASK, UART_BDL_SBR_MASK, UART_C4_BRFA_MASK.
  change 31 with (Z.ones 5). change 255 with (Z.ones 8).
  rewrite !field_write_low, field_write_full by lia.
  rewrite split_13_join. done.
Qed.

Lemma uart_init_regs_div32 (sbr brfa : Z) (u : uart_hw) :
  programmed_div32 (uart_init_regs sbr brfa u) = 32 * (sbr mod 2 ^ 13) + Z.land brfa 31.
Proof. rewrite <- (uart_write_baud_div32 sbr brfa (with_c1 0 (with_c2 (reg_clear (c2 u) (Z.lor UART_C2_TE_MASK UART_C2_RE_MASK)) u))). reflexivity. Qed.

(** The divisor in 32nds, rounded, is within half a 32nd of the exact
    one [2 clk / baud]. *)
Lemma baud_div32_error (clk baud : Z) :
  0 < baud -> 0 <= clk -> Z.abs (4 * clk - 2 * baud * baud_div32 clk baud) <= baud.
Proof.
  intros Hb Hc. unfold baud_div32.
  pose proof (Z.div_mod (4 * clk) baud ltac:(lia)) as Hq.
  pose proof (Z.mod_pos_bound (4 * clk) baud Hb) as Hr.
  set (q := 4 * clk / baud) in *. set (r := (4 * clk) mod baud) in *.
  pose proof (Z.div_mod (q + 1) 2 ltac:(lia)) as Hd.
  pose proof (Z.mod_pos_bound (q + 1) 2 ltac:(lia)).
  set (d := (q + 1) / 2) in *.
  assert (2 * d = q \/ 2 * d = q + 1) as [Hd2|Hd2] by lia;
    replace (2 * baud * d) with (baud * (2 * d)) by ring; rewrite Hd2; nia.
Qed.

(** [UART_SBR] is the exact divisor rounded to the nearest integer. *)
Lemma UART_SBR_round (clk baud : Z) :
  0 < baud ->
  32 * baud * UART_SBR clk baud - 16 * baud <= 2 * clk < 32 * baud * UART_SBR clk baud + 16 * baud.
Proof.
  intros Hb. unfold UART_SBR.
  pose proof (Z.div_mod (2 * clk + 16 * baud) (32 * baud) ltac:(lia)).
  pose proof (Z.mod_pos_bound (2 * clk + 16 * baud) (32 * baud) ltac:(lia)). lia.
Qed.

(** The fine adjust is between 0 and 16 32nds: it always fits [C4_BRFA]. *)
Lemma UART_BRFA_range (clk baud : Z) :
  0 < baud -> 0 <= clk -> 0 <= UART_BRFA clk baud <= 16.
Proof.
  intros Hb Hc. pose proof (baud_div32_error clk baud Hb Hc).
  pose proof (UART_SBR_round clk baud Hb). unfold UART_BRFA.
  set (D := baud_div32 clk baud) in *. set (s := UART_SBR clk baud) in *.
  assert (D <= 32 * s + 16) by nia. lia.
Qed.

(** The divisor [SBR + BRFA/32] is within half an integer step of the
    exact one: [|2 clk - baud (32 SBR + BRFA)| <= 16 baud]. *)
Lemma baud_divisor_error (clk baud : Z) :
  0 < baud -> 0 <= clk ->
  Z.abs (2 * clk - baud * (32 * UART_SBR clk baud + UART_BRFA clk baud)) <= 16 * baud.
Proof.
  intros Hb Hc. pose proof (baud_div32_error clk baud Hb Hc).
  pose proof (UART_SBR_round clk baud Hb). unfold UART_BRFA.
  set (D := baud_div32 clk baud) in *. set (s := UART_SBR clk baud) in *.
  destruct (Z.max_spec 0 (D - 32 * s)) as [[? ->]|[? ->]];
    replace (32 * s + (D - 32 * s)) with D by ring; nia.
Qed.

(** The rate the generator produces, clk / (16 (SBR + BRFA/32)), is
    within 3% of the requested rate once SBR is at least 17 (below that a
    divisor rounded up by almost half a step is more than 3% off). *)
Lemma baud_within_3_percent (clk baud : Z) :
  0 < baud -> 0 <= clk -> 17 <= UART_SBR clk baud ->
  100 * Z.abs (2 * clk - baud * (32 * UART_SBR clk baud + UART_BRFA clk baud))
    <= 3 * baud * (32 * UART_SBR clk baud + UART_BRFA clk baud).
Proof.
  intros Hb Hc Hs. pose proof (baud_divisor_error clk baud Hb Hc).
  pose proof (UART_BRFA_range clk baud Hb Hc).
  set (D := 32 * UART_SBR clk baud + UART_BRFA clk baud) in *. nia.
Qed.

(** What [uart_init] programs for every clock and rate: it returns
    normally, and the generator's divisor is the low 13 bits of SBR
    ([uint16_t sbr], then [UART_BDH_SBR(sbr >> 8)] and [BDL]) plus BRFA. *)
Lemma uart_init_div32 (conf : nat -> bool) (ck : clocks) (n : nat) (clk clk' baud : Z)
    (y : sys) (st : drv) (u : uart_hw) :
  (n < NUM_UARTS)%nat -> uart st !! n = Some u -> 0 < baud ->
  uart_module_clock ck n clk = inr clk' -> 0 <= clk' ->
  exists y' st' u', uart_init conf ck n clk baud y st = Some (inr (y', st')) /\
    uart st' !! n = Some u' /\
    programmed_div32 u' = 32 * (UART_SBR clk' baud mod 2 ^ 13) + UART_BRFA clk' baud.
Proof.
  intros Hn Hu Hb Hclk Hc.
  assert (n < length (uart st))%nat by (eapply lookup_lt_Some; eauto).
  unfold uart_init. rewrite bool_decide_true by done. rewrite Hu. simpl. rewrite Hclk.
  rewrite (proj2 (Z.eqb_neq baud 0)) by lia.
  do 3 eexists. split; [reflexivity|]. split; [simpl; apply list_lookup_insert_eq; done|].
  rewrite uart_init_regs_div32. pose proof (UART_BRFA_range clk' baud Hb Hc).
  rewrite (u16_id (UART_BRFA _ _)) by (unfold fits; lia).
  change 31 with (Z.ones 5). rewrite Z.land_ones by lia.
  rewrite (Z.mod_small (UART_BRFA _ _)) by lia. unfold u16, wrap. rewrite Z.mod_mod_divide; [done|]. exists 8. reflexivity.
Qed.

(** C19: After [uart_init] the baud-rate generator runs with the divisor
    [SBR + BRFA/32] of spec 6, hence within 3% of the requested rate,
    whenever SBR lies between 17 and the 13-bit field's limit. *)
Theorem uart_init_baud (conf : nat -> bool) (ck : clocks) (n : nat) (clk clk' baud : Z)
    (y : sys) (st : drv) (u : uart_hw) :
  (n < NUM_UARTS)%nat -> uart st !! n = Some u -> 0 < baud ->
  uart_module_clock ck n clk = inr clk' -> 0 <= clk' ->
  17 <= UART_SBR clk' baud < 2 ^ 13 ->
  exists y' st' u', uart_init conf ck n clk baud y st = Some (inr (y', st')) /\
    uart st' !! n = Some u' /\
    programmed_div32 u' = 32 * UART_SBR clk' baud + UART_BRFA clk' baud /\
    100 * Z.abs (2 * clk' - baud * programmed_div32 u') <= 3 * baud * programmed_div32 u'.
Proof.
  intros Hn Hu Hb Hclk Hc Hs.
  destruct (uart_init_div32 conf ck n clk clk' baud y st u Hn Hu Hb Hclk Hc)
    as (y' & st' & u' & Hi & Hl & Hd).
  rewrite Z.mod_small in Hd by lia.
  exists y', st', u'. do 3 (split; [done|]). rewrite Hd. apply baud_within_3_percent; lia.
Qed.

(** C20: When SBR does not fit its 13-bit field (a slow rate from a fast
    clock) [uart_init] neither traps nor reports it: it programs the low
    13 bits, so the divisor falls short of the rounded one by at least
    [2^13] whole steps less half a step, and the line runs far too fast. *)
Theorem uart_init_sbr_overflow (conf : nat -> bool) (ck : clocks) (n : nat) (clk clk' baud : Z)
    (y : sys) (st : drv) (u : uart_hw) :
  (n < NUM_UARTS)%nat -> uart st !! n = Some u -> 0 < baud ->
  uart_module_clock ck n clk = inr clk' -> 0 <= clk' ->
  2 ^ 13 <= UART_SBR clk' baud ->
  exists y' st' u', uart_init conf ck n clk baud y st = Some (inr (y', st')) /\
    uart st' !! n = Some u' /\
    programmed_div32 u' = 32 * (UART_SBR clk' baud mod 2 ^ 13) + UART_BRFA clk' baud /\
    32 * 2 ^ 13 - 16 <= baud_div32 clk' baud - programmed_div32 u'.
Proof.
  intros Hn Hu Hb Hclk Hc Hs.
  destruct (uart_init_div32 conf ck n clk clk' baud y st u Hn Hu Hb Hclk Hc)
    as (y' & st' & u' & Hi & Hl & Hd).
  exists y', st', u'. do 3 (split; [done|]). rewrite Hd.
  pose proof (baud_div32_error clk' baud Hb Hc). pose proof (UART_SBR_round clk' baud Hb).
  unfold UART_BRFA. set (D := baud_div32 clk' baud) in *. set (s := UART_SBR clk' baud) in *.
  assert (32 * s - 16 <= D) by nia.
  assert (s mod 2 ^ 13 <= s - 2 ^ 13) by (Z.div_mod_to_equations; nia).
  lia.
Qed.

(** [uart_module_enable] gates on the clock of exactly the UART asked
    for, and only for UART0 to UART5. *)
Theorem uart_module_enable_gate (n : nat) (y : sys) :
  (n < NUM_UARTS)%nat ->
  exists y', uart_module_enable n y = inr y' /\ uart_gate n y' = true /\
    (forall m, m <> n -> (m < NUM_UARTS)%nat -> uart_gate m y' = uart_gate m y) /\
    nvic_iser y' = nvic_iser y.
Proof.
  intros Hn. unfold NUM_UARTS in *.
  destruct n as [|[|[|[|[|[|n]]]]]]; try lia; eexists; (split; [reflexivity|]);
    unfold uart_gate, reg_write_bit, SIM_SCGC4_UART0_SHIFT, SIM_SCGC1_UART4_SHIFT;
    cbn [scgc1 scgc4 nvic_iser gate_scgc4 gate_scgc1 reg_write_bit];
    (split; [case_bool_decide; try lia; rewrite Z.setbit_eqb by lia; rewrite Z.eqb_refl; done|]);
    (split; [|done]); intros m Hm Hm6; case_bool_decide;
    rewrite ?Z.setbit_eqb by lia; rewrite ?(proj2 (Z.eqb_neq _ _)) by lia; done.
Qed.

(** An out-of-range UART number hits the debug trap and gates nothing. *)
Lemma uart_module_enable_invalid (n : nat) (y : sys) :
  (NUM_UARTS <= n)%nat -> uart_module_enable n y = inl BREAK_INVALID_PARAM.
Proof. intros Hn. unfold NUM_UARTS in *. do 6 (destruct n as [|n]; [lia|]). done. Qed.

(** C21: UART5 cannot be initialised at "the current module clock"
    ([module_clk_hz] = 0): [uart_init] traps and returns, although the
    UART exists and [uart_module_enable] gates its clock. *)
Theorem uart_init_uart5_current_clock (conf : nat -> bool) (ck : clocks) (baud : Z)
    (y : sys) (st : drv) (u : uart_hw) :
  uart st !! 5%nat = Some u ->
  uart_init conf ck 5 0 baud y st = Some (inl BREAK_INVALID_PARAM) /\
  exists y', uart_module_enable 5 y = inr y'.
Proof. intros Hu. unfold uart_init. simpl. rewrite Hu. simpl. split; [done | eexists; done]. Qed.

(** ** Properties of transmit *)

(** What the busy-wait does: it skips the reads with bit [k] clear and
    consumes the first one with bit [k] set. *)
Lemma wait_bit_spec (k : Z) (pre rest : list Z) (r : Z) :
  Forall (fun x => Z.testbit x k = false) pre -> Z.testbit r k = true ->
  wait_bit k (pre ++ r :: rest) = Some rest.
Proof. induction 1 as [|x pre Hx _ IH]; intros Hr; simpl; [by rewrite Hr | by rewrite Hx, IH]. Qed.

(** A status stream in which the transmitter is always ready. *)
Definition always_ready (reads : list Z) : Prop :=
  Forall (fun r => Z.testbit r UART_S1_TDRE_SHIFT = true /\ Z.testbit r UART_S1_TC_SHIFT = true) reads.

Lemma uart_putchar_ready (n : nat) (ch r1 r2 : Z) (reads : list Z) (st : drv) (u : uart_hw) :
  (n < NUM_UARTS)%nat -> uart st !! n = Some u ->
  Z.testbit r1 UART_S1_TDRE_SHIFT = true -> Z.testbit r2 UART_S1_TC_SHIFT = true ->
  uart_putchar n ch (r1 :: r2 :: reads) st =
    Some (emit (EvTx n (u8 ch)) (set_uart n (push_tx (u8 ch) u) st), reads).
Proof.
  intros Hn Hu H1 H2. unfold uart_putchar. rewrite bool_decide_true by done.
  unfold UART_S1_TDRE_SHIFT, UART_S1_TC_SHIFT in *.
  rewrite Hu. cbn -[Z.testbit]. rewrite H1. cbn -[Z.testbit]. rewrite H2. done.
Qed.

(** C22: Under an always-ready transmitter, [uart_putstring] writes the
    characters of the string up to its NUL, one blocking write cycle
    each, in order and nothing else, reading two status values per
    character. *)
Theorem uart_putstring_ready (n : nat) (str reads : list Z) (st : drv) :
  (n < NUM_UARTS)%nat -> (n < length (uart st))%nat -> always_ready reads ->
  (2 * length (c_string str) <= length reads)%nat ->
  exists st',
    uart_putstring n str reads st = Some (st', drop (2 * length (c_string str)) reads) /\
    trace st' = trace st ++ map (fun c => EvTx n (u8 c)) (c_string str) /\
    length (uart st') = length (uart st) /\
    llwu st' = llwu st /\ receiving st' = receiving st.
Proof.
  revert reads st. induction str as [|c str IH]; intros reads st Hn Hlen Hr Hl; simpl.
  - exists st. rewrite app_nil_r. done.
  - destruct (Z.eqb c 0) eqn:Hc; simpl in *; rewrite ?Hc in Hl; simpl in Hl.
    + exists st. rewrite app_nil_r. done.
    + destruct reads as [|r1 [|r2 reads]]; simpl in Hl; try lia.
      apply Forall_cons in Hr as [[Hr1 _] Hr']. apply Forall_cons in Hr' as [[_ Hr2] Hr''].
      destruct (lookup_lt_is_Some_2 (uart st) n Hlen) as [u Hu].
      rewrite (uart_putchar_ready n c r1 r2 reads st u Hn Hu Hr1 Hr2). simpl.
      destruct (IH reads (emit (EvTx n (u8 c)) (set_uart n (push_tx (u8 c) u) st)))
        as (st' & Hput & Ht & Hlu & Hll & Hrv); simpl; rewrite ?length_insert; try done; try lia.
      exists st'. rewrite Nat.add_succ_r. simpl. rewrite Hput.
      split; [done|]. rewrite Ht, Hlu, Hll, Hrv. simpl.
      rewrite length_insert, <- app_assoc. done.
Qed.

End Driver.

(** ** End-to-end examples *)

(** A register file at reset, and one presenting status [s] and a FIFO. *)
Definition hw_reset : uart_hw := mk_hw 0 0 0 0 0 0 0 0 1 [] [].
Definition hw_line (s : Z) (fifo : list Z) : uart_hw := mk_hw 0 0 0 0 0 s 0 0 1 fifo [].

(** The driver after boot: no counter raised, UART1 with a callback at
    address 7, every latch clear. *)
Definition drv_boot : drv (S := Llwu.llwu_state) :=
  mk_drv (Llwu.mk_llwu 0 0 0 ∅ None) (replicate NUM_UARTS hw_reset)
         [None; Some 7%nat; None; None; None; None] (replicate NUM_UARTS 0) [].

(** End to end: sending "AB" (a NUL-terminated string) on UART0 under
    an always-ready transmitter makes exactly two write cycles, 'A' then
    'B', and consumes two status reads per byte. *)
Example uart_putstring_AB :
  (fun r => (trace r.1, r.2)) <$> uart_putstring 0 [65; 66; 0] (replicate 5 192) drv_boot =
    Some ([EvTx 0 65; EvTx 0 66], [192]).
Proof. vm_compute. reflexivity. Qed.

(** A SIM/NVIC state at reset, and module clocks for the examples. *)
Definition sys_reset : sys := mk_sys 0 0 0.
Definition clocks_example : clocks := mk_clocks 96000000 48000000.

(** Below SBR 17 the 3% bound can fail: a requested divisor of 10.6
    (100000 baud from 16.96 MHz) is rounded up to SBR = 11 with no fine
    adjust, and the generator runs 3.6% slow. *)
Example baud_small_divisor_off :
  UART_SBR 16960000 100000 = 11 /\ UART_BRFA 16960000 100000 = 0 /\
  100 * Z.abs (2 * 16960000 - 100000 * (32 * 11)) > 3 * 100000 * (32 * 11).
Proof. vm_compute. auto. Qed.

(** ** Witnesses: the theorems applied where their hypotheses hold *)

(** [uart_enable_rx_interrupt] has no guard against a second call: enable
    UART1's reception twice and disable it once, and its receiver, RDRF and
    edge interrupts are off while the LLS inhibit it raised is still held,
    so the core never enters LLS again. *)
Example uart_double_enable_lls_leak :
  let st := (uart_enable_rx_interrupt 1 drv_boot ≫= uart_enable_rx_interrupt 1)
                ≫= uart_disable_rx_interrupt 1 in
  (fun d => (Z.testbit (c2 (default hw_reset (uart d !! 1%nat))) 5,
             Z.testbit (c2 (default hw_reset (uart d !! 1%nat))) 2,
             Llwu.lls_sema (llwu d))) <$> st = Some (false, false, 1).
Proof. vm_compute. reflexivity. Qed.

Lemma rx_inv_boot : rx_inv 0 drv_boot.
Proof.
  split; try reflexivity.
  - repeat constructor; left; reflexivity.
  - unfold NUM_UARTS. lia.
Qed.

Definition st_edge : drv (S := Llwu.llwu_state) := set_uart 1 (hw_line 65 []) drv_boot.
Definition st_edge_x : drv (S := Llwu.llwu_state) := set_uart 1 (hw_line 65 [88]) drv_boot.
Definition st_glitch : drv (S := Llwu.llwu_state) := set_uart 1 (hw_line 64 []) drv_boot.
Definition st_receiving : drv (S := Llwu.llwu_state) := set_receiving 1 1 st_edge.

Lemma rx_inv_reachable_witness :
  rx_inv 0 drv_boot /\ rtc drv_step drv_boot st_edge /\
  rx_inv 0 st_edge /\ 0 <= Llwu.sema Llwu.InhStop (llwu st_edge) <= 0 + Z.of_nat NUM_UARTS.
Proof.
  assert (rtc drv_step drv_boot st_edge) as Hr by (apply rtc_once, StepLine; unfold NUM_UARTS; lia).
  split; [exact rx_inv_boot|]. split; [exact Hr|].
  exact (rx_inv_reachable 0 drv_boot st_edge rx_inv_boot Hr).
Defined.

(** UART1 after an RX edge and its interrupt: receiving, STOP inhibited. *)
Definition st_latched : drv (S := Llwu.llwu_state) := default st_edge (rx_irq_handler 1 st_edge).

Lemma rx_release_reachable_witness :
  rx_inv 0 st_latched /\ receiving st_latched !! 1%nat = Some 1 /\
  exists st', rtc drv_step st_latched st' /\ rx_inv 0 st' /\ Forall (fun r => r = 0) (receiving st') /\
    Llwu.sema Llwu.InhStop (llwu st') = 0.
Proof.
  assert (rx_inv 0 st_latched) as Hi.
  { apply (drv_step_inv 0 st_edge); [apply (StepIrq 1); reflexivity|].
    eapply drv_step_inv; [apply StepLine; unfold NUM_UARTS; lia | exact rx_inv_boot]. }
  split; [exact Hi|]. split; [reflexivity|]. exact (rx_release_reachable 0 st_latched Hi).
Defined.

Lemma rx_irq_handler_spec_witness :
  (1 < NUM_UARTS)%nat /\ uart st_edge_x !! 1%nat = Some (hw_line 65 [88]) /\
  receiving st_edge_x !! 1%nat = Some 0 /\ latch 0 /\
  exists st', rx_irq_handler 1 st_edge_x = Some st' /\
    uart st' !! 1%nat = Some (if rx_edge (hw_line 65 [88])
                              then set_s2 UART_S2_RXEDGIF_MASK (drained (hw_line 65 [88]))
                              else drained (hw_line 65 [88])) /\
    receiving st' = <[1%nat := latch_after (hw_line 65 [88]) 0]> (receiving st_edge_x) /\
    trace st' = trace st_edge_x ++ rx_events (hw_line 65 [88]) (mjoin (rx_callback st_edge_x !! 1%nat)) 0 /\
    llwu st' = apply_evs (llwu st_edge_x) (rx_events (hw_line 65 [88]) (mjoin (rx_callback st_edge_x !! 1%nat)) 0).
Proof.
  split; [unfold NUM_UARTS; lia|]. split; [reflexivity|]. split; [reflexivity|].
  split; [left; reflexivity|].
  exact (rx_irq_handler_spec 1 st_edge_x (hw_line 65 [88]) 0
           ltac:(unfold NUM_UARTS; lia) eq_refl eq_refl (or_introl eq_refl)).
Defined.

Lemma rx_edge_idempotent_witness :
  (1 < NUM_UARTS)%nat /\ uart st_receiving !! 1%nat = Some (hw_line 65 []) /\
  receiving st_receiving !! 1%nat = Some 1 /\ raf_idle (hw_line 65 []) = false /\
  exists st', rx_irq_handler 1 st_receiving = Some st' /\ llwu st' = llwu st_receiving /\
              receiving st' = receiving st_receiving.
Proof.
  split; [unfold NUM_UARTS; lia|]. split; [reflexivity|]. split; [reflexivity|].
  split; [reflexivity|].
  exact (rx_edge_idempotent 1 st_receiving (hw_line 65 [])
           ltac:(unfold NUM_UARTS; lia) eq_refl eq_refl eq_refl).
Defined.

Lemma rx_round_trip_witness :
  (1 < NUM_UARTS)%nat /\ uart st_edge !! 1%nat = Some (hw_line 65 []) /\
  receiving st_edge !! 1%nat = Some 0 /\
  rx_edge (hw_line 65 []) = true /\ raf_idle (hw_line 65 []) = false /\
  rx_edge (hw_line 0 []) = false /\ raf_idle (hw_line 0 []) = true /\
  0 <= Llwu.sema Llwu.InhStop (llwu st_edge) < 2 ^ 32 - 1 /\
  exists st1 st2,
    rx_irq_handler 1 st_edge = Some st1 /\ receiving st1 !! 1%nat = Some 1 /\
    Llwu.sema Llwu.InhStop (llwu st1) = Llwu.sema Llwu.InhStop (llwu st_edge) + 1 /\
    rx_irq_handler 1 (set_uart 1 (hw_line 0 []) st1) = Some st2 /\ receiving st2 !! 1%nat = Some 0 /\
    Llwu.sema Llwu.InhStop (llwu st2) = Llwu.sema Llwu.InhStop (llwu st_edge) /\
    trace st2 = trace st_edge ++ rx_drain_events (hw_line 65 []) (mjoin (rx_callback st_edge !! 1%nat)) ++
                [EvInhibit Llwu.InhStop] ++
                rx_drain_events (hw_line 0 []) (mjoin (rx_callback st_edge !! 1%nat)) ++
                [EvUninhibit Llwu.InhStop].
Proof.
  do 7 (split; [first [unfold NUM_UARTS; lia | reflexivity]|]).
  assert (0 <= Llwu.sema Llwu.InhStop (llwu st_edge) < 2 ^ 32 - 1) as Hs by (cbn; lia).
  split; [exact Hs|].
  exact (rx_round_trip 1 st_edge (hw_line 65 []) (hw_line 0 [])
           ltac:(unfold NUM_UARTS; lia) eq_refl eq_refl eq_refl eq_refl eq_refl eq_refl Hs).
Defined.

Lemma uart_init_baud_witness :
  (1 < NUM_UARTS)%nat /\ uart drv_boot !! 1%nat = Some hw_reset /\ 0 < 115200 /\
  uart_module_clock clocks_example 1 50000000 = inr 50000000 /\ 0 <= 50000000 /\
  17 <= UART_SBR 50000000 115200 < 2 ^ 13 /\
  exists y' st' u', uart_init (fun _ => true) clocks_example 1 50000000 115200 sys_reset drv_boot
                      = Some (inr (y', st')) /\
    uart st' !! 1%nat = Some u' /\
    programmed_div32 u' = 32 * UART_SBR 50000000 115200 + UART_BRFA 50000000 115200 /\
    100 * Z.abs (2 * 50000000 - 115200 * programmed_div32 u') <= 3 * 115200 * programmed_div32 u'.
Proof.
  assert (17 <= UART_SBR 50000000 115200 < 2 ^ 13) as HS
    by (replace (UART_SBR 50000000 115200) with 27 by reflexivity; lia).
  do 5 (split; [first [unfold NUM_UARTS; lia | reflexivity]|]). split; [exact HS|].
  exact (uart_init_baud (fun _ => true) clocks_example 1 50000000 50000000 115200 sys_reset drv_boot
           hw_reset ltac:(unfold NUM_UARTS; lia) eq_refl ltac:(lia) eq_refl ltac:(lia) HS).
Defined.

(** 300 baud from a 50 MHz module clock: SBR = 10417 does not fit. *)
Lemma uart_init_sbr_overflow_witness :
  (1 < NUM_UARTS)%nat /\ uart drv_boot !! 1%nat = Some hw_reset /\ 0 < 300 /\
  uart_module_clock clocks_example 1 50000000 = inr 50000000 /\ 0 <= 50000000 /\
  2 ^ 13 <= UART_SBR 50000000 300 /\
  exists y' st' u', uart_init (fun _ => true) clocks_example 1 50000000 300 sys_reset drv_boot
                      = Some (inr (y', st')) /\
    uart st' !! 1%nat = Some u' /\
    programmed_div32 u' = 32 * (UART_SBR 50000000 300 mod 2 ^ 13) + UART_BRFA 50000000 300 /\
    32 * 2 ^ 13 - 16 <= baud_div32 50000000 300 - programmed_div32 u'.
Proof.
  assert (2 ^ 13 <= UART_SBR 50000000 300) as HS
    by (replace (UART_SBR 50000000 300) with 10417 by reflexivity; lia).
  do 5 (split; [first [unfold NUM_UARTS; lia | reflexivity]|]). split; [exact HS|].
  exact (uart_init_sbr_overflow (fun _ => true) clocks_example 1 50000000 50000000 300 sys_reset
           drv_boot hw_reset ltac:(unfold NUM_UARTS; lia) eq_refl ltac:(lia) eq_refl ltac:(lia) HS).
Defined.

Lemma uart_module_enable_gate_witness :
  (2 < NUM_UARTS)%nat /\
  exists y', uart_module_enable 2 sys_reset = inr y' /\ uart_gate 2 y' = true /\
    (forall m, m <> 2%nat -> (m < NUM_UARTS)%nat -> uart_gate m y' = uart_gate m sys_reset) /\
    nvic_iser y' = nvic_iser sys_reset.
Proof.
  split; [unfold NUM_UARTS; lia|].
  exact (uart_module_enable_gate 2 sys_reset ltac:(unfold NUM_UARTS; lia)).
Defined.

Lemma uart_module_enable_invalid_witness :
  (NUM_UARTS <= 6)%nat /\ uart_module_enable 6 sys_reset = inl BREAK_INVALID_PARAM.
Proof.
  split; [unfold NUM_UARTS; lia|].
  exact (uart_module_enable_invalid 6 sys_reset ltac:(unfold NUM_UARTS; lia)).
Defined.

Lemma uart_init_uart5_current_clock_witness :
  uart drv_boot !! 5%nat = Some hw_reset /\
  uart_init (fun _ => true) clocks_example 5 0 115200 sys_reset drv_boot = Some (inl BREAK_INVALID_PARAM) /\
  exists y', uart_module_enable 5 sys_reset = inr y'.
Proof.
  split; [reflexivity|].
  exact (uart_init_uart5_current_clock (fun _ => true) clocks_example 115200 sys_reset drv_boot
           hw_reset eq_refl).
Defined.

Lemma uart_putstring_ready_witness :
  (0 < NUM_UARTS)%nat /\ (0 < length (uart drv_boot))%nat /\ always_ready (replicate 4 192) /\
  (2 * length (c_string [65; 66; 0]%Z) <= length (replicate 4 192%Z))%nat /\
  exists st',
    uart_putstring 0 [65; 66; 0] (replicate 4 192) drv_boot =
      Some (st', drop (2 * length (c_string [65; 66; 0])) (replicate 4 192)) /\
    trace st' = trace drv_boot ++ map (fun c => EvTx 0 (u8 c)) (c_string [65; 66; 0]) /\
    length (uart st') = length (uart drv_boot) /\
    llwu st' = llwu drv_boot /\ receiving st' = receiving drv_boot.
Proof.
  assert (always_ready (replicate 4 192)) as Hr by (repeat constructor).
  split; [unfold NUM_UARTS; lia|]. split; [simpl; lia|]. split; [exact Hr|].
  split; [simpl; lia|].
  exact (uart_putstring_ready 0 [65; 66; 0] (replicate 4 192) drv_boot
           ltac:(unfold NUM_UARTS; lia) ltac:(simpl; lia) Hr ltac:(simpl; lia)).
Defined.

Lemma rx_edge_on_idle_line_latches_witness :
  (1 < NUM_UARTS)%nat /\ uart st_glitch !! 1%nat = Some (hw_line 64 []) /\
  receiving st_glitch !! 1%nat = Some 0 /\ rx_edge (hw_line 64 []) = true /\
  raf_idle (hw_line 64 []) = true /\
  exists st', rx_irq_handler 1 st_glitch = Some st' /\ receiving st' !! 1%nat = Some 1 /\
    llwu st' = Llwu.inhibit Llwu.InhStop (llwu st_glitch).
Proof.
  do 5 (split; [first [unfold NUM_UARTS; lia | reflexivity]|]).
  exact (rx_edge_on_idle_line_latches 1 st_glitch (hw_line 64 [])
           ltac:(unfold NUM_UARTS; lia) eq_refl eq_refl eq_refl eq_refl).
Defined.

Lemma uart_rx_interrupt_lls_pairing_witness :
  (0 < NUM_UARTS)%nat /\ is_Some (uart drv_boot !! 0%nat) /\
  0 <= Llwu.sema Llwu.InhLls (llwu drv_boot) < 2 ^ 32 - 1 /\
  exists st1 st2 u1 u2,
    uart_enable_rx_interrupt 0 drv_boot = Some st1 /\ uart_disable_rx_interrupt 0 st1 = Some st2 /\
    Llwu.sema Llwu.InhLls (llwu st1) = Llwu.sema Llwu.InhLls (llwu drv_boot) + 1 /\
    Llwu.sema Llwu.InhLls (llwu st2) = Llwu.sema Llwu.InhLls (llwu drv_boot) /\
    uart st1 !! 0%nat = Some u1 /\ uart st2 !! 0%nat = Some u2 /\
    Z.testbit (c2 u1) 5 = true /\ Z.testbit (c2 u1) 2 = true /\ Z.testbit (bdh u1) 6 = true /\
    Z.testbit (c2 u2) 5 = false /\ Z.testbit (c2 u2) 2 = false /\ Z.testbit (bdh u2) 6 = false.
Proof.
  assert (is_Some (uart drv_boot !! 0%nat)) as Hu by (eexists; reflexivity).
  assert (0 <= Llwu.sema Llwu.InhLls (llwu drv_boot) < 2 ^ 32 - 1) as Hs by (cbn; lia).
  split; [unfold NUM_UARTS; lia|]. split; [exact Hu|]. split; [exact Hs|].
  exact (uart_rx_interrupt_lls_pairing 0 drv_boot ltac:(unfold NUM_UARTS; lia) Hu Hs).
Defined.

Definition st_disabled : drv (S := Llwu.llwu_state) :=
  default drv_boot (uart_disable_rx_interrupt 0 drv_boot).

Lemma uart_disable_rx_underflow_witness :
  Llwu.sema Llwu.InhLls (llwu drv_boot) = 0 /\
  uart_disable_rx_interrupt 0 drv_boot = Some st_disabled /\
  Llwu.sema Llwu.InhLls (llwu st_disabled) = 2 ^ 32 - 1.
Proof.
  split; [reflexivity|]. split; [reflexivity|].
  exact (uart_disable_rx_underflow 0 drv_boot st_disabled eq_refl eq_refl).
Defined.

End Uart.
