(* ===== verification/System.v ===== *)
(** * The system: UART receive interrupts, other subsystems and the idle loop

    The UART driver of [Uart] runs over the arbiter's counters of [Llwu]
    ([drv] at [S := llwu_state]); its interrupt handlers and entry points
    interleave with other subsystems' foreground actions on the arbiter
    (raising and releasing the STOP, VLPS and LLS inhibits, the STOP one in
    pairs, and voting with [llwu_set_allow] on their registered controller)
    and with the idle loop's [llwu_sleep] (src/platform/mulle/contiki-main.c,
    lines 236-239), which records the mode it enters.  An increment or
    decrement of a counter is one step: [Sync] shows the retry loop behind
    the macros is linearisable and loses no update under preemption.

    Proved: the receive path's pairing invariant, with the other
    subsystems' STOP holds as its base, and the well-formedness of the
    controller list hold in every reachable state; the STOP counter is
    their holds plus the driver's inhibits minus its releases, never
    negative and never wrapping; the core never enters STOP or a deeper
    mode while a UART is receiving; and from every reachable state the
    STOP inhibit can be released completely. *)

From stdpp Require Import base list gmap relations.
From Stdlib Require Import ZArith Lia.
From S2P Require Import Prelude Irq Llwu Uart.

Module System.

Abbreviation drv := (@Uart.drv Llwu.llwu_state).

(** The driver with the arbiter's state, the core's mask, the modes the
    idle loop has entered, and (ghost) the STOP inhibits the other
    subsystems hold. *)
Record sys_state := mk_sys_state {
  sys_drv : drv;
  sys_cpu : Irq.cpu;
  sys_slept : list Llwu.power_mode;
  sys_others : Z
}.

(** One step of the system. *)
(** One step of the system.  Other subsystems raise and release the VLPS
    and LLS inhibits freely, and the STOP inhibit in pairs: a release
    only while they hold one (a decrement below zero is a caller error,
    spec 4.1), and fewer than [2^32 - 8] at a time. *)
Inductive sys_step : sys_state -> sys_state -> Prop :=
  | SysDriver st st' c t o :
      Uart.drv_step st st' -> sys_step (mk_sys_state st c t o) (mk_sys_state st' c t o)
  | SysInhibit st c t o d :
      d <> Llwu.InhStop ->
      sys_step (mk_sys_state st c t o) (mk_sys_state (Uart.set_llwu (Llwu.llwu_inhibit d (Uart.llwu st)) st) c t o)
  | SysUninhibit st c t o d :
      d <> Llwu.InhStop ->
      sys_step (mk_sys_state st c t o) (mk_sys_state (Uart.set_llwu (Llwu.llwu_uninhibit d (Uart.llwu st)) st) c t o)
  | SysInhibitStop st c t o :
      o + 1 + Z.of_nat Uart.NUM_UARTS < 2 ^ 32 - 1 ->
      sys_step (mk_sys_state st c t o)
               (mk_sys_state (Uart.set_llwu (Llwu.llwu_inhibit Llwu.InhStop (Uart.llwu st)) st) c t (o + 1))
  | SysUninhibitStop st c t o :
      0 < o ->
      sys_step (mk_sys_state st c t o)
               (mk_sys_state (Uart.set_llwu (Llwu.llwu_uninhibit Llwu.InhStop (Uart.llwu st)) st) c t (o - 1))
  | SysVote st c t o ctl a s' :
      Llwu.llwu_set_allow ctl a (Uart.llwu st) = Some s' ->
      sys_step (mk_sys_state st c t o) (mk_sys_state (Uart.set_llwu s' st) c t o)
  | SysSleep st c t o m c' :
      Llwu.llwu_sleep (Uart.llwu st) c = (Some m, c') ->
      sys_step (mk_sys_state st c t o) (mk_sys_state st c' (t ++ [m]) o).

(** The system invariant: the receive path's pairing invariant with the
    other subsystems' STOP inhibits as its base, and a well-formed
    controller list. *)
Definition sys_inv (s : sys_state) : Prop :=
  exists l, Uart.rx_inv (sys_others s) (sys_drv s) /\
    Llwu.chain (Llwu.controls (Uart.llwu (sys_drv s))) (Llwu.ctl_head (Uart.llwu (sys_drv s))) l.

(** ** Lemmas *)

Lemma apply_evs_registry (l : Llwu.llwu_state) (es : list Uart.drv_event) :
  Llwu.controls (Uart.apply_evs l es) = Llwu.controls l /\
  Llwu.ctl_head (Uart.apply_evs l es) = Llwu.ctl_head l.
Proof.
  unfold Uart.apply_evs. revert l. induction es as [|e es IH]; intros l; simpl; [done|].
  destruct (IH (Uart.apply_ev l e)) as [-> ->].
  destruct e as [d|d| |]; simpl; try done;
    destruct (Llwu.llwu_inhibit_registry d l) as (? & ? & ? & ?); done.
Qed.

Lemma set_allow_registry (s s' : Llwu.llwu_state) (ctl : nat) (a : Z) (l : list nat) :
  Llwu.llwu_set_allow ctl a s = Some s' -> Llwu.chain (Llwu.controls s) (Llwu.ctl_head s) l ->
  Llwu.chain (Llwu.controls s') (Llwu.ctl_head s') l /\ Llwu.stop_sema s' = Llwu.stop_sema s.
Proof.
  unfold Llwu.llwu_set_allow. destruct (Llwu.controls s !! ctl) as [n|] eqn:Hn; [|done].
  intros [= <-] Hc. split; [|done]. simpl. by apply Llwu.chain_insert_flag.
Qed.

(** The STOP counter of a state satisfying the pairing invariant, and
    its registry, after another subsystem's STOP inhibit or release. *)
Lemma stop_sema_step (base : Z) (st : drv) (inc : bool) :
  Uart.rx_inv base st -> (inc = false -> 0 < base) ->
  Llwu.sema Llwu.InhStop
    ((if inc then Llwu.llwu_inhibit else Llwu.llwu_uninhibit) Llwu.InhStop (Uart.llwu st)) =
  Llwu.sema Llwu.InhStop (Uart.llwu st) + (if inc then 1 else -1).
Proof.
  intros Hi Hd. pose proof (Uart.inv_sema _ _ Hi) as Hs. pose proof (Uart.inv_base _ _ Hi) as Hb.
  pose proof (Uart.latch_sum_bounds _ (Uart.inv_latch _ _ Hi)) as Hl.
  rewrite (Uart.inv_recv_len _ _ Hi) in Hl. unfold Uart.NUM_UARTS in *.
  destruct inc; [etrans; [exact (Llwu.sema_inhibit Llwu.InhStop (Uart.llwu st))|]
                | etrans; [exact (Llwu.sema_uninhibit Llwu.InhStop (Uart.llwu st))|]];
    apply u32_id; unfold fits; simpl in *; [|specialize (Hd eq_refl)]; lia.
Qed.

Lemma sys_step_inv (s s' : sys_state) : sys_step s s' -> sys_inv s -> sys_inv s'.
Proof.
  intros Hs (l & Hi & Hc). destruct Hs as [st st' c t o Hst|st c t o d Hd|st c t o d Hd
    |st c t o Ho|st c t o Ho|st c t o ctl a s' Hv|st c t o m c' Hsl]; simpl in *.
  - destruct (Uart.drv_step_llwu _ _ _ Hi Hst) as [es Hes].
    destruct (apply_evs_registry (Uart.llwu st) es) as [E1 E2].
    exists l. split; [eapply Uart.drv_step_inv; eauto|]. simpl. by rewrite Hes, E1, E2.
  - destruct (Llwu.llwu_inhibit_registry d (Uart.llwu st)) as (E1 & E2 & _).
    exists l. split; [|simpl; by rewrite E1, E2].
    apply Uart.rx_inv_set_llwu; [|done]. exact (Llwu.sema_inhibit_other d _ _ Hd).
  - destruct (Llwu.llwu_inhibit_registry d (Uart.llwu st)) as (_ & _ & E1 & E2).
    exists l. split; [|simpl; by rewrite E1, E2].
    apply Uart.rx_inv_set_llwu; [|done]. exact (Llwu.sema_uninhibit_other d _ _ Hd).
  - exists l. split; [|done].
    pose proof (Uart.inv_base _ _ Hi).
    pose proof (stop_sema_step o st true Hi ltac:(discriminate)) as E. simpl in E.
    apply (Uart.rx_inv_rebase o); simpl; [lia | lia | lia | done].
  - exists l. split; [|done].
    pose proof (Uart.inv_base _ _ Hi).
    pose proof (stop_sema_step o st false Hi ltac:(intros; lia)) as E. simpl in E.
    apply (Uart.rx_inv_rebase o); simpl; [lia | lia | lia | done].
  - destruct (set_allow_registry _ _ _ _ _ Hv Hc) as [Hc' Hs'].
    exists l. split; [|done]. by apply Uart.rx_inv_set_llwu.
  - by exists l.
Qed.

Lemma sys_reachable_inv (s0 s : sys_state) : sys_inv s0 -> rtc sys_step s0 s -> sys_inv s.
Proof. intros Hi Hr. induction Hr as [|x y z Hxy _ IH]; [done|]. apply IH. by eapply sys_step_inv. Qed.

(** ** The end-to-end property *)

(** C1: The core never enters STOP or a deeper mode while a UART is
    receiving: in every state reachable from one satisfying the system
    invariant, if some UART's [receiving] latch is set, [llwu_sleep]
    enters WAIT, whatever the other subsystems have raised, released or
    voted and whatever the interrupts did. *)
Theorem no_deep_sleep_while_receiving (s0 s : sys_state) (n : nat) :
  sys_inv s0 -> rtc sys_step s0 s -> Uart.receiving (sys_drv s) !! n = Some 1 ->
  (Llwu.llwu_sleep (Uart.llwu (sys_drv s)) (sys_cpu s)).1 = Some Llwu.PmWait.
Proof.
  intros H0 Hr Hn. destruct (sys_reachable_inv _ _ H0 Hr) as (l & Hi & Hc).
  rewrite (Llwu.llwu_sleep_chain _ l) by done. simpl.
  pose proof (Uart.inv_sema _ _ Hi) as Hsem. pose proof (Uart.inv_base _ _ Hi) as Hb.
  assert (Forall (fun z => 0 <= z) (Uart.receiving (sys_drv s))) as Hpos.
  { eapply Forall_impl; [apply (Uart.inv_latch _ _ Hi) | unfold Uart.latch; lia]. }
  pose proof (sumZ_lookup_le _ _ _ Hpos Hn) as Hle. simpl in Hsem.
  unfold Llwu.llwu_choose. rewrite (proj2 (Z.eqb_neq _ 0)) by lia. done.
Qed.

(** C2: The STOP inhibit counter is accounted for in every state
    reachable from one satisfying the system invariant: it equals the STOP
    inhibits the other subsystems hold plus the driver's inhibits minus
    its releases, which is the number of UARTs in the receiving state; it
    is never negative and never wraps, and it is 0 exactly when no other
    subsystem holds a STOP inhibit and no UART is receiving. *)
Theorem sys_stop_accounting (s0 s : sys_state) :
  sys_inv s0 -> rtc sys_step s0 s ->
  Llwu.stop_sema (Uart.llwu (sys_drv s)) = sys_others s + Uart.stop_balance (Uart.trace (sys_drv s)) /\
  Uart.stop_balance (Uart.trace (sys_drv s)) = sumZ (Uart.receiving (sys_drv s)) /\
  0 <= Llwu.stop_sema (Uart.llwu (sys_drv s)) < 2 ^ 32 /\
  (Llwu.stop_sema (Uart.llwu (sys_drv s)) = 0 <->
     sys_others s = 0 /\ Forall (fun r => r = 0) (Uart.receiving (sys_drv s))).
Proof.
  intros H0 Hr. destruct (sys_reachable_inv _ _ H0 Hr) as (l & Hi & _).
  pose proof (Uart.inv_sema _ _ Hi) as Hs. pose proof (Uart.inv_balance _ _ Hi) as Hb.
  pose proof (Uart.inv_base _ _ Hi) as Ho. pose proof (Uart.inv_latch _ _ Hi) as Hl.
  pose proof (Uart.latch_sum_bounds _ Hl) as Hsum. rewrite (Uart.inv_recv_len _ _ Hi) in Hsum.
  rewrite <- (Uart.latch_sum_zero _ Hl). simpl in Hs. unfold Uart.NUM_UARTS in *.
  split; [lia|]. split; [done|]. split; [lia|]. lia.
Qed.

(** Lifting driver paths into the system. *)
Lemma sys_driver_rtc (st st' : drv) (c : Irq.cpu) (t : list Llwu.power_mode) (o : Z) :
  rtc Uart.drv_step st st' -> rtc sys_step (mk_sys_state st c t o) (mk_sys_state st' c t o).
Proof. induction 1; [done|]. eapply rtc_l; [by apply SysDriver|done]. Qed.

(** The other subsystems release their STOP inhibits one by one. *)
Lemma sys_others_release (s : sys_state) :
  sys_inv s -> exists s', rtc sys_step s s' /\ sys_inv s' /\ sys_others s' = 0 /\
    Uart.receiving (sys_drv s') = Uart.receiving (sys_drv s).
Proof.
  destruct s as [st c t o]. intros Hi. pose proof Hi as (l & Hr & _). simpl in Hr.
  pose proof (Uart.inv_base _ _ Hr) as [Ho _].
  assert (o = Z.of_nat (Z.to_nat o)) as Eo by lia. rewrite Eo in Hi |- *.
  clear Hr l Eo Ho. revert st Hi.
  induction (Z.to_nat o) as [|k IH]; intros st Hi.
  - exists (mk_sys_state st c t (Z.of_nat 0)). split; [done|]. split; [done|]. split; done.
  - assert (sys_step (mk_sys_state st c t (Z.of_nat (S k)))
              (mk_sys_state (Uart.set_llwu (Llwu.llwu_uninhibit Llwu.InhStop (Uart.llwu st)) st) c t
                            (Z.of_nat (S k) - 1))) as Hs by (apply SysUninhibitStop; lia).
    replace (Z.of_nat (S k) - 1) with (Z.of_nat k) in Hs by lia.
    destruct (IH _ (sys_step_inv _ _ Hs Hi)) as (s' & Hr' & Hi' & Ho' & Hrec).
    exists s'. split; [by eapply rtc_l|]. done.
Qed.

(** C4: The STOP inhibit is never stuck: from every state reachable from
    one satisfying the system invariant, the other subsystems releasing
    their STOP inhibits, the lines going idle and one receive interrupt
    per UART lead to a state where nobody holds it, the STOP counter is 0,
    and the next [llwu_sleep] is no longer kept out of STOP by it. *)
Theorem sys_release_reachable (s0 s : sys_state) :
  sys_inv s0 -> rtc sys_step s0 s ->
  exists s', rtc sys_step s s' /\ sys_inv s' /\ sys_others s' = 0 /\
    Forall (fun r => r = 0) (Uart.receiving (sys_drv s')) /\
    Llwu.stop_sema (Uart.llwu (sys_drv s')) = 0.
Proof.
  intros H0 Hr. pose proof (sys_reachable_inv _ _ H0 Hr) as Hi.
  destruct (sys_others_release s Hi) as ([st c t o] & Hr1 & Hi1 & Ho1 & _). simpl in Ho1. subst o.
  pose proof Hi1 as (l & Hx & _). simpl in Hx.
  destruct (Uart.rx_release_reachable 0 st Hx) as (st' & Hr2 & Hx' & Hz & Hs).
  exists (mk_sys_state st' c t 0). split; [etrans; [exact Hr1 | by apply sys_driver_rtc]|].
  split; [exact (sys_reachable_inv _ _ Hi1 (sys_driver_rtc _ _ c t 0 Hr2))|]. simpl. done.
Qed.

(** ** Witness *)

Definition sys_boot : sys_state := mk_sys_state Uart.drv_boot (Irq.mk_cpu false 0) [] 0.

(** An RX edge on UART1, then its interrupt. *)
Definition sys_edge : sys_state :=
  mk_sys_state (default Uart.st_edge (Uart.rx_irq_handler 1 Uart.st_edge)) (Irq.mk_cpu false 0) [] 0.

Lemma sys_inv_boot : sys_inv sys_boot.
Proof. exists []. split; [exact Uart.rx_inv_boot | constructor]. Qed.

Lemma sys_boot_edge : rtc sys_step sys_boot sys_edge.
Proof.
  eapply rtc_l; [apply SysDriver, (Uart.StepLine 1 (Uart.hw_line 65 [])); unfold Uart.NUM_UARTS; lia|].
  apply rtc_once. apply SysDriver. eapply (Uart.StepIrq 1). reflexivity.
Qed.

Lemma no_deep_sleep_while_receiving_witness :
  sys_inv sys_boot /\ rtc sys_step sys_boot sys_edge /\ Uart.receiving (sys_drv sys_edge) !! 1%nat = Some 1 /\
  (Llwu.llwu_sleep (Uart.llwu (sys_drv sys_edge)) (sys_cpu sys_edge)).1 = Some Llwu.PmWait.
Proof.
  pose proof sys_boot_edge as Hr.
  assert (Uart.receiving (sys_drv sys_edge) !! 1%nat = Some 1) as Hn by reflexivity.
  split; [exact sys_inv_boot|]. split; [exact Hr|]. split; [exact Hn|].
  exact (no_deep_sleep_while_receiving sys_boot sys_edge 1 sys_inv_boot Hr Hn).
Defined.

Lemma sys_stop_accounting_witness :
  sys_inv sys_boot /\ rtc sys_step sys_boot sys_edge /\
  Llwu.stop_sema (Uart.llwu (sys_drv sys_edge)) = sys_others sys_edge + Uart.stop_balance (Uart.trace (sys_drv sys_edge)) /\
  Uart.stop_balance (Uart.trace (sys_drv sys_edge)) = sumZ (Uart.receiving (sys_drv sys_edge)) /\
  0 <= Llwu.stop_sema (Uart.llwu (sys_drv sys_edge)) < 2 ^ 32 /\
  (Llwu.stop_sema (Uart.llwu (sys_drv sys_edge)) = 0 <->
     sys_others sys_edge = 0 /\ Forall (fun r => r = 0) (Uart.receiving (sys_drv sys_edge))).
Proof.
  split; [exact sys_inv_boot|]. split; [exact sys_boot_edge|].
  exact (sys_stop_accounting sys_boot sys_edge sys_inv_boot sys_boot_edge).
Defined.

Lemma sys_release_reachable_witness :
  sys_inv sys_boot /\ rtc sys_step sys_boot sys_edge /\
  Uart.receiving (sys_drv sys_edge) !! 1%nat = Some 1 /\
  exists s', rtc sys_step sys_edge s' /\ sys_inv s' /\ sys_others s' = 0 /\
    Forall (fun r => r = 0) (Uart.receiving (sys_drv s')) /\
    Llwu.stop_sema (Uart.llwu (sys_drv s')) = 0.
Proof.
  split; [exact sys_inv_boot|]. split; [exact sys_boot_edge|]. split; [reflexivity|].
  exact (sys_release_reachable sys_boot sys_edge sys_inv_boot sys_boot_edge).
Defined.

End System.
