(* ===== verification/Preempt.v ===== *)
(** * Another subsystem's STOP inhibit, preempted by UART interrupts

    [System] treats a foreground [LLWU_INHIBIT_STOP()] or
    [LLWU_UNINHIBIT_STOP()] of another subsystem as one atomic step.  In
    the code it is the retry loop of [exclusive_increment] /
    [exclusive_decrement] (llwu.h lines 156-161; the loop is modelled in
    [Sync]), and a UART receive interrupt ([rx_irq_handler] of uart.c,
    which itself updates the STOP counter) can preempt it at any
    instruction.  Here the two are interleaved on the shared counter: the
    loop's word is the arbiter's [stop_sema], and an interrupt runs the
    whole handler on the driver's state and clears the exclusive monitor.

    Proved: every such interleaving is simulated by atomic steps of
    [System.sys_step] (the interrupts as driver steps, the foreground
    update at its successful [STREX]), so the invariants and the
    end-to-end theorems of [System] hold of it; and the call is done once
    three of its instructions run uninterrupted. *)

From stdpp Require Import base list relations.
From Stdlib Require Import ZArith Lia.
From S2P Require Import Prelude Irq Sync Llwu Uart System.

Module Preempt.

Abbreviation drv := (@Uart.drv Llwu.llwu_state).

(** The foreground call (where it is, and the exclusive monitor) and the
    driver with the arbiter's counters. *)
Record pstate := mk_pstate { p_pc : Sync.xpc; p_monitor : bool; p_drv : drv }.

(** The counter word the loop works on: [llwu_inhibit_stop_sema]. *)
Definition stop_xmem (p : pstate) : Sync.xmem :=
  Sync.mk_xmem (Llwu.stop_sema (Uart.llwu (p_drv p))) (p_monitor p).

(** Writing the counter word back into the arbiter's state. *)
Definition with_stop (v : Z) (d : drv) : drv :=
  Uart.set_llwu (Llwu.set_sema Llwu.InhStop v (Uart.llwu d)) d.

(** What runs next: an instruction of the foreground loop, or the receive
    interrupt of UART [n]. *)
Inductive pev := PFg | PIrq (n : nat).

(** One event.  An interrupt runs [rx_irq_handler(n)] to completion and
    clears the monitor on exception entry and return; a vector that does
    not exist ([n >= 6]) never fires. *)
Definition p_step (o : Sync.ex_op) (p : pstate) (e : pev) : pstate :=
  match e with
  | PFg =>
      let '(pc', m') := Sync.ex_step o (p_pc p) (stop_xmem p) in
      mk_pstate pc' (Sync.monitor m') (with_stop (Sync.word m') (p_drv p))
  | PIrq n =>
      match Uart.rx_irq_handler n (p_drv p) with
      | Some d' => mk_pstate (p_pc p) false d'
      | None => p
      end
  end.

Definition p_run (o : Sync.ex_op) (sched : list pev) (p : pstate) : pstate := foldl (p_step o) p sched.

(** The call starts at its first [LDREX] with the monitor closed. *)
Definition p_start (d : drv) : pstate := mk_pstate Sync.XLoad false d.

Definition xdone (pc : Sync.xpc) : bool := match pc with Sync.XDone => true | _ => false end.

(** The atomic step that stands for the call: [SysInhibitStop] or
    [SysUninhibitStop], and what it needs of the other subsystems' holds. *)
Definition op_counter (o : Sync.ex_op) : Llwu.llwu_state -> Llwu.llwu_state :=
  match o with Sync.ExInc => Llwu.llwu_inhibit Llwu.InhStop | Sync.ExDec => Llwu.llwu_uninhibit Llwu.InhStop end.

Definition stop_guard (o : Sync.ex_op) (others : Z) : Prop :=
  match o with
  | Sync.ExInc => others + 1 + Z.of_nat Uart.NUM_UARTS < 2 ^ 32 - 1
  | Sync.ExDec => 0 < others
  end.

(** The simulation relation: the atomic state has the same driver, core
    and sleep record, the other subsystems' holds count the call once it
    is done, and an open monitor means the computed value is the update
    of the current word. *)
Definition prel (o : Sync.ex_op) (s0 : System.sys_state) (p : pstate) (a : System.sys_state) : Prop :=
  System.sys_drv a = p_drv p /\ System.sys_cpu a = System.sys_cpu s0 /\
  System.sys_slept a = System.sys_slept s0 /\
  System.sys_others a = System.sys_others s0 + (if xdone (p_pc p) then Sync.op_delta o else 0) /\
  (forall nv, p_pc p = Sync.XStore nv -> p_monitor p = true ->
     nv = Sync.atomic_update o (Llwu.stop_sema (Uart.llwu (p_drv p)))).

(** ** Lemmas *)

Lemma with_stop_same (d : drv) : with_stop (Llwu.stop_sema (Uart.llwu d)) d = d.
Proof. destruct d as [[] u cb r t]. reflexivity. Qed.

Lemma with_stop_commit (o : Sync.ex_op) (d : drv) :
  with_stop (Sync.atomic_update o (Llwu.stop_sema (Uart.llwu d))) d = Uart.set_llwu (op_counter o (Uart.llwu d)) d.
Proof. by destruct o. Qed.

(** The atomic step of the call. *)
Lemma sys_step_commit (o : Sync.ex_op) (d : drv) (c : Irq.cpu) (t : list Llwu.power_mode) (x : Z) :
  stop_guard o x ->
  System.sys_step (System.mk_sys_state d c t x)
    (System.mk_sys_state (Uart.set_llwu (op_counter o (Uart.llwu d)) d) c t (x + Sync.op_delta o)).
Proof.
  destruct o; simpl; intros Hg.
  - by apply System.SysInhibitStop.
  - replace (x + -1) with (x - 1) by lia. by apply System.SysUninhibitStop.
Qed.

(** Every event is matched by zero or one atomic step. *)
Lemma p_step_sim (o : Sync.ex_op) (s0 : System.sys_state) (p : pstate) (a : System.sys_state) (e : pev) :
  stop_guard o (System.sys_others s0) -> prel o s0 p a ->
  exists a', rtc System.sys_step a a' /\ prel o s0 (p_step o p e) a'.
Proof.
  destruct p as [pc mon d], a as [da ca ta xa]. unfold prel; simpl.
  intros Hg (-> & -> & -> & -> & Hnv). destruct e as [|n]; simpl.
  - destruct pc as [|nv|]; simpl.
    + eexists. split; [reflexivity|]. simpl. rewrite with_stop_same.
      split; [done|]. split; [done|]. split; [done|]. split; [done|]. by intros nv [= <-].
    + destruct mon; simpl.
      * rewrite (Hnv nv eq_refl eq_refl), with_stop_commit. eexists. split.
        { apply rtc_once. apply sys_step_commit. by rewrite Z.add_0_r. }
        simpl. rewrite Z.add_0_r. repeat split; done.
      * rewrite with_stop_same. eexists. split; [reflexivity|]. simpl. repeat split; done.
    + rewrite with_stop_same. eexists. split; [reflexivity|]. simpl. repeat split; done.
  - destruct (Uart.rx_irq_handler n d) as [d'|] eqn:Hh; simpl.
    + exists (System.mk_sys_state d' (System.sys_cpu s0) (System.sys_slept s0)
               (System.sys_others s0 + (if xdone pc then Sync.op_delta o else 0))).
      split; [apply rtc_once, System.SysDriver; by apply (Uart.StepIrq n)|].
      simpl. repeat split; done.
    + eexists. split; [reflexivity|]. simpl. repeat split; done.
Qed.

Lemma p_run_sim (o : Sync.ex_op) (s0 : System.sys_state) (sched : list pev) (p : pstate) (a : System.sys_state) :
  stop_guard o (System.sys_others s0) -> prel o s0 p a ->
  exists a', rtc System.sys_step a a' /\ prel o s0 (p_run o sched p) a'.
Proof.
  intros Hg. revert p a. induction sched as [|e sched IH]; intros p a Hr; [by exists a|].
  destruct (p_step_sim o s0 p a e Hg Hr) as (a1 & Hs1 & Hr1).
  destruct (IH _ _ Hr1) as (a2 & Hs2 & Hr2). exists a2. split; [by etrans|done].
Qed.

(** Three foreground instructions in a row finish the call. *)
Lemma p_three_fg (o : Sync.ex_op) (p : pstate) :
  p_pc (p_run o [PFg; PFg; PFg] p) = Sync.XDone.
Proof.
  destruct p as [[|nv|] [|] d]; unfold p_run; simpl; unfold Sync.strex; simpl; reflexivity.
Qed.

Lemma p_run_app (o : Sync.ex_op) (l1 l2 : list pev) (p : pstate) :
  p_run o (l1 ++ l2) p = p_run o l2 (p_run o l1 p).
Proof. apply foldl_app. Qed.

(** A finished call stays finished. *)
Lemma p_run_done (o : Sync.ex_op) (sched : list pev) (p : pstate) :
  xdone (p_pc p) = true -> xdone (p_pc (p_run o sched p)) = true.
Proof.
  revert p. induction sched as [|[|n] sched IH]; intros [pc mon d] Hd; [done| |];
    destruct pc; try discriminate; apply IH; simpl; [done|].
  destruct (Uart.rx_irq_handler n d); done.
Qed.

(** C10: The atomic treatment of the other subsystems' STOP updates in
    [System] is sound: a foreground [LLWU_INHIBIT_STOP()] or
    [LLWU_UNINHIBIT_STOP()], run as the LDREX/STREX retry loop and
    preempted at any instruction by any sequence of UART receive
    interrupts, leaves the same driver and counters as a path of atomic
    [System] steps in which the update happens once, at its successful
    [STREX], if the call has finished (and not at all otherwise); that
    path keeps the system invariant; and the call has finished as soon as
    three of its instructions ran uninterrupted. *)
Theorem preempted_stop_update_refines (o : Sync.ex_op) (s0 : System.sys_state) (sched : list pev) :
  stop_guard o (System.sys_others s0) ->
  exists a, rtc System.sys_step s0 a /\
    System.sys_drv a = p_drv (p_run o sched (p_start (System.sys_drv s0))) /\
    System.sys_others a = System.sys_others s0 +
      (if xdone (p_pc (p_run o sched (p_start (System.sys_drv s0)))) then Sync.op_delta o else 0) /\
    (System.sys_inv s0 -> System.sys_inv a) /\
    (forall pre post, sched = pre ++ [PFg; PFg; PFg] ++ post ->
       xdone (p_pc (p_run o sched (p_start (System.sys_drv s0)))) = true).
Proof.
  intros Hg. destruct (p_run_sim o s0 sched (p_start (System.sys_drv s0)) s0 Hg) as (a & Hr & Hd & _ & _ & Ho & _).
  { unfold prel. simpl. split; [done|]. split; [done|]. split; [done|]. split; [lia|]. done. }
  exists a. split; [done|]. split; [done|]. split; [done|].
  split; [intros Hi; exact (System.sys_reachable_inv _ _ Hi Hr)|].
  intros pre post ->. rewrite !p_run_app. apply p_run_done. by rewrite p_three_fg.
Qed.

(** ** Witness *)

(** Another subsystem's [LLWU_INHIBIT_STOP()] on the booted system: its
    [LDREX], then UART1's edge interrupt (which inhibits STOP itself and
    clears the monitor), the failed [STREX], and a clean second pass. *)
Definition ex_sched : list pev := [PFg; PIrq 1; PFg; PFg; PFg].
Definition ex_s0 : System.sys_state :=
  System.mk_sys_state Uart.st_edge (Irq.mk_cpu false 0) [] 0.

Lemma preempted_stop_update_refines_witness :
  stop_guard Sync.ExInc (System.sys_others ex_s0) /\
  exists a, rtc System.sys_step ex_s0 a /\
    System.sys_drv a = p_drv (p_run Sync.ExInc ex_sched (p_start (System.sys_drv ex_s0))) /\
    System.sys_others a = System.sys_others ex_s0 +
      (if xdone (p_pc (p_run Sync.ExInc ex_sched (p_start (System.sys_drv ex_s0)))) then Sync.op_delta Sync.ExInc else 0) /\
    (System.sys_inv ex_s0 -> System.sys_inv a) /\
    (forall pre post, ex_sched = pre ++ [PFg; PFg; PFg] ++ post ->
       xdone (p_pc (p_run Sync.ExInc ex_sched (p_start (System.sys_drv ex_s0)))) = true).
Proof.
  assert (stop_guard Sync.ExInc (System.sys_others ex_s0)) as Hg by (simpl; unfold Uart.NUM_UARTS; lia).
  split; [exact Hg|]. exact (preempted_stop_update_refines Sync.ExInc ex_s0 ex_sched Hg).
Defined.

(** That run ends with both inhibits counted: STOP is 2. *)
Example preempted_stop_update_example :
  Llwu.stop_sema (Uart.llwu (p_drv (p_run Sync.ExInc ex_sched (p_start (System.sys_drv ex_s0))))) = 2 /\
  p_pc (p_run Sync.ExInc ex_sched (p_start (System.sys_drv ex_s0))) = Sync.XDone.
Proof. split; vm_compute; reflexivity. Qed.

End Preempt.
