(* ===== verification/Wakeup.v ===== *)
(** * The wake-up source registry of the LLWU

    [src/cpu/arm/k60/include/llwu.h] (lines 56-115) enumerates the internal
    modules ([llwu_wakeup_module_t]) and the pins ([llwu_wakeup_pin_t])
    that can wake the core from LLS, the edge settings
    ([llwu_wakeup_edge_t]) and the layout of the pin-enable registers
    (2-bit fields, 4 pins per register: [LLWU_WAKEUP_EDGE_MASK],
    [LLWU_WAKEUP_EDGE_WIDTH], [LLWU_WAKEUP_PIN_REG_SIZE]).  The operations
    [llwu_enable_wakeup_module], [llwu_disable_wakeup_module],
    [llwu_set_wakeup_pin] and [llwu_set_wakeup_callback] and the dispatch of
    the callbacks on wake-up are in llwu.c, not in [src/]: they are modelled
    from the spec (4.3), over the LLWU registers [ME] (one enable bit per
    module) and [PE1..PE4].

    Proved: enabling and disabling a module flips exactly its bit; writing
    a pin's edge reads back and leaves every other pin's edge as it was;
    out-of-range ids hit the debug trap; the last callback written for a
    pin wins; on wake-up exactly the flagged pins with a callback are
    dispatched. *)

From stdpp Require Import base list.
From Stdlib Require Import ZArith Lia.
From S2P Require Import Prelude.

Module Wakeup.

(** ** The enumerations of llwu.h *)

(** [llwu_wakeup_module_t]. *)
Inductive llwu_wakeup_module :=
  | LLWU_WAKEUP_MODULE_LPTMR | LLWU_WAKEUP_MODULE_CMP0 | LLWU_WAKEUP_MODULE_CMP1
  | LLWU_WAKEUP_MODULE_CMP2 | LLWU_WAKEUP_MODULE_TSI | LLWU_WAKEUP_MODULE_RTC_ALARM
  | LLWU_WAKEUP_MODULE_RESERVED | LLWU_WAKEUP_MODULE_RTC_SECONDS.

Definition wakeup_module_num (m : llwu_wakeup_module) : Z :=
  match m with
  | LLWU_WAKEUP_MODULE_LPTMR => 0 | LLWU_WAKEUP_MODULE_CMP0 => 1
  | LLWU_WAKEUP_MODULE_CMP1 => 2 | LLWU_WAKEUP_MODULE_CMP2 => 3
  | LLWU_WAKEUP_MODULE_TSI => 4 | LLWU_WAKEUP_MODULE_RTC_ALARM => 5
  | LLWU_WAKEUP_MODULE_RESERVED => 6 | LLWU_WAKEUP_MODULE_RTC_SECONDS => 7
  end.

Definition LLWU_WAKEUP_MODULE_END : Z := 8.

(** [llwu_wakeup_pin_t]: the physical pins and their wake-up numbers. *)
Inductive llwu_wakeup_pin :=
  | LLWU_WAKEUP_PIN_PTE1 | LLWU_WAKEUP_PIN_PTE2 | LLWU_WAKEUP_PIN_PTE4 | LLWU_WAKEUP_PIN_PTA4
  | LLWU_WAKEUP_PIN_PTA13 | LLWU_WAKEUP_PIN_PTB0 | LLWU_WAKEUP_PIN_PTC1 | LLWU_WAKEUP_PIN_PTC3
  | LLWU_WAKEUP_PIN_PTC4 | LLWU_WAKEUP_PIN_PTC5 | LLWU_WAKEUP_PIN_PTC6 | LLWU_WAKEUP_PIN_PTC11
  | LLWU_WAKEUP_PIN_PTD0 | LLWU_WAKEUP_PIN_PTD2 | LLWU_WAKEUP_PIN_PTD4 | LLWU_WAKEUP_PIN_PTD6.

Definition wakeup_pin_num (p : llwu_wakeup_pin) : Z :=
  match p with
  | LLWU_WAKEUP_PIN_PTE1 => 0 | LLWU_WAKEUP_PIN_PTE2 => 1 | LLWU_WAKEUP_PIN_PTE4 => 2
  | LLWU_WAKEUP_PIN_PTA4 => 3 | LLWU_WAKEUP_PIN_PTA13 => 4 | LLWU_WAKEUP_PIN_PTB0 => 5
  | LLWU_WAKEUP_PIN_PTC1 => 6 | LLWU_WAKEUP_PIN_PTC3 => 7 | LLWU_WAKEUP_PIN_PTC4 => 8
  | LLWU_WAKEUP_PIN_PTC5 => 9 | LLWU_WAKEUP_PIN_PTC6 => 10 | LLWU_WAKEUP_PIN_PTC11 => 11
  | LLWU_WAKEUP_PIN_PTD0 => 12 | LLWU_WAKEUP_PIN_PTD2 => 13 | LLWU_WAKEUP_PIN_PTD4 => 14
  | LLWU_WAKEUP_PIN_PTD6 => 15
  end.

Definition LLWU_WAKEUP_PIN_END : Z := 16.

(** [llwu_wakeup_edge_t]. *)
Inductive llwu_wakeup_edge :=
  | LLWU_WAKEUP_EDGE_DISABLE | LLWU_WAKEUP_EDGE_RISING
  | LLWU_WAKEUP_EDGE_FALLING | LLWU_WAKEUP_EDGE_ANY.

#[global] Instance llwu_wakeup_edge_eq_dec : EqDecision llwu_wakeup_edge.
Proof. solve_decision. Defined.

Definition edge_code (e : llwu_wakeup_edge) : Z :=
  match e with
  | LLWU_WAKEUP_EDGE_DISABLE => 0 | LLWU_WAKEUP_EDGE_RISING => 1
  | LLWU_WAKEUP_EDGE_FALLING => 2 | LLWU_WAKEUP_EDGE_ANY => 3
  end.

(** The setting a 2-bit field holds. *)
Definition edge_of_code (z : Z) : llwu_wakeup_edge :=
  if Z.eqb z 0 then LLWU_WAKEUP_EDGE_DISABLE
  else if Z.eqb z 1 then LLWU_WAKEUP_EDGE_RISING
  else if Z.eqb z 2 then LLWU_WAKEUP_EDGE_FALLING
  else LLWU_WAKEUP_EDGE_ANY.

Definition LLWU_WAKEUP_EDGE_MASK : Z := 3.
Definition LLWU_WAKEUP_EDGE_WIDTH : Z := 2.
Definition LLWU_WAKEUP_PIN_REG_SIZE : Z := 4.

(** ** State and operations *)

(** [LLWU->ME], [LLWU->PE1..PE4] and the callback table (a callback is
    named by its address, with its argument). *)
Record llwu_wakeup := mk_wakeup {
  llwu_me : Z;
  llwu_pe : list Z;
  wakeup_cb : list (option (nat * Z))
}.

Definition in_range (x hi : Z) : bool := Z.leb 0 x && Z.ltb x hi.

(** [llwu_enable_wakeup_module(m)]: [LLWU->ME |= 1 << m]. *)
Definition llwu_enable_wakeup_module (m : Z) (w : llwu_wakeup) : break_reason + llwu_wakeup :=
  if in_range m LLWU_WAKEUP_MODULE_END then
    inr (mk_wakeup (reg_set (llwu_me w) (Z.shiftl 1 m)) (llwu_pe w) (wakeup_cb w))
  else inl BREAK_INVALID_PARAM.

(** [llwu_disable_wakeup_module(m)]: [LLWU->ME &= ~(1 << m)]. *)
Definition llwu_disable_wakeup_module (m : Z) (w : llwu_wakeup) : break_reason + llwu_wakeup :=
  if in_range m LLWU_WAKEUP_MODULE_END then
    inr (mk_wakeup (reg_clear (llwu_me w) (Z.shiftl 1 m)) (llwu_pe w) (wakeup_cb w))
  else inl BREAK_INVALID_PARAM.

(** Which register [PEn] and which bit offset hold the field of [pin]. *)
Definition pin_reg (pin : Z) : nat := Z.to_nat (pin / LLWU_WAKEUP_PIN_REG_SIZE).
Definition pin_offset (pin : Z) : Z := (pin mod LLWU_WAKEUP_PIN_REG_SIZE) * LLWU_WAKEUP_EDGE_WIDTH.

(** [llwu_set_wakeup_pin(pin, edge)]:
    [PE[reg] = (PE[reg] & ~(MASK << off)) | (edge << off)]. *)
Definition llwu_set_wakeup_pin (pin : Z) (e : llwu_wakeup_edge) (w : llwu_wakeup)
    : break_reason + llwu_wakeup :=
  if in_range pin LLWU_WAKEUP_PIN_END then
    let old := default 0 (llwu_pe w !! pin_reg pin) in
    inr (mk_wakeup (llwu_me w)
           (<[pin_reg pin := u8 (field_set old (pin_offset pin) LLWU_WAKEUP_EDGE_WIDTH (edge_code e))]>
              (llwu_pe w))
           (wakeup_cb w))
  else inl BREAK_INVALID_PARAM.

(** The edge setting of [pin] as the hardware reads it. *)
Definition wakeup_pin_edge (pin : Z) (w : llwu_wakeup) : llwu_wakeup_edge :=
  edge_of_code (field_get (default 0 (llwu_pe w !! pin_reg pin)) (pin_offset pin) LLWU_WAKEUP_EDGE_WIDTH).

(** [llwu_set_wakeup_callback(pin, cb, arg)]: one slot per pin. *)
Definition llwu_set_wakeup_callback (pin : Z) (cb : nat) (arg : Z) (w : llwu_wakeup)
    : break_reason + llwu_wakeup :=
  if in_range pin LLWU_WAKEUP_PIN_END then
    inr (mk_wakeup (llwu_me w) (llwu_pe w) (<[Z.to_nat pin := Some (cb, arg)]> (wakeup_cb w)))
  else inl BREAK_INVALID_PARAM.

(** On wake-up: the callbacks of the flagged pins, in pin order; a
    flagged pin without a callback is ignored. *)
Definition llwu_wakeup_dispatch (flags : Z) (w : llwu_wakeup) : list (nat * Z) :=
  omap (fun p => if Z.testbit flags (Z.of_nat p) then mjoin (wakeup_cb w !! p) else None)
       (seq 0 (Z.to_nat LLWU_WAKEUP_PIN_END)).

(** The registry's shape: four 8-bit pin registers, sixteen slots. *)
Definition wakeup_wf (w : llwu_wakeup) : Prop :=
  length (llwu_pe w) = 4%nat /\ Forall (fits 8) (llwu_pe w) /\ length (wakeup_cb w) = 16%nat.

(** ** Properties *)

Lemma testbit_shiftl1 (m i : Z) : 0 <= m -> 0 <= i -> Z.testbit (Z.shiftl 1 m) i = Z.eqb m i.
Proof. intros. rewrite Z.shiftl_1_l. apply Z.pow2_bits_eqb. lia. Qed.

(** C33: Enabling module [m] sets exactly bit [m] of [ME]; disabling clears
    exactly that bit; the pin registers and callbacks are untouched. *)
Theorem llwu_wakeup_module_toggle (m : Z) (w : llwu_wakeup) :
  0 <= m < LLWU_WAKEUP_MODULE_END ->
  exists w1 w2, llwu_enable_wakeup_module m w = inr w1 /\ llwu_disable_wakeup_module m w = inr w2 /\
    (forall i, 0 <= i -> Z.testbit (llwu_me w1) i = Z.eqb m i || Z.testbit (llwu_me w) i) /\
    (forall i, 0 <= i -> Z.testbit (llwu_me w2) i = negb (Z.eqb m i) && Z.testbit (llwu_me w) i) /\
    llwu_pe w1 = llwu_pe w /\ llwu_pe w2 = llwu_pe w /\
    wakeup_cb w1 = wakeup_cb w /\ wakeup_cb w2 = wakeup_cb w.
Proof.
  intros Hm. unfold llwu_enable_wakeup_module, llwu_disable_wakeup_module, in_range.
  rewrite (proj2 (Z.leb_le 0 m)), (proj2 (Z.ltb_lt m _)) by (unfold LLWU_WAKEUP_MODULE_END in *; lia).
  do 2 eexists. do 2 (split; [reflexivity|]). simpl.
  split; [|split; [|done]]; intros i Hi.
  - rewrite testbit_reg_set, testbit_shiftl1 by lia. apply orb_comm.
  - rewrite testbit_reg_clear, testbit_shiftl1 by lia. apply andb_comm.
Qed.

(** C34: An identifier outside the enumerations hits the debug trap. *)
Theorem llwu_wakeup_invalid_ids (m pin : Z) (cb : nat) (arg : Z) (e : llwu_wakeup_edge)
    (w : llwu_wakeup) :
  ~ (0 <= m < LLWU_WAKEUP_MODULE_END) -> ~ (0 <= pin < LLWU_WAKEUP_PIN_END) ->
  llwu_enable_wakeup_module m w = inl BREAK_INVALID_PARAM /\
  llwu_disable_wakeup_module m w = inl BREAK_INVALID_PARAM /\
  llwu_set_wakeup_pin pin e w = inl BREAK_INVALID_PARAM /\
  llwu_set_wakeup_callback pin cb arg w = inl BREAK_INVALID_PARAM.
Proof.
  intros Hm Hp.
  assert (in_range m LLWU_WAKEUP_MODULE_END = false) as Em.
  { unfold in_range. destruct (Z.leb_spec 0 m), (Z.ltb_spec m LLWU_WAKEUP_MODULE_END); simpl; lia. }
  assert (in_range pin LLWU_WAKEUP_PIN_END = false) as Ep.
  { unfold in_range. destruct (Z.leb_spec 0 pin), (Z.ltb_spec pin LLWU_WAKEUP_PIN_END); simpl; lia. }
  unfold llwu_enable_wakeup_module, llwu_disable_wakeup_module, llwu_set_wakeup_pin,
    llwu_set_wakeup_callback. rewrite Em, Ep. done.
Qed.

Lemma edge_of_code_code (e : llwu_wakeup_edge) : edge_of_code (edge_code e) = e.
Proof. by destruct e. Qed.

Lemma edge_code_fits (e : llwu_wakeup_edge) : fits 2 (edge_code e).
Proof. unfold fits. destruct e; simpl; lia. Qed.

Lemma pin_reg_bound (pin : Z) : 0 <= pin < LLWU_WAKEUP_PIN_END -> (pin_reg pin < 4)%nat.
Proof.
  unfold pin_reg, LLWU_WAKEUP_PIN_REG_SIZE, LLWU_WAKEUP_PIN_END. intros Hp.
  assert (0 <= pin / 4 < 4) by (split; [apply Z.div_pos | apply Z.div_lt_upper_bound]; lia). lia.
Qed.

Lemma pin_offset_bound (pin : Z) : 0 <= pin_offset pin /\ pin_offset pin + 2 <= 8.
Proof.
  unfold pin_offset, LLWU_WAKEUP_PIN_REG_SIZE, LLWU_WAKEUP_EDGE_WIDTH.
  pose proof (Z.mod_pos_bound pin 4 ltac:(lia)). lia.
Qed.

(** Two pins of the same register have disjoint fields. *)
Lemma pin_fields_disjoint (p q : Z) :
  p <> q -> pin_reg p = pin_reg q -> 0 <= p -> 0 <= q ->
  pin_offset p + 2 <= pin_offset q \/ pin_offset q + 2 <= pin_offset p.
Proof.
  unfold pin_reg, pin_offset, LLWU_WAKEUP_PIN_REG_SIZE, LLWU_WAKEUP_EDGE_WIDTH.
  intros Hne Hr Hp Hq.
  assert (p / 4 = q / 4) as Hd by (apply Z2Nat.inj; [apply Z.div_pos | apply Z.div_pos | ]; lia).
  pose proof (Z.div_mod p 4 ltac:(lia)). pose proof (Z.div_mod q 4 ltac:(lia)). lia.
Qed.

(** C32: Writing a pin's edge: the pin reads back the edge written, every other
    pin keeps its setting, and the registers keep their shape. *)
Theorem llwu_set_wakeup_pin_roundtrip (pin : Z) (e : llwu_wakeup_edge) (w : llwu_wakeup) :
  wakeup_wf w -> 0 <= pin < LLWU_WAKEUP_PIN_END ->
  exists w', llwu_set_wakeup_pin pin e w = inr w' /\ wakeup_wf w' /\
    wakeup_pin_edge pin w' = e /\
    forall p, 0 <= p < LLWU_WAKEUP_PIN_END -> p <> pin -> wakeup_pin_edge p w' = wakeup_pin_edge p w.
Proof.
  intros (Hlen & Hfit & Hcb) Hp.
  pose proof (pin_reg_bound pin Hp) as Hr. pose proof (pin_offset_bound pin) as Ho.
  destruct (lookup_lt_is_Some_2 (llwu_pe w) (pin_reg pin)) as [old Hold]; [lia|].
  assert (fits 8 old) as Hofit by (eapply Forall_lookup_1; eauto).
  set (v := field_set old (pin_offset pin) LLWU_WAKEUP_EDGE_WIDTH (edge_code e)).
  assert (fits 8 v) as Hv
    by (apply field_set_fits; unfold LLWU_WAKEUP_EDGE_WIDTH; try lia; [exact Hofit | apply edge_code_fits]).
  unfold llwu_set_wakeup_pin, in_range.
  rewrite (proj2 (Z.leb_le 0 pin)), (proj2 (Z.ltb_lt pin _)) by lia. simpl.
  rewrite Hold. simpl. fold v. rewrite u8_id by done.
  eexists. split; [reflexivity|]. split; [|split].
  - unfold wakeup_wf. simpl. split; [rewrite length_insert; done|]. split; [|done].
    apply Forall_insert; done.
  - unfold wakeup_pin_edge. simpl. rewrite list_lookup_insert_eq by lia. simpl.
    subst v. rewrite field_get_set_eq by (try apply edge_code_fits; unfold LLWU_WAKEUP_EDGE_WIDTH; lia).
    apply edge_of_code_code.
  - intros q Hq Hne. unfold wakeup_pin_edge. simpl.
    destruct (decide (pin_reg q = pin_reg pin)) as [Heq|Hneq].
    + rewrite Heq, list_lookup_insert_eq, Hold by lia. simpl. subst v.
      pose proof (pin_offset_bound q).
      pose proof (pin_fields_disjoint pin q ltac:(congruence) ltac:(congruence) ltac:(lia) ltac:(lia)).
      rewrite field_get_set_other; try apply edge_code_fits; unfold LLWU_WAKEUP_EDGE_WIDTH; try lia.
      done.
    + rewrite list_lookup_insert_ne by congruence. done.
Qed.

(** One callback slot per pin: the last write wins, other slots stay. *)
Theorem llwu_set_wakeup_callback_last_wins (pin : Z) (cb1 cb2 : nat) (a1 a2 : Z) (w : llwu_wakeup) :
  wakeup_wf w -> 0 <= pin < LLWU_WAKEUP_PIN_END ->
  exists w1 w2, llwu_set_wakeup_callback pin cb1 a1 w = inr w1 /\
    llwu_set_wakeup_callback pin cb2 a2 w1 = inr w2 /\
    wakeup_cb w2 !! Z.to_nat pin = Some (Some (cb2, a2)) /\
    forall q, q <> Z.to_nat pin -> wakeup_cb w2 !! q = wakeup_cb w !! q.
Proof.
  intros (_ & _ & Hcb) Hp. unfold llwu_set_wakeup_callback, in_range.
  rewrite (proj2 (Z.leb_le 0 pin)), (proj2 (Z.ltb_lt pin _)) by lia. simpl.
  do 2 eexists. do 2 (split; [reflexivity|]). simpl.
  rewrite list_insert_insert_eq. split.
  - apply list_lookup_insert_eq. unfold LLWU_WAKEUP_PIN_END in *. lia.
  - intros q Hq. rewrite list_lookup_insert_ne by done. done.
Qed.

(** On wake-up, the callbacks run are exactly those registered for a
    flagged pin: a flagged pin without a callback is silently skipped. *)
Theorem llwu_wakeup_dispatch_spec (flags : Z) (w : llwu_wakeup) (cb : nat) (arg : Z) :
  (cb, arg) ∈ llwu_wakeup_dispatch flags w <->
  exists p : nat, (p < 16)%nat /\ Z.testbit flags (Z.of_nat p) = true /\
                  wakeup_cb w !! p = Some (Some (cb, arg)).
Proof.
  unfold llwu_wakeup_dispatch, LLWU_WAKEUP_PIN_END. simpl Z.to_nat. rewrite list_elem_of_omap. split.
  - intros (p & Hp & Hf). apply elem_of_seq in Hp.
    destruct (Z.testbit flags (Z.of_nat p)) eqn:Ht; [|discriminate].
    exists p. split; [simpl in Hp; lia|]. split; [done|].
    destruct (wakeup_cb w !! p) as [[x|]|]; simpl in Hf; congruence.
  - intros (p & Hp & Ht & Hc). exists p. split; [apply elem_of_seq; simpl; lia|].
    rewrite Ht, Hc. done.
Qed.

(** ** Witnesses *)

(** The registry at reset: nothing enabled, no callback. *)
Definition wakeup_reset : llwu_wakeup := mk_wakeup 0 [0; 0; 0; 0] (replicate 16 None).

Lemma wakeup_reset_wf : wakeup_wf wakeup_reset.
Proof.
  split; [reflexivity|]. split; [|reflexivity].
  repeat constructor; unfold fits; lia.
Qed.

Lemma llwu_wakeup_module_toggle_witness :
  0 <= 5 < LLWU_WAKEUP_MODULE_END /\
  exists w1 w2, llwu_enable_wakeup_module 5 wakeup_reset = inr w1 /\
    llwu_disable_wakeup_module 5 wakeup_reset = inr w2 /\
    (forall i, 0 <= i -> Z.testbit (llwu_me w1) i = Z.eqb 5 i || Z.testbit (llwu_me wakeup_reset) i) /\
    (forall i, 0 <= i -> Z.testbit (llwu_me w2) i = negb (Z.eqb 5 i) && Z.testbit (llwu_me wakeup_reset) i) /\
    llwu_pe w1 = llwu_pe wakeup_reset /\ llwu_pe w2 = llwu_pe wakeup_reset /\
    wakeup_cb w1 = wakeup_cb wakeup_reset /\ wakeup_cb w2 = wakeup_cb wakeup_reset.
Proof.
  assert (0 <= 5 < LLWU_WAKEUP_MODULE_END) as H by (unfold LLWU_WAKEUP_MODULE_END; lia).
  split; [exact H|]. exact (llwu_wakeup_module_toggle 5 wakeup_reset H).
Defined.

Lemma llwu_wakeup_invalid_ids_witness :
  ~ (0 <= 8 < LLWU_WAKEUP_MODULE_END) /\ ~ (0 <= 16 < LLWU_WAKEUP_PIN_END) /\
  llwu_enable_wakeup_module 8 wakeup_reset = inl BREAK_INVALID_PARAM /\
  llwu_disable_wakeup_module 8 wakeup_reset = inl BREAK_INVALID_PARAM /\
  llwu_set_wakeup_pin 16 LLWU_WAKEUP_EDGE_ANY wakeup_reset = inl BREAK_INVALID_PARAM /\
  llwu_set_wakeup_callback 16 3 0 wakeup_reset = inl BREAK_INVALID_PARAM.
Proof.
  assert (~ (0 <= 8 < LLWU_WAKEUP_MODULE_END)) as H1 by (unfold LLWU_WAKEUP_MODULE_END; lia).
  assert (~ (0 <= 16 < LLWU_WAKEUP_PIN_END)) as H2 by (unfold LLWU_WAKEUP_PIN_END; lia).
  split; [exact H1|]. split; [exact H2|].
  exact (llwu_wakeup_invalid_ids 8 16 3 0 LLWU_WAKEUP_EDGE_ANY wakeup_reset H1 H2).
Defined.

Lemma llwu_set_wakeup_pin_roundtrip_witness :
  wakeup_wf wakeup_reset /\ 0 <= 6 < LLWU_WAKEUP_PIN_END /\
  exists w', llwu_set_wakeup_pin 6 LLWU_WAKEUP_EDGE_FALLING wakeup_reset = inr w' /\ wakeup_wf w' /\
    wakeup_pin_edge 6 w' = LLWU_WAKEUP_EDGE_FALLING /\
    forall p, 0 <= p < LLWU_WAKEUP_PIN_END -> p <> 6 -> wakeup_pin_edge p w' = wakeup_pin_edge p wakeup_reset.
Proof.
  assert (0 <= 6 < LLWU_WAKEUP_PIN_END) as H by (unfold LLWU_WAKEUP_PIN_END; lia).
  split; [exact wakeup_reset_wf|]. split; [exact H|].
  exact (llwu_set_wakeup_pin_roundtrip 6 LLWU_WAKEUP_EDGE_FALLING wakeup_reset wakeup_reset_wf H).
Defined.

Lemma llwu_set_wakeup_callback_last_wins_witness :
  wakeup_wf wakeup_reset /\ 0 <= 3 < LLWU_WAKEUP_PIN_END /\
  exists w1 w2, llwu_set_wakeup_callback 3 7 1 wakeup_reset = inr w1 /\
    llwu_set_wakeup_callback 3 9 2 w1 = inr w2 /\
    wakeup_cb w2 !! Z.to_nat 3 = Some (Some (9%nat, 2)) /\
    forall q, q <> Z.to_nat 3 -> wakeup_cb w2 !! q = wakeup_cb wakeup_reset !! q.
Proof.
  assert (0 <= 3 < LLWU_WAKEUP_PIN_END) as H by (unfold LLWU_WAKEUP_PIN_END; lia).
  split; [exact wakeup_reset_wf|]. split; [exact H|].
  exact (llwu_set_wakeup_callback_last_wins 3 7 9 1 2 wakeup_reset wakeup_reset_wf H).
Defined.

End Wakeup.
