(* ===== verification/Arbiter.v ===== *)
(** * The sleep arbiter's cycle: decide, sleep, dispatch the wake-up callbacks

    The idle loop's [llwu_sleep()] (llwu.c, not in [src/]; spec 2 and 4.2)
    takes the policy decision of [Llwu] with interrupts masked, enters the
    power mode and, once an interrupt has woken the core, runs the
    callbacks registered with [llwu_set_wakeup_callback] for the pins the
    LLWU flagged ([Wakeup]).  The LLWU watches its pins only in LLS (in
    WAIT, STOP and VLPS any enabled interrupt wakes the core and no LLWU
    flag is set), and it flags a pin only when the edge seen on it is one
    its [PEn] field selects.

    Proved: on a well-formed registry one cycle enters the policy's mode,
    restores the interrupt mask, and runs exactly the callbacks of the pins
    that saw an edge their setting selects, provided the mode was LLS; a
    pin whose edge setting is [LLWU_WAKEUP_EDGE_DISABLE] never has its
    callback run. *)

From stdpp Require Import base list gmap.
From Stdlib Require Import ZArith Lia.
From S2P Require Import Prelude Irq Llwu Wakeup.

Module Arbiter.

(** ** The hardware around the cycle *)

(** An edge seen on a wake-up pin while the core sleeps. *)
Inductive line_edge := Rising | Falling.

(** Whether a pin's [PEn] setting selects an edge. *)
Definition edge_matches (cfg : Wakeup.llwu_wakeup_edge) (e : line_edge) : bool :=
  match cfg, e with
  | Wakeup.LLWU_WAKEUP_EDGE_ANY, _ => true
  | Wakeup.LLWU_WAKEUP_EDGE_RISING, Rising => true
  | Wakeup.LLWU_WAKEUP_EDGE_FALLING, Falling => true
  | _, _ => false
  end.

(** The LLWU wakes the core from LLS only. *)
Definition llwu_active (m : Llwu.power_mode) : bool :=
  match m with Llwu.PmLls => true | _ => false end.

(** [LLWU->F1:F2]: one flag per pin that saw an edge its setting selects. *)
Definition llwu_pin_flags (w : Wakeup.llwu_wakeup) (ev : list (nat * line_edge)) : Z :=
  foldr (fun pe acc =>
           if bool_decide (pe.1 < 16)%nat && edge_matches (Wakeup.wakeup_pin_edge (Z.of_nat pe.1) w) pe.2
           then Z.setbit acc (Z.of_nat pe.1) else acc) 0 ev.

(** ** One cycle *)

(** [llwu_sleep()] with the wake-up: the mode entered and the callbacks
    run (with their arguments), and the core's mask after it; [None] when
    the walk of the controllers gives up and nothing is entered. *)
Definition llwu_sleep_cycle (s : Llwu.llwu_state) (w : Wakeup.llwu_wakeup) (c : Irq.cpu)
    (ev : list (nat * line_edge)) : option (Llwu.power_mode * list (nat * Z)) * Irq.cpu :=
  let '(m, c') := Llwu.llwu_sleep s c in
  ((fun m => (m, Wakeup.llwu_wakeup_dispatch (if llwu_active m then llwu_pin_flags w ev else 0) w)) <$> m, c').

(** ** Properties *)

Lemma testbit_pin_flags (w : Wakeup.llwu_wakeup) (ev : list (nat * line_edge)) (q : nat) :
  Z.testbit (llwu_pin_flags w ev) (Z.of_nat q) = true <->
  (q < 16)%nat /\ exists e, (q, e) ∈ ev /\ edge_matches (Wakeup.wakeup_pin_edge (Z.of_nat q) w) e = true.
Proof.
  induction ev as [|[p e] ev IH]; simpl.
  - rewrite Z.testbit_0_l. split; [done|]. intros (_ & e & He & _). by apply not_elem_of_nil in He.
  - destruct (bool_decide (p < 16)%nat && _) eqn:Hc.
    + apply andb_true_iff in Hc as [Hp He]. apply bool_decide_eq_true in Hp.
      destruct (decide (p = q)) as [->|Hne].
      * rewrite Z.setbit_eq by lia. split; [|done]. intros _. split; [done|].
        exists e. split; [left|]; done.
      * rewrite Z.setbit_neq by lia. rewrite IH. setoid_rewrite elem_of_cons.
        split; intros (Hq & e' & He' & Hm); (split; [done|]); exists e'; (split; [|done]);
          [by right | destruct He' as [[= ->]|]; [done|done]].
    + rewrite IH. setoid_rewrite elem_of_cons.
      split; intros (Hq & e' & He' & Hm); (split; [done|]); exists e'; (split; [|done]); [by right|].
      destruct He' as [[= -> ->]|]; [|done].
      rewrite bool_decide_true in Hc by done. simpl in Hc. congruence.
Qed.

(** C12: One cycle of the sleep arbiter on a well-formed registry enters
    the mode of the sleep policy, restores the interrupt mask, and on
    resume runs exactly the callbacks registered for the pins that saw an
    edge their [PEn] setting selects, and only when the mode was LLS; a
    pin set to [LLWU_WAKEUP_EDGE_DISABLE] never has its callback run. *)
Theorem llwu_sleep_cycle_spec (s : Llwu.llwu_state) (w : Wakeup.llwu_wakeup) (c : Irq.cpu)
    (ev : list (nat * line_edge)) (l : list nat) :
  Llwu.chain (Llwu.controls s) (Llwu.ctl_head s) l ->
  exists cbs,
    llwu_sleep_cycle s w c ev =
      (Some (Llwu.llwu_choose (Llwu.stop_sema s) (Llwu.vlps_sema s) (Llwu.lls_sema s)
               (forallb (Llwu.allow_of (Llwu.controls s)) l), cbs),
       Irq.mk_cpu (Irq.primask c) (Irq.ipsr c)) /\
    forall cb arg, (cb, arg) ∈ cbs <->
      Llwu.llwu_choose (Llwu.stop_sema s) (Llwu.vlps_sema s) (Llwu.lls_sema s)
        (forallb (Llwu.allow_of (Llwu.controls s)) l) = Llwu.PmLls /\
      exists (p : nat) e, (p < 16)%nat /\ (p, e) ∈ ev /\
        edge_matches (Wakeup.wakeup_pin_edge (Z.of_nat p) w) e = true /\
        Wakeup.wakeup_cb w !! p = Some (Some (cb, arg)).
Proof.
  intros Hc. unfold llwu_sleep_cycle. rewrite (Llwu.llwu_sleep_chain _ l) by done. simpl.
  eexists. split; [reflexivity|]. intros cb arg. rewrite Wakeup.llwu_wakeup_dispatch_spec.
  destruct (Llwu.llwu_choose _ _ _ _); simpl;
    [| | | setoid_rewrite testbit_pin_flags; split;
           [intros (p & Hp & (_ & e & He & Hm) & Hcb); split; [done|]; by exists p, e
           |intros (_ & p & e & Hp & He & Hm & Hcb); exists p; split; [done|];
            split; [split; [done|]; by exists e | done]]];
    (split; [intros (p & _ & Ht & _); by rewrite Z.testbit_0_l in Ht | intros [[=] _]]).
Qed.

(** The arbiter's example: one controller allowing, nothing inhibited (so
    LLS); pin 6 (PTC1) wakes on a falling edge with callback 7. *)
Definition wake_pin6 : Wakeup.llwu_wakeup :=
  match Wakeup.llwu_set_wakeup_pin 6 Wakeup.LLWU_WAKEUP_EDGE_FALLING Wakeup.wakeup_reset with
  | inr w1 => match Wakeup.llwu_set_wakeup_callback 6 7 42 w1 with inr w2 => w2 | inl _ => w1 end
  | inl _ => Wakeup.wakeup_reset
  end.

Lemma llwu_sleep_cycle_spec_witness :
  Llwu.chain (Llwu.controls (Llwu.llwu_one 0 0 0 1)) (Llwu.ctl_head (Llwu.llwu_one 0 0 0 1)) [0%nat] /\
  exists cbs,
    llwu_sleep_cycle (Llwu.llwu_one 0 0 0 1) wake_pin6 (Irq.mk_cpu false 0) [(6%nat, Falling); (3%nat, Rising)] =
      (Some (Llwu.llwu_choose (Llwu.stop_sema (Llwu.llwu_one 0 0 0 1)) (Llwu.vlps_sema (Llwu.llwu_one 0 0 0 1))
               (Llwu.lls_sema (Llwu.llwu_one 0 0 0 1))
               (forallb (Llwu.allow_of (Llwu.controls (Llwu.llwu_one 0 0 0 1))) [0%nat]), cbs),
       Irq.mk_cpu (Irq.primask (Irq.mk_cpu false 0)) (Irq.ipsr (Irq.mk_cpu false 0))) /\
    forall cb arg, (cb, arg) ∈ cbs <->
      Llwu.llwu_choose (Llwu.stop_sema (Llwu.llwu_one 0 0 0 1)) (Llwu.vlps_sema (Llwu.llwu_one 0 0 0 1))
        (Llwu.lls_sema (Llwu.llwu_one 0 0 0 1))
        (forallb (Llwu.allow_of (Llwu.controls (Llwu.llwu_one 0 0 0 1))) [0%nat]) = Llwu.PmLls /\
      exists (p : nat) e, (p < 16)%nat /\ (p, e) ∈ [(6%nat, Falling); (3%nat, Rising)] /\
        edge_matches (Wakeup.wakeup_pin_edge (Z.of_nat p) wake_pin6) e = true /\
        Wakeup.wakeup_cb wake_pin6 !! p = Some (Some (cb, arg)).
Proof.
  split; [apply Llwu.chain_one|].
  exact (llwu_sleep_cycle_spec (Llwu.llwu_one 0 0 0 1) wake_pin6 (Irq.mk_cpu false 0)
           [(6%nat, Falling); (3%nat, Rising)] [0%nat] (Llwu.chain_one 0 0 0 1)).
Defined.

(** That cycle enters LLS and runs callback 7 with argument 42 once. *)
Example llwu_sleep_cycle_example :
  llwu_sleep_cycle (Llwu.llwu_one 0 0 0 1) wake_pin6 (Irq.mk_cpu false 0) [(6%nat, Falling); (3%nat, Rising)] =
    (Some (Llwu.PmLls, [(7%nat, 42)]), Irq.mk_cpu false 0).
Proof. vm_compute. reflexivity. Qed.

End Arbiter.
