(* ===== verification/Main.v ===== *)
(** * Board start-up: [src/platform/mulle/contiki-main.c]

    [main] brings the board up, configures the wake-up controller
    ([llwu_enable_wakeup_module], [llwu_register], [llwu_set_allow] on its
    own [LLWU_CONTROL(deep_sleep)] block), provisions the non-volatile
    memory ([mulle_nvram_init], [increase_boot_count]) and the file system
    ([init_cfs]), and then loops forever: run the Contiki processes until
    none has work, then [llwu_sleep].

    - The FRAM behind [mulle_nvram] (nvram-spi.c, not in [src/]) is a byte
      array with one fault flag per coming access ([nvram]); the board
      constants [MULLE_NVRAM_*] (config-board.h, not in [src/]) are the
      variables of the section [Nvram] with the hypotheses the layout needs.
    - The Coffee file system (not in [src/]) is the marker file [formated]
      and the rest of the store, with fault flags for the two operations
      [init_cfs] checks.
    - [main]'s configuration of the LLWU and the NVIC priority loop run on
      the models of [Llwu] and [Wakeup]; the idle loop is a function of the
      sequence of values [process_run()] returns.
    - The bring-up calls into code outside [src/] (LEDs, power control,
      clocks, RTC, SPI, Contiki processes, network) change no state of the
      development, and their order is not modelled. *)

From stdpp Require Import base list gmap.
From Stdlib Require Import ZArith Lia.
From S2P Require Import Prelude CpuConf Irq Llwu Wakeup.

Module Main.

(** ** The non-volatile memory *)

(** The FRAM as [mulle_nvram->read] / [->write] see it: its bytes, and for
    each coming access whether its transfer comes short. *)
Record nvram := mk_nvram { nv_mem : list Z; nv_faults : list bool }.

(** One access consumes one fault flag (none left: the access succeeds). *)
Definition nv_access (d : nvram) : bool * nvram :=
  match nv_faults d with
  | [] => (false, d)
  | b :: rest => (b, mk_nvram (nv_mem d) rest)
  end.

Definition nv_in_range (d : nvram) (addr len : Z) : bool :=
  Z.leb 0 addr && Z.leb (addr + len) (Z.of_nat (length (nv_mem d))).

(** [read(dev, dst, src, len)]: the number of bytes transferred (0 for a
    failed or out-of-range access) and the bytes. *)
Definition nvram_read (d : nvram) (addr len : Z) : Z * list Z * nvram :=
  let '(bad, d1) := nv_access d in
  if bad || negb (nv_in_range d addr len) then (0, [], d1)
  else (len, take (Z.to_nat len) (drop (Z.to_nat addr) (nv_mem d)), d1).

Definition write_bytes (addr : Z) (bs mem : list Z) : list Z :=
  take (Z.to_nat addr) mem ++ bs ++ drop (Z.to_nat addr + length bs) mem.

(** [write(dev, src, dst, len)]. *)
Definition nvram_write (d : nvram) (addr : Z) (bs : list Z) : Z * nvram :=
  let '(bad, d1) := nv_access d in
  if bad || negb (nv_in_range d addr (Z.of_nat (length bs))) then (0, d1)
  else (Z.of_nat (length bs), mk_nvram (write_bytes addr bs (nv_mem d)) (nv_faults d1)).

(** The [union { uint32_t u32; uint8_t u8[4]; } rec] of [mulle_nvram_init]
    and [increase_boot_count]: the Cortex-M4 is little-endian. *)
Definition le_bytes (v : Z) : list Z :=
  [Z.land v 255; Z.land (Z.shiftr v 8) 255; Z.land (Z.shiftr v 16) 255; Z.land (Z.shiftr v 24) 255].
Definition le_word (bs : list Z) : Z := foldr (fun b acc => b + 256 * acc) 0 bs.

(** The word stored at [addr]. *)
Definition nv_word (addr : Z) (d : nvram) : Z := le_word (take 4 (drop (Z.to_nat addr) (nv_mem d))).

Section Nvram.

(** The board configuration: the size of the FRAM, the addresses of the
    magic word and of the boot counter, and the magic value. *)
Context (MULLE_NVRAM_CAPACITY MULLE_NVRAM_MAGIC MULLE_NVRAM_BOOT_COUNT
         MULLE_NVRAM_MAGIC_EXPECTED : Z).

(** [for (i = 0; i < MULLE_NVRAM_CAPACITY; i += sizeof(zero))
    if (write(zero, i, 8) != 8) return -4;]: [Some (0, d)] when the loop
    ends, [Some (-4, d)] when a write comes short, [None] out of fuel. *)
Fixpoint nvram_zero_loop (fuel : nat) (i : Z) (d : nvram) : option (Z * nvram) :=
  match fuel with
  | O => None
  | S f =>
      if Z.ltb i MULLE_NVRAM_CAPACITY then
        let '(cnt, d1) := nvram_write d i (replicate 8 0) in
        if Z.eqb cnt 8 then nvram_zero_loop f (i + 8) d1 else Some (-4, d1)
      else Some (0, d)
  end.

(** One iteration per 8 bytes, and the final test. *)
Definition zero_loop_fuel : nat := Z.to_nat (MULLE_NVRAM_CAPACITY / 8) + 2.

(** [mulle_nvram_init()]: the status, whether [mulle_nvram] was set, and
    the device; [spi_ok] is the outcome of [nvram_spi_init]. *)
Definition mulle_nvram_init (spi_ok : bool) (d : nvram) : option (Z * bool * nvram) :=
  if negb spi_ok then Some (-2, false, d) else
  let '(cnt, bs, d1) := nvram_read d MULLE_NVRAM_MAGIC 4 in
  if negb (Z.eqb cnt 4) then Some (-3, true, d1) else
  if Z.eqb (le_word bs) MULLE_NVRAM_MAGIC_EXPECTED then Some (0, true, d1) else
  match nvram_zero_loop zero_loop_fuel 0 d1 with
  | None => None
  | Some (r, d2) =>
      if negb (Z.eqb r 0) then Some (r, true, d2) else
      let '(cnt', d3) := nvram_write d2 MULLE_NVRAM_MAGIC (le_bytes MULLE_NVRAM_MAGIC_EXPECTED) in
      if negb (Z.eqb cnt' 4) then Some (-5, true, d3) else Some (0, true, d3)
  end.

(** [increase_boot_count()]: read the counter, give up on a short read,
    write back [++rec.u32] (the result of the write is ignored). *)
Definition increase_boot_count (d : nvram) : nvram :=
  let '(cnt, bs, d1) := nvram_read d MULLE_NVRAM_BOOT_COUNT 4 in
  if negb (Z.eqb cnt 4) then d1
  else (nvram_write d1 MULLE_NVRAM_BOOT_COUNT (le_bytes (u32 (le_word bs + 1)))).2.

(** [int status = mulle_nvram_init(); if (status == 0) increase_boot_count();] *)
Definition main_nvram (spi_ok : bool) (d : nvram) : option (Z * bool * nvram) :=
  '(st, p, d1) ← mulle_nvram_init spi_ok d;
  Some (st, p, if Z.eqb st 0 then increase_boot_count d1 else d1).

(** ** Lemmas on the device *)

Lemma length_write_bytes (addr : Z) (bs mem : list Z) :
  0 <= addr -> addr + Z.of_nat (length bs) <= Z.of_nat (length mem) ->
  length (write_bytes addr bs mem) = length mem.
Proof.
  intros. unfold write_bytes. rewrite !length_app, length_take, length_drop. lia.
Qed.

(** The byte at [i] after a write: the written one inside the range, the
    old one outside. *)
Lemma lookup_write_bytes (addr : Z) (bs mem : list Z) (i : nat) :
  0 <= addr -> addr + Z.of_nat (length bs) <= Z.of_nat (length mem) ->
  write_bytes addr bs mem !! i =
    if bool_decide (Z.to_nat addr <= i < Z.to_nat addr + length bs)%nat
    then bs !! (i - Z.to_nat addr)%nat else mem !! i.
Proof.
  intros Ha Hl. unfold write_bytes. case_bool_decide as Hi.
  - rewrite lookup_app_r by (rewrite length_take; lia).
    rewrite length_take, Nat.min_l by lia.
    rewrite lookup_app_l by lia. reflexivity.
  - destruct (decide (i < Z.to_nat addr)%nat).
    + rewrite lookup_app_l by (rewrite length_take; lia). apply lookup_take_lt; lia.
    + rewrite lookup_app_r by (rewrite length_take; lia).
      rewrite length_take, Nat.min_l by lia.
      rewrite lookup_app_r by lia. rewrite lookup_drop. f_equal. lia.
Qed.

Lemma le_word_bytes_4 (b0 b1 b2 b3 : Z) :
  le_word [b0; b1; b2; b3] = b0 + 256 * b1 + 65536 * b2 + 16777216 * b3.
Proof. unfold le_word. simpl. lia. Qed.

Lemma le_bytes_mod (v : Z) :
  le_bytes v = [v mod 256; v / 256 mod 256; v / 65536 mod 256; v / 16777216 mod 256].
Proof.
  unfold le_bytes. change 255 with (Z.ones 8).
  rewrite !Z.land_ones, !Z.shiftr_div_pow2 by lia. reflexivity.
Qed.

Lemma length_le_bytes (v : Z) : length (le_bytes v) = 4%nat.
Proof. reflexivity. Qed.

Lemma le_bytes_fit (v : Z) : Forall (fits 8) (le_bytes v).
Proof.
  rewrite le_bytes_mod. unfold fits.
  repeat constructor; apply Z.mod_pos_bound; lia.
Qed.

(** The word of a healthy read is the word of the bytes in memory. *)
Lemma nvram_read_ok (d : nvram) (addr len : Z) :
  nv_faults d = [] -> 0 <= addr -> 0 <= len -> addr + len <= Z.of_nat (length (nv_mem d)) ->
  nvram_read d addr len = (len, take (Z.to_nat len) (drop (Z.to_nat addr) (nv_mem d)), d).
Proof.
  intros Hf Ha Hl Hr. unfold nvram_read, nv_access, nv_in_range. rewrite Hf. simpl.
  rewrite (proj2 (Z.leb_le _ _) Ha), (proj2 (Z.leb_le _ _) Hr). reflexivity.
Qed.

Lemma nvram_write_ok (d : nvram) (addr : Z) (bs : list Z) :
  nv_faults d = [] -> 0 <= addr -> addr + Z.of_nat (length bs) <= Z.of_nat (length (nv_mem d)) ->
  nvram_write d addr bs = (Z.of_nat (length bs), mk_nvram (write_bytes addr bs (nv_mem d)) []).
Proof.
  intros Hf Ha Hr. unfold nvram_write, nv_access, nv_in_range. rewrite Hf. simpl.
  rewrite (proj2 (Z.leb_le _ _) Ha), (proj2 (Z.leb_le _ _) Hr), Hf. reflexivity.
Qed.

(** A faulty access transfers nothing and leaves the bytes alone. *)
Lemma nvram_read_fault (d : nvram) (addr len : Z) (rest : list bool) :
  nv_faults d = true :: rest -> nvram_read d addr len = (0, [], mk_nvram (nv_mem d) rest).
Proof. intros Hf. unfold nvram_read, nv_access. rewrite Hf. reflexivity. Qed.

(** ** The zeroing loop *)

Lemma nvram_zero_loop_S (f : nat) (i : Z) (d : nvram) :
  nvram_zero_loop (S f) i d =
    if Z.ltb i MULLE_NVRAM_CAPACITY then
      let '(cnt, d1) := nvram_write d i (replicate 8 0) in
      if Z.eqb cnt 8 then nvram_zero_loop f (i + 8) d1 else Some (-4, d1)
    else Some (0, d).
Proof. reflexivity. Qed.

(** The loop returns within [f + 1] iterations from any [i] with at most
    [8 f] bytes left, whatever the device does. *)
Lemma nvram_zero_loop_total (f : nat) (i : Z) (d : nvram) :
  MULLE_NVRAM_CAPACITY - i <= 8 * Z.of_nat f ->
  exists r d', nvram_zero_loop (S f) i d = Some (r, d').
Proof.
  revert i d. induction f as [|f IH]; intros i d Hf; rewrite nvram_zero_loop_S.
  - rewrite (proj2 (Z.ltb_ge _ _)) by lia. eauto.
  - destruct (Z.ltb i MULLE_NVRAM_CAPACITY); [|eauto].
    destruct (nvram_write d i (replicate 8 0)) as [cnt d1].
    destruct (Z.eqb cnt 8); [|eauto]. apply IH. lia.
Qed.

(** The four bytes at [b] after a write of [bs] at [a]: [bs] when [b = a],
    the old ones when the ranges are disjoint. *)
Lemma window_write_bytes_same (a : Z) (bs mem : list Z) :
  0 <= a -> length bs = 4%nat -> a + 4 <= Z.of_nat (length mem) ->
  take 4 (drop (Z.to_nat a) (write_bytes a bs mem)) = bs.
Proof.
  intros Ha Hb Hl. apply list_eq. intros i.
  destruct (decide (i < 4)%nat).
  - rewrite lookup_take_lt, lookup_drop, lookup_write_bytes by lia.
    rewrite bool_decide_true by lia. f_equal. lia.
  - rewrite lookup_take_ge by lia. symmetry. apply lookup_ge_None_2. lia.
Qed.

Lemma window_write_bytes_other (a b : Z) (bs mem : list Z) :
  0 <= a -> 0 <= b -> a + Z.of_nat (length bs) <= Z.of_nat (length mem) ->
  a + Z.of_nat (length bs) <= b \/ b + 4 <= a ->
  take 4 (drop (Z.to_nat b) (write_bytes a bs mem)) = take 4 (drop (Z.to_nat b) mem).
Proof.
  intros Ha Hb Hl Hd. apply list_eq. intros i.
  destruct (decide (i < 4)%nat).
  - rewrite !lookup_take_lt, !lookup_drop, lookup_write_bytes by lia.
    rewrite bool_decide_false by lia. reflexivity.
  - rewrite !lookup_take_ge by lia. reflexivity.
Qed.

Lemma le_word_le_bytes (v : Z) : fits 32 v -> le_word (le_bytes v) = v.
Proof.
  intros Hv. unfold fits in Hv. rewrite le_bytes_mod, le_word_bytes_4.
  assert (v / 65536 = v / 256 / 256) as E1 by (rewrite Z.div_div by lia; reflexivity).
  assert (v / 16777216 = v / 256 / 256 / 256) as E2 by (rewrite !Z.div_div by lia; reflexivity).
  rewrite E1, E2.
  Z.div_mod_to_equations. lia.
Qed.

Lemma take_write_zeros (i : Z) (mem : list Z) :
  0 <= i -> i + 8 <= Z.of_nat (length mem) ->
  take (Z.to_nat (i + 8)) (write_bytes i (replicate 8 0) mem) =
    take (Z.to_nat i) mem ++ replicate 8 0.
Proof.
  intros Hi Hl. apply list_eq. intros k.
  destruct (decide (k < Z.to_nat (i + 8))%nat).
  - rewrite lookup_take_lt, lookup_write_bytes by (rewrite ?length_replicate; lia).
    rewrite length_replicate. case_bool_decide.
    + rewrite lookup_app_r by (rewrite length_take; lia).
      rewrite length_take, Nat.min_l by lia. reflexivity.
    + rewrite lookup_app_l by (rewrite length_take; lia).
      rewrite lookup_take_lt by lia. reflexivity.
  - rewrite lookup_take_ge by lia. symmetry. apply lookup_ge_None_2.
    rewrite length_app, length_take, length_replicate. lia.
Qed.

(** On a healthy device of the board's size, the loop zeroes the whole
    memory. *)
Lemma nvram_zero_loop_healthy (f : nat) (i : Z) (mem : list Z) :
  MULLE_NVRAM_CAPACITY mod 8 = 0 -> Z.of_nat (length mem) = MULLE_NVRAM_CAPACITY ->
  0 <= i <= MULLE_NVRAM_CAPACITY -> i mod 8 = 0 -> MULLE_NVRAM_CAPACITY - i <= 8 * Z.of_nat f ->
  take (Z.to_nat i) mem = replicate (Z.to_nat i) 0 ->
  nvram_zero_loop (S f) i (mk_nvram mem []) = Some (0, mk_nvram (replicate (length mem) 0) []).
Proof.
  revert i mem. induction f as [|f IH]; intros i mem Hc Hl Hi Hi8 Hf Ht;
    rewrite nvram_zero_loop_S.
  - rewrite (proj2 (Z.ltb_ge _ _)) by lia.
    assert (Z.to_nat i = length mem) as E by lia.
    rewrite E, take_ge in Ht by lia. rewrite <- Ht. reflexivity.
  - destruct (Z.ltb_spec i MULLE_NVRAM_CAPACITY) as [Hlt|Hge].
    + assert (i + 8 <= MULLE_NVRAM_CAPACITY) as Hi8' by (Z.div_mod_to_equations; lia).
      rewrite nvram_write_ok by (cbn [nv_faults nv_mem]; rewrite ?length_replicate; first [reflexivity | lia]).
      rewrite length_replicate. change (Z.of_nat 8 =? 8) with true. cbn beta iota.
      rewrite <- (length_write_bytes i (replicate 8 0) mem) by (rewrite ?length_replicate; lia).
      apply IH; rewrite ?length_write_bytes by (rewrite ?length_replicate; lia); try lia; [Z.div_mod_to_equations; lia|].
      rewrite take_write_zeros by lia. rewrite Ht, <- replicate_add. f_equal. lia.
    + assert (Z.to_nat i = length mem) as E by lia.
      rewrite E, take_ge in Ht by lia. rewrite <- Ht. reflexivity.
Qed.

Lemma window_replicate (b : Z) (n : nat) :
  0 <= b -> b + 4 <= Z.of_nat n -> take 4 (drop (Z.to_nat b) (replicate n 0)) = [0; 0; 0; 0].
Proof.
  intros Hb Hn. rewrite drop_replicate, take_replicate.
  replace (4 `min` (n - Z.to_nat b))%nat with 4%nat by lia. reflexivity.
Qed.

(** [mulle_nvram_init] always returns, whatever the device does: the
    zeroing loop, given one step per 8-byte block and one for its final
    test, never runs out of fuel. *)
Lemma mulle_nvram_init_total (spi_ok : bool) (d : nvram) :
  0 <= MULLE_NVRAM_CAPACITY -> is_Some (mulle_nvram_init spi_ok d).
Proof.
  intros Hc. unfold mulle_nvram_init. destruct spi_ok; [|by eexists]. simpl.
  destruct (nvram_read d MULLE_NVRAM_MAGIC 4) as [[cnt bs] d1].
  destruct (negb (cnt =? 4)); [by eexists|]. destruct (le_word bs =? MULLE_NVRAM_MAGIC_EXPECTED); [by eexists|].
  destruct (nvram_zero_loop_total (Z.to_nat (MULLE_NVRAM_CAPACITY / 8) + 1) 0 d1) as (r & d2 & E).
  { rewrite Nat2Z.inj_add, Z2Nat.id by (apply Z.div_pos; lia). Z.div_mod_to_equations. lia. }
  replace zero_loop_fuel with (S (Z.to_nat (MULLE_NVRAM_CAPACITY / 8) + 1)) by (unfold zero_loop_fuel; lia).
  rewrite E.
  destruct (negb (r =? 0)); [by eexists|]. destruct (nvram_write d2 _ _) as [cnt' d3].
  destruct (negb (cnt' =? 4)); by eexists.
Qed.

(** Side conditions on lengths and ranges of the device lemmas. *)
Ltac nv_side :=
  simpl; rewrite ?length_write_bytes; rewrite ?length_le_bytes, ?length_replicate;
  first [reflexivity | lia | apply u32_fits | unfold fits in *; lia].


(** ** The board's layout and a healthy device *)

(** The layout the start-up code relies on: the FRAM is a whole number of
    8-byte blocks, and the magic word and the boot counter are two
    disjoint words inside it. *)
Definition nvram_layout : Prop :=
  0 <= MULLE_NVRAM_CAPACITY /\ MULLE_NVRAM_CAPACITY mod 8 = 0 /\
  0 <= MULLE_NVRAM_MAGIC /\ MULLE_NVRAM_MAGIC + 4 <= MULLE_NVRAM_CAPACITY /\
  0 <= MULLE_NVRAM_BOOT_COUNT /\ MULLE_NVRAM_BOOT_COUNT + 4 <= MULLE_NVRAM_CAPACITY /\
  (MULLE_NVRAM_MAGIC + 4 <= MULLE_NVRAM_BOOT_COUNT \/ MULLE_NVRAM_BOOT_COUNT + 4 <= MULLE_NVRAM_MAGIC) /\
  fits 32 MULLE_NVRAM_MAGIC_EXPECTED.

(** A device of the board's size on which no access fails. *)
Definition healthy (d : nvram) : Prop :=
  nv_faults d = [] /\ Z.of_nat (length (nv_mem d)) = MULLE_NVRAM_CAPACITY.

Section Layout.
Context (Hlay : nvram_layout).

Lemma read_magic_ok (d : nvram) :
  healthy d -> nvram_read d MULLE_NVRAM_MAGIC 4 = (4, take 4 (drop (Z.to_nat MULLE_NVRAM_MAGIC) (nv_mem d)), d).
Proof. intros [Hf Hl]. destruct Hlay as (? & ? & ? & ? & _). apply nvram_read_ok; first [done | lia]. Qed.

Lemma read_boot_ok (d : nvram) :
  healthy d ->
  nvram_read d MULLE_NVRAM_BOOT_COUNT 4 = (4, take 4 (drop (Z.to_nat MULLE_NVRAM_BOOT_COUNT) (nv_mem d)), d).
Proof. intros [Hf Hl]. destruct Hlay as (? & ? & ? & ? & ? & ? & _). apply nvram_read_ok; first [done | lia]. Qed.

(** [increase_boot_count] on a healthy device: the counter word becomes
    [u32 (old + 1)] and nothing else changes. *)
Lemma increase_boot_count_healthy (d : nvram) :
  healthy d ->
  increase_boot_count d =
    mk_nvram (write_bytes MULLE_NVRAM_BOOT_COUNT (le_bytes (u32 (nv_word MULLE_NVRAM_BOOT_COUNT d + 1)))
                (nv_mem d)) [].
Proof.
  intros Hh. unfold increase_boot_count. rewrite read_boot_ok by done. cbn -[nvram_write].
  destruct Hh as [Hf Hl]. destruct Hlay as (? & ? & ? & ? & ? & ? & _).
  rewrite nvram_write_ok by (rewrite ?length_le_bytes; first [done | lia]). reflexivity.
Qed.

Lemma healthy_write (d : nvram) (a : Z) (bs : list Z) :
  healthy d -> 0 <= a -> a + Z.of_nat (length bs) <= MULLE_NVRAM_CAPACITY ->
  healthy (mk_nvram (write_bytes a bs (nv_mem d)) []).
Proof. intros [Hf Hl] Ha Hb. split; [done|]. simpl. rewrite length_write_bytes; lia. Qed.

(** Formatting a fresh device: on a healthy FRAM without the magic word,
    [mulle_nvram_init] zeroes it and writes the magic word. *)
Lemma mulle_nvram_init_fresh (d : nvram) :
  healthy d -> nv_word MULLE_NVRAM_MAGIC d <> MULLE_NVRAM_MAGIC_EXPECTED ->
  mulle_nvram_init true d =
    Some (0, true, mk_nvram (write_bytes MULLE_NVRAM_MAGIC (le_bytes MULLE_NVRAM_MAGIC_EXPECTED)
                               (replicate (length (nv_mem d)) 0)) []).
Proof.
  intros Hh Hm. pose proof Hlay as (Hc & Hc8 & ? & ? & _).
  unfold mulle_nvram_init. rewrite read_magic_ok by done. cbn -[nvram_zero_loop nvram_write le_word].
  unfold nv_word in Hm. rewrite (proj2 (Z.eqb_neq _ _) Hm). destruct d as [mem fl]. destruct Hh as [Hf Hl]; simpl in Hf, Hl; subst fl.
  unfold zero_loop_fuel. rewrite Nat.add_succ_r, Nat.add_1_r.
  rewrite nvram_zero_loop_healthy by (rewrite ?Nat2Z.inj_succ, ?Z2Nat.id by (apply Z.div_pos; lia);
                                      first [reflexivity | lia | Z.div_mod_to_equations; lia]).
  cbn -[nvram_write le_bytes].
  rewrite nvram_write_ok by (simpl; rewrite ?length_replicate; first [reflexivity | lia]).
  reflexivity.
Qed.

Lemma window_le_bytes (a : Z) (v : Z) (mem : list Z) :
  0 <= a -> a + 4 <= Z.of_nat (length mem) -> fits 32 v ->
  le_word (take 4 (drop (Z.to_nat a) (write_bytes a (le_bytes v) mem))) = v.
Proof.
  intros. rewrite window_write_bytes_same by nv_side. by apply le_word_le_bytes.
Qed.

(** C27: First boot on a fresh FRAM: on a healthy device whose magic word
    is not the expected one, [main]'s NVRAM step ([mulle_nvram_init], then
    [increase_boot_count] on status 0) returns status 0, sets
    [mulle_nvram], leaves the magic word written, the boot counter at 1
    and every other byte of the device zero. *)
Theorem main_nvram_fresh (d : nvram) :
  healthy d -> nv_word MULLE_NVRAM_MAGIC d <> MULLE_NVRAM_MAGIC_EXPECTED ->
  exists d', main_nvram true d = Some (0, true, d') /\ healthy d' /\
    nv_word MULLE_NVRAM_MAGIC d' = MULLE_NVRAM_MAGIC_EXPECTED /\
    nv_word MULLE_NVRAM_BOOT_COUNT d' = 1 /\
    forall i : nat, (i < length (nv_mem d))%nat ->
      ~ (Z.to_nat MULLE_NVRAM_MAGIC <= i < Z.to_nat MULLE_NVRAM_MAGIC + 4)%nat ->
      ~ (Z.to_nat MULLE_NVRAM_BOOT_COUNT <= i < Z.to_nat MULLE_NVRAM_BOOT_COUNT + 4)%nat ->
      nv_mem d' !! i = Some 0.
Proof.
  intros Hh Hm. pose proof Hlay as (Hc & Hc8 & Hm0 & Hm4 & Hb0 & Hb4 & Hd & He).
  pose proof Hh as [Hf Hl].
  unfold main_nvram. rewrite mulle_nvram_init_fresh by done. cbn -[increase_boot_count].
  set (mem1 := write_bytes MULLE_NVRAM_MAGIC (le_bytes MULLE_NVRAM_MAGIC_EXPECTED) (replicate (length (nv_mem d)) 0)).
  assert (length mem1 = length (nv_mem d)) as Hl1 by (unfold mem1; nv_side).
  rewrite increase_boot_count_healthy by (split; cbn [nv_mem nv_faults]; [done | lia]).
  assert (nv_word MULLE_NVRAM_BOOT_COUNT (mk_nvram mem1 []) = 0) as Hb.
  { unfold nv_word, mem1. simpl. rewrite window_write_bytes_other by nv_side.
    rewrite window_replicate by lia. reflexivity. }
  rewrite Hb. eexists. split; [reflexivity|]. cbn [nv_mem].
  split; [split; [done|]; simpl; nv_side|].
  split; [|split].
  - unfold nv_word. simpl. rewrite window_write_bytes_other by nv_side.
    unfold mem1. apply window_le_bytes; nv_side.
  - unfold nv_word. simpl. apply window_le_bytes; nv_side.
  - intros i Hi H1 H2. rewrite lookup_write_bytes by nv_side. rewrite bool_decide_false by nv_side.
    unfold mem1. rewrite lookup_write_bytes by nv_side. rewrite bool_decide_false by nv_side.
    apply lookup_replicate_2. done.
Qed.

(** C28: Every later boot counts: on a healthy device that carries the
    magic word, [main]'s NVRAM step returns status 0, increments the
    32-bit boot counter (wrapping at 2^32) and changes no other byte. *)
Theorem main_nvram_counts_boots (d : nvram) :
  healthy d -> nv_word MULLE_NVRAM_MAGIC d = MULLE_NVRAM_MAGIC_EXPECTED ->
  exists d', main_nvram true d = Some (0, true, d') /\ healthy d' /\
    nv_word MULLE_NVRAM_BOOT_COUNT d' = u32 (nv_word MULLE_NVRAM_BOOT_COUNT d + 1) /\
    forall i : nat,
      ~ (Z.to_nat MULLE_NVRAM_BOOT_COUNT <= i < Z.to_nat MULLE_NVRAM_BOOT_COUNT + 4)%nat ->
      nv_mem d' !! i = nv_mem d !! i.
Proof.
  intros Hh Hm. pose proof Hlay as (Hc & Hc8 & Hm0 & Hm4 & Hb0 & Hb4 & Hd & He).
  pose proof Hh as [Hf Hl].
  unfold main_nvram, mulle_nvram_init. rewrite read_magic_ok by done.
  unfold nv_word in Hm. cbn -[increase_boot_count le_word]. rewrite Hm, Z.eqb_refl. simpl.
  rewrite increase_boot_count_healthy by done.
  eexists. split; [reflexivity|]. split; [split; [done|]; simpl; nv_side|]. split.
  - unfold nv_word at 1. simpl. apply window_le_bytes; [lia | lia | apply u32_fits].
  - intros i Hi. simpl. rewrite lookup_write_bytes by nv_side. rewrite bool_decide_false by nv_side.
    reflexivity.
Qed.

(** C29: The error paths of the NVRAM start-up: a failed SPI set-up
    returns -2 and leaves [mulle_nvram] NULL; a failed read of the magic
    word returns -3 and writes nothing; a failed read of the boot counter
    makes [increase_boot_count] write nothing; in every case [main] skips
    [increase_boot_count] unless the status is 0. *)
Theorem mulle_nvram_init_errors (d : nvram) (rest : list bool) :
  main_nvram false d = Some (-2, false, d) /\
  (nv_faults d = true :: rest ->
     main_nvram true d = Some (-3, true, mk_nvram (nv_mem d) rest) /\
     nv_mem (increase_boot_count d) = nv_mem d).
Proof.
  split; [reflexivity|]. intros Hf.
  unfold main_nvram, mulle_nvram_init, increase_boot_count.
  rewrite !(nvram_read_fault _ _ _ rest Hf). split; reflexivity.
Qed.

End Layout.

End Nvram.

(** ** The Coffee file system, as [init_cfs] sees it *)

(** [cfs_marker]: the file [formated] and its contents, if it exists;
    [cfs_user]: the rest of the store (erased by formatting); the outcome
    of the two operations [init_cfs] checks; the open descriptors. *)
Record cfs := mk_cfs {
  cfs_marker : option (list Z);
  cfs_user : list Z;
  cfs_format_fails : bool;
  cfs_open_write_fails : bool;
  cfs_open_fds : nat
}.

(** [cfs_open("formated", CFS_READ)]: -1 when the file does not exist. *)
Definition cfs_open_read (fs : cfs) : option cfs :=
  match cfs_marker fs with
  | None => None
  | Some _ => Some (mk_cfs (cfs_marker fs) (cfs_user fs) (cfs_format_fails fs)
                            (cfs_open_write_fails fs) (S (cfs_open_fds fs)))
  end.

(** [cfs_coffee_format()]: -1 on failure, else an empty store. *)
Definition cfs_coffee_format (fs : cfs) : option cfs :=
  if cfs_format_fails fs then None
  else Some (mk_cfs None [] false (cfs_open_write_fails fs) (cfs_open_fds fs)).

(** [cfs_open("formated", CFS_WRITE)]: creates the file. *)
Definition cfs_open_write (fs : cfs) : option cfs :=
  if cfs_open_write_fails fs then None
  else Some (mk_cfs (Some []) (cfs_user fs) (cfs_format_fails fs) false (S (cfs_open_fds fs))).

(** [cfs_write(fd, buf, len)] on the freshly created marker. *)
Definition cfs_write_marker (buf : list Z) (fs : cfs) : cfs :=
  mk_cfs (Some (default [] (cfs_marker fs) ++ buf)) (cfs_user fs) (cfs_format_fails fs)
         (cfs_open_write_fails fs) (cfs_open_fds fs).

Definition cfs_close (fs : cfs) : cfs :=
  mk_cfs (cfs_marker fs) (cfs_user fs) (cfs_format_fails fs) (cfs_open_write_fails fs)
         (Nat.pred (cfs_open_fds fs)).

(** ["DO NOT REMOVE!"], [strlen] = 14 bytes. *)
Definition marker_text : list Z := [68; 79; 32; 78; 79; 84; 32; 82; 69; 77; 79; 86; 69; 33].

(** [init_cfs()] (with [COFFEE_AUTO_FORMAT]): if the marker cannot be
    opened, format the store, create the marker and write the text; bail
    out on a failed format or a failed create; close the descriptor. *)
Definition init_cfs (fs : cfs) : cfs :=
  match cfs_open_read fs with
  | Some fs1 => cfs_close fs1
  | None =>
      match cfs_coffee_format fs with
      | None => fs
      | Some fs1 =>
          match cfs_open_write fs1 with
          | None => fs1
          | Some fs2 => cfs_close (cfs_write_marker marker_text fs2)
          end
      end
  end.

(** ** The NVIC priorities *)

(** [PORTE_IRQn] of the K60 vendor header (not in [src/]). *)
Definition PORTE_IRQn : nat := 91.

(** [NVIC_SetPriority(i, p)] for an external interrupt: the 8-bit [IP]
    register keeps the priority in its upper [__NVIC_PRIO_BITS] = 4 bits. *)
Definition NVIC_SetPriority (i : nat) (p : Z) (ip : list Z) : list Z :=
  <[i := u8 (Z.shiftl p 4)]> ip.

(** [for (i = 0; i < PORTE_IRQn; ++i) NVIC_SetPriority(i, 16/2);] *)
Definition main_irq_priorities (ip : list Z) : list Z :=
  foldl (fun acc i => NVIC_SetPriority i (16 / 2) acc) ip (seq 0 PORTE_IRQn).

(** ** [main]'s configuration of the wake-up controller *)

(** [llwu_init(); llwu_enable_wakeup_module(LLWU_WAKEUP_MODULE_LPTMR);
    llwu_register(deep_sleep); llwu_set_allow(deep_sleep, WITH_SLIP ? 0 : 1);]
    [llwu_init] (llwu.c) configures the LLWU interrupt only; none of the
    state modelled here changes.  [None]: a debug trap, or [deep_sleep] is
    no control block. *)
Definition main_llwu_setup (with_slip : bool) (deep_sleep : nat) (s : Llwu.llwu_state)
    (w : Wakeup.llwu_wakeup) : option (Llwu.llwu_state * Wakeup.llwu_wakeup) :=
  match Wakeup.llwu_enable_wakeup_module (Wakeup.wakeup_module_num Wakeup.LLWU_WAKEUP_MODULE_LPTMR) w with
  | inl _ => None
  | inr w1 =>
      s1 ← Llwu.llwu_register deep_sleep s;
      s2 ← Llwu.llwu_set_allow deep_sleep (if with_slip then 0 else 1) s1;
      Some (s2, w1)
  end.

(** ** The idle loop *)

(** What the idle loop observes: a call of [process_run()] returning [r],
    or an interrupt handler raising or releasing an inhibit counter. *)
Inductive idle_ev :=
  | PRun (r : Z)
  | PInhibit (d : Llwu.inhibit_depth)
  | PUninhibit (d : Llwu.inhibit_depth).

(** [while (1) { while (process_run() > 0); llwu_sleep(); }]: the modes
    [llwu_sleep] enters. *)
Fixpoint idle_loop (evs : list idle_ev) (s : Llwu.llwu_state) (c : Irq.cpu) : list (option Llwu.power_mode) :=
  match evs with
  | [] => []
  | PRun r :: rest =>
      if Z.ltb 0 r then idle_loop rest s c
      else let '(m, c') := Llwu.llwu_sleep s c in m :: idle_loop rest s c'
  | PInhibit d :: rest => idle_loop rest (Llwu.llwu_inhibit d s) c
  | PUninhibit d :: rest => idle_loop rest (Llwu.llwu_uninhibit d s) c
  end.

(** The counter states at which the loop goes to sleep. *)
Fixpoint sleep_points (evs : list idle_ev) (s : Llwu.llwu_state) : list Llwu.llwu_state :=
  match evs with
  | [] => []
  | PRun r :: rest => if Z.ltb 0 r then sleep_points rest s else s :: sleep_points rest s
  | PInhibit d :: rest => sleep_points rest (Llwu.llwu_inhibit d s)
  | PUninhibit d :: rest => sleep_points rest (Llwu.llwu_uninhibit d s)
  end.

(** ** Properties of the start-up and the idle loop *)

(** C30: [init_cfs] leaks no descriptor on any path, leaves a store that
    carries the marker untouched, and on a store without the marker
    formats it (erasing every other file) and writes the marker, unless
    creating it fails, in which case the next boot formats again. *)
Theorem init_cfs_spec (fs : cfs) :
  cfs_open_fds (init_cfs fs) = cfs_open_fds fs /\
  (cfs_marker fs <> None -> init_cfs fs = fs) /\
  (cfs_marker fs = None -> cfs_format_fails fs = false ->
     cfs_user (init_cfs fs) = [] /\
     cfs_marker (init_cfs fs) = if cfs_open_write_fails fs then None else Some marker_text).
Proof.
  destruct fs as [[m|] u ff fw n]; unfold init_cfs, cfs_open_read; simpl.
  - split; [done|]. split; [by intros _|]. done.
  - unfold cfs_coffee_format. destruct ff; simpl; [split; [done|]; split; [done|]; discriminate|].
    unfold cfs_open_write. destruct fw; simpl; repeat split; done.
Qed.

Lemma lookup_priorities_loop (ip : list Z) (a n j : nat) (v : Z) :
  (a + n <= length ip)%nat ->
  foldl (fun acc i => <[i := v]> acc) ip (seq a n) !! j =
    if bool_decide (a <= j < a + n)%nat then Some v else ip !! j.
Proof.
  revert ip a. induction n as [|n IH]; intros ip a Hl; simpl.
  - rewrite bool_decide_false by lia. done.
  - rewrite IH by (rewrite length_insert; lia).
    destruct (decide (j = a)) as [->|Hne].
    + rewrite bool_decide_false by lia. rewrite bool_decide_true by lia.
      apply list_lookup_insert_eq. lia.
    + rewrite list_lookup_insert_ne by done.
      case_bool_decide; case_bool_decide; done || lia.
Qed.

(** C31: The priority loop of [main] gives every interrupt below
    [PORTE_IRQn] the middle priority 8 (register value 128) and leaves
    [PORTE_IRQn] and every later vector at its previous priority (0, the
    highest, after reset), although the comment says all priorities are
    set to max/2. *)
Theorem main_irq_priorities_spec (ip : list Z) :
  (PORTE_IRQn < length ip)%nat ->
  length (main_irq_priorities ip) = length ip /\
  (forall i, (i < PORTE_IRQn)%nat -> main_irq_priorities ip !! i = Some 128) /\
  (forall i, (PORTE_IRQn <= i)%nat -> main_irq_priorities ip !! i = ip !! i).
Proof.
  intros Hl. unfold main_irq_priorities, NVIC_SetPriority.
  change (u8 (Z.shiftl (16 / 2) 4)) with 128. split; [|split].
  - clear Hl. generalize (seq 0 PORTE_IRQn). intros l. revert ip.
    induction l as [|i l IH]; intros ip; simpl; [done|]. rewrite IH. apply length_insert.
  - intros i Hi. rewrite lookup_priorities_loop by lia. rewrite bool_decide_true by lia. done.
  - intros i Hi. rewrite lookup_priorities_loop by lia. rewrite bool_decide_false by lia. done.
Qed.

(** After [main]'s set-up the registry is the one node [deep_sleep] with
    its flag, and the LPTMR wake-up bit is set. *)
Lemma main_llwu_setup_chain (with_slip : bool) (deep_sleep : nat) (s s' : Llwu.llwu_state)
    (w w' : Wakeup.llwu_wakeup) :
  Llwu.ctl_head s = None -> main_llwu_setup with_slip deep_sleep s w = Some (s', w') ->
  Llwu.chain (Llwu.controls s') (Llwu.ctl_head s') [deep_sleep] /\
  Llwu.allow_of (Llwu.controls s') deep_sleep = negb with_slip /\
  Z.testbit (Wakeup.llwu_me w') 0 = true.
Proof.
  intros Hh. unfold main_llwu_setup, Wakeup.llwu_enable_wakeup_module. simpl.
  unfold Llwu.llwu_register. destruct (Llwu.controls s !! deep_sleep) as [n|] eqn:Hn; [|done].
  simpl. unfold Llwu.llwu_set_allow. simpl. rewrite lookup_insert_eq. simpl.
  intros [= <- <-]. simpl. split; [|split].
  - rewrite insert_insert_eq. econstructor; [apply lookup_insert_eq | apply not_elem_of_nil |].
    simpl. rewrite Hh. constructor.
  - unfold Llwu.allow_of. rewrite lookup_insert_eq. by destruct with_slip.
  - rewrite <- Z.bit0_odd, testbit_reg_set. apply orb_true_r.
Qed.

(** The idle loop on a registry that the interrupt handlers do not
    change: each sleep is the policy at that point. *)
Lemma idle_loop_chain (evs : list idle_ev) (s : Llwu.llwu_state) (l : list nat) (c : Irq.cpu) :
  Llwu.chain (Llwu.controls s) (Llwu.ctl_head s) l ->
  idle_loop evs s c =
    map (fun x => Some (Llwu.llwu_choose (Llwu.stop_sema x) (Llwu.vlps_sema x) (Llwu.lls_sema x)
                          (forallb (Llwu.allow_of (Llwu.controls s)) l)))
        (sleep_points evs s).
Proof.
  revert s c. induction evs as [|[r|d|d] evs IH]; intros s c Hc; cbn [idle_loop sleep_points]; [done| | |].
  - destruct (Z.ltb 0 r); [by apply IH|].
    rewrite (Llwu.llwu_sleep_chain _ l) by done. simpl. f_equal. by apply IH.
  - destruct (Llwu.llwu_inhibit_registry d s) as (E1 & E2 & _).
    rewrite IH by (rewrite E1, E2; done). rewrite E1. done.
  - destruct (Llwu.llwu_inhibit_registry d s) as (_ & _ & E1 & E2).
    rewrite IH by (rewrite E1, E2; done). rewrite E1. done.
Qed.

(** C13: [main]'s sleep policy: after its LLWU set-up from a fresh
    registry, the LPTMR wake-up source is enabled, and in the idle loop
    each [llwu_sleep] (entered only after [process_run()] returned 0) is
    WAIT in a [WITH_SLIP] build, and otherwise the deepest mode the
    inhibit counters allow at that point, LLS when none is raised,
    although the comment above says deep sleep is not allowed. *)
Theorem main_idle_policy (with_slip : bool) (deep_sleep : nat) (s s' : Llwu.llwu_state)
    (w w' : Wakeup.llwu_wakeup) (evs : list idle_ev) (c : Irq.cpu) :
  Llwu.ctl_head s = None -> main_llwu_setup with_slip deep_sleep s w = Some (s', w') ->
  Z.testbit (Wakeup.llwu_me w') 0 = true /\
  idle_loop evs s' c =
    map (fun x => Some (if with_slip then Llwu.PmWait
                        else Llwu.llwu_choose (Llwu.stop_sema x) (Llwu.vlps_sema x) (Llwu.lls_sema x) true))
        (sleep_points evs s').
Proof.
  intros Hh Hs. destruct (main_llwu_setup_chain _ _ _ _ _ _ Hh Hs) as (Hc & Ha & Hw).
  split; [done|]. rewrite (idle_loop_chain _ _ _ _ Hc). simpl. rewrite Ha.
  apply map_ext. intros x. destruct with_slip; simpl; [|done].
  by rewrite Llwu.llwu_choose_dissent.
Qed.

(** ** Witnesses *)

(** A board layout: a 32-byte FRAM, the magic word at 0, the boot counter
    at 4, the magic value ["MULL"]. *)
Definition ex_magic : Z := 1280136525.
Definition ex_fresh : nvram := mk_nvram (replicate 32 5) [].
Definition ex_provisioned : nvram := mk_nvram (le_bytes ex_magic ++ [7; 0; 0; 0] ++ replicate 24 0) [].

Lemma ex_layout : nvram_layout 32 0 4 ex_magic.
Proof. unfold nvram_layout, ex_magic, fits. repeat split; simpl; lia. Qed.

Lemma main_nvram_fresh_witness :
  nvram_layout 32 0 4 ex_magic /\ healthy 32 ex_fresh /\ nv_word 0 ex_fresh <> ex_magic /\
  exists d', main_nvram 32 0 4 ex_magic true ex_fresh = Some (0, true, d') /\ healthy 32 d' /\
    nv_word 0 d' = ex_magic /\ nv_word 4 d' = 1 /\
    forall i : nat, (i < length (nv_mem ex_fresh))%nat ->
      ~ (Z.to_nat 0 <= i < Z.to_nat 0 + 4)%nat -> ~ (Z.to_nat 4 <= i < Z.to_nat 4 + 4)%nat ->
      nv_mem d' !! i = Some 0.
Proof.
  assert (healthy 32 ex_fresh) as Hh by (split; reflexivity).
  assert (nv_word 0 ex_fresh <> ex_magic) as Hm by (unfold ex_magic; vm_compute; discriminate).
  split; [exact ex_layout|]. split; [exact Hh|]. split; [exact Hm|].
  exact (main_nvram_fresh 32 0 4 ex_magic ex_layout ex_fresh Hh Hm).
Defined.

Lemma main_nvram_counts_boots_witness :
  nvram_layout 32 0 4 ex_magic /\ healthy 32 ex_provisioned /\ nv_word 0 ex_provisioned = ex_magic /\
  exists d', main_nvram 32 0 4 ex_magic true ex_provisioned = Some (0, true, d') /\ healthy 32 d' /\
    nv_word 4 d' = u32 (nv_word 4 ex_provisioned + 1) /\
    forall i : nat, ~ (Z.to_nat 4 <= i < Z.to_nat 4 + 4)%nat -> nv_mem d' !! i = nv_mem ex_provisioned !! i.
Proof.
  assert (healthy 32 ex_provisioned) as Hh by (split; reflexivity).
  assert (nv_word 0 ex_provisioned = ex_magic) as Hm by (unfold ex_magic; vm_compute; reflexivity).
  split; [exact ex_layout|]. split; [exact Hh|]. split; [exact Hm|].
  exact (main_nvram_counts_boots 32 0 4 ex_magic ex_layout ex_provisioned Hh Hm).
Defined.

Lemma main_irq_priorities_spec_witness :
  (PORTE_IRQn < length (replicate CpuConf.CPU_IRQ_NUMOF (0:Z)))%nat /\
  length (main_irq_priorities (replicate CpuConf.CPU_IRQ_NUMOF (0:Z))) = length (replicate CpuConf.CPU_IRQ_NUMOF (0:Z)) /\
  (forall i, (i < PORTE_IRQn)%nat -> main_irq_priorities (replicate CpuConf.CPU_IRQ_NUMOF (0:Z)) !! i = Some 128) /\
  (forall i, (PORTE_IRQn <= i)%nat -> main_irq_priorities (replicate CpuConf.CPU_IRQ_NUMOF (0:Z)) !! i = replicate CpuConf.CPU_IRQ_NUMOF (0:Z) !! i).
Proof.
  assert (PORTE_IRQn < length (replicate CpuConf.CPU_IRQ_NUMOF (0:Z)))%nat as H by (rewrite length_replicate; unfold PORTE_IRQn, CpuConf.CPU_IRQ_NUMOF; lia).
  split; [exact H|]. exact (main_irq_priorities_spec _ H).
Defined.

(** The boot state of the registry: [deep_sleep] at address 3, nothing
    registered; the wake-up unit after reset. *)
Definition ex_llwu : Llwu.llwu_state := Llwu.mk_llwu 0 0 0 {[3%nat := Llwu.llwu_control_init]} None.
Definition ex_wake : Wakeup.llwu_wakeup := Wakeup.wakeup_reset.
Definition ex_setup : Llwu.llwu_state * Wakeup.llwu_wakeup :=
  default (ex_llwu, ex_wake) (main_llwu_setup false 3 ex_llwu ex_wake).
Definition ex_idle : list idle_ev := [PRun 2; PRun 0; PInhibit Llwu.InhStop; PRun 1; PRun 0].

Lemma main_idle_policy_witness :
  Llwu.ctl_head ex_llwu = None /\ main_llwu_setup false 3 ex_llwu ex_wake = Some (ex_setup.1, ex_setup.2) /\
  Z.testbit (Wakeup.llwu_me ex_setup.2) 0 = true /\
  idle_loop ex_idle ex_setup.1 (Irq.mk_cpu false 0) =
    map (fun x => Some (if false then Llwu.PmWait
                        else Llwu.llwu_choose (Llwu.stop_sema x) (Llwu.vlps_sema x) (Llwu.lls_sema x) true))
        (sleep_points ex_idle ex_setup.1).
Proof.
  assert (Llwu.ctl_head ex_llwu = None) as Hh by reflexivity.
  assert (main_llwu_setup false 3 ex_llwu ex_wake = Some (ex_setup.1, ex_setup.2)) as Hs by reflexivity.
  split; [exact Hh|]. split; [exact Hs|].
  exact (main_idle_policy false 3 ex_llwu ex_setup.1 ex_wake ex_setup.2 ex_idle _ Hh Hs).
Defined.

End Main.
